(** * ia-minotaur: a shallow embedding of the browser/downloader core

    The development follows [ia_minotaur.py]: the text helpers and the
    regular expressions it uses, the license gate, the naming and bucket
    classifier, the favorites store, search pagination, the supervised
    download loop and the import of a staged file into the library.

    Python [str] values are modelled as [string], read as sequences of
    code points below 256 (the Latin-1 part of Unicode); integers are [Z].
    The outside world (keyboard, terminal size, clock, file system, remote
    archive, child process) is an explicit value threaded through the
    methods of the application object. *)

From Stdlib Require Import ZArith NArith Ascii String List Bool Lia Sorted.
From stdpp Require Import base option list gmap strings pretty.

Local Open Scope Z_scope.

(** ** Characters *)

Module Char.

Definition code (c : ascii) : N := N_of_ascii c.

Definition between (lo hi : N) (c : ascii) : bool :=
  ((lo <=? code c) && (code c <=? hi))%N.

(** [str.isspace] on one code point; also the class [\s] of a [str]
    pattern and the set removed by [str.strip()]. *)
Definition isspace (c : ascii) : bool :=
  between 9 13 c || between 28 32 c || (code c =? 133)%N || (code c =? 160)%N.

(** Decimal digits, the class [\d]. *)
Definition isdigit (c : ascii) : bool := between 48 57 c.

(** Word characters, the class [\w] of a [str] pattern: alphanumerics
    (in the Unicode sense) and the underscore. *)
Definition isword (c : ascii) : bool :=
  between 48 57 c || between 65 90 c || between 97 122 c || (code c =? 95)%N
  || (code c =? 170)%N || (code c =? 178)%N || (code c =? 179)%N
  || (code c =? 181)%N || (code c =? 185)%N || (code c =? 186)%N
  || between 188 190 c
  || between 192 214 c || between 216 246 c || between 248 255 c.

(** [str.isprintable] on one code point. *)
Definition isprintable (c : ascii) : bool :=
  between 32 126 c || between 161 172 c || between 174 255 c.

Definition lower (c : ascii) : ascii :=
  if between 65 90 c || (between 192 222 c && negb (code c =? 215)%N)
  then ascii_of_N (code c + 32) else c.

(** Upper case of one code point, for those whose upper case is again a
    single code point below 256. *)
Definition upper1 (c : ascii) : ascii :=
  if between 97 122 c || (between 224 254 c && negb (code c =? 247)%N)
  then ascii_of_N (code c - 32) else c.

Definition eqb (a b : ascii) : bool := Ascii.eqb a b.

End Char.

(** ** Strings: the [str] methods the program uses *)

Module Str.

Fixpoint map (f : ascii → ascii) (s : string) : string :=
  match s with
  | EmptyString => EmptyString
  | String c s' => String (f c) (map f s')
  end.

Definition lower (s : string) : string := map Char.lower s.

(** [str.upper]: the sharp s becomes two letters.  The code points 181 and
    255 have upper-case forms outside Latin-1; they are kept as they are,
    which no test of the program on the upper-cased text can observe (it
    only looks for the ASCII words " AND " and " OR "). *)
Fixpoint upper (s : string) : string :=
  match s with
  | EmptyString => EmptyString
  | String c s' =>
      if (Char.code c =? 223)%N then String "S" (String "S" (upper s'))
      else String (Char.upper1 c) (upper s')
  end.

Fixpoint lstrip (s : string) : string :=
  match s with
  | EmptyString => EmptyString
  | String c s' => if Char.isspace c then lstrip s' else s
  end.

Fixpoint rstrip (s : string) : string :=
  match s with
  | EmptyString => EmptyString
  | String c s' =>
      match rstrip s' with
      | EmptyString => if Char.isspace c then EmptyString else String c EmptyString
      | r => String c r
      end
  end.

(** [s.strip()] *)
Definition strip (s : string) : string := rstrip (lstrip s).

(** [s.strip(chars)]: strip the characters of a given set instead. *)
Fixpoint lstrip_set (p : ascii → bool) (s : string) : string :=
  match s with
  | EmptyString => EmptyString
  | String c s' => if p c then lstrip_set p s' else s
  end.

Fixpoint rstrip_set (p : ascii → bool) (s : string) : string :=
  match s with
  | EmptyString => EmptyString
  | String c s' =>
      match rstrip_set p s' with
      | EmptyString => if p c then EmptyString else String c EmptyString
      | r => String c r
      end
  end.

Definition strip_set (p : ascii → bool) (s : string) : string :=
  rstrip_set p (lstrip_set p s).

Fixpoint startswith (p s : string) : bool :=
  match p, s with
  | EmptyString, _ => true
  | String a p', String b s' => Char.eqb a b && startswith p' s'
  | String _ _, EmptyString => false
  end.

(** [sub in s] *)
Fixpoint contains (sub s : string) : bool :=
  startswith sub s ||
  match s with
  | EmptyString => false
  | String _ s' => contains sub s'
  end.

Fixpoint has_char (c : ascii) (s : string) : bool :=
  match s with
  | EmptyString => false
  | String x s' => Char.eqb c x || has_char c s'
  end.

Fixpoint endswith_char (c : ascii) (s : string) : bool :=
  match s with
  | EmptyString => false
  | String x EmptyString => Char.eqb c x
  | String _ s' => endswith_char c s'
  end.

Fixpoint take (n : nat) (s : string) : string :=
  match n, s with
  | S n', String c s' => String c (take n' s')
  | _, _ => EmptyString
  end.

Fixpoint drop (n : nat) (s : string) : string :=
  match n, s with
  | S n', String _ s' => drop n' s'
  | _, _ => s
  end.

Definition is_empty (s : string) : bool :=
  match s with EmptyString => true | _ => false end.

(** [a or b] on strings: the first operand unless it is empty. *)
Definition or_else (a b : string) : string :=
  if is_empty a then b else a.

(** [sep.join(parts)] *)
Fixpoint join (sep : string) (parts : list string) : string :=
  match parts with
  | [] => EmptyString
  | [p] => p
  | p :: rest => p +:+ sep +:+ join sep rest
  end.

Definition all (p : ascii → bool) (s : string) : bool :=
  forallb p (list_ascii_of_string s).

Definition len (s : string) : Z := Z.of_nat (String.length s).

End Str.

(** ** Regular expressions: the fragment of [re] the program uses

    Patterns are written as syntax trees and run by a backtracking matcher
    that tries alternatives from left to right and repetitions greedily,
    as [re] does, so that the first match found is the one [re] reports. *)

Module Re.

Local Open Scope nat_scope.

Inductive regex : Type :=
| Eps                                  (* the empty pattern *)
| Chr (c : ascii)                      (* one literal character *)
| Set_ (p : ascii → bool)              (* a class: [...], \d, \s *)
| Seq (r1 r2 : regex)                  (* r1 r2 *)
| Alt (r1 r2 : regex)                  (* r1|r2 *)
| Opt (r : regex)                      (* r? *)
| Rep (r : regex) (lo hi : nat)        (* r{lo,hi} *)
| Plus (p : ascii → bool)              (* [...]+ on a class *)
| WordB                                (* \b *)
| Group (n : nat) (r : regex).         (* the n-th capturing group *)

(** A literal word. *)
Fixpoint Lit (s : string) : regex :=
  match s with
  | EmptyString => Eps
  | String c EmptyString => Chr c
  | String c s' => Seq (Chr c) (Lit s')
  end.

(** [Alts [r1; ...; rn]] is [r1|...|rn]. *)
Fixpoint Alts (rs : list regex) : regex :=
  match rs with
  | [] => Set_ (λ _, false)
  | [r] => r
  | r :: rest => Alt r (Alts rest)
  end.

(** Matcher state: the character before the current position, the text
    still to read, and the groups captured so far (latest first). *)
Record mstate := MState {
  prev : option ascii;
  rest : string;
  caps : list (nat * string)
}.

Definition advance (x : ascii) (s' : string) (st : mstate) : mstate :=
  MState (Some x) s' (caps st).

Definition next_char (st : mstate) : option ascii :=
  match rest st with
  | EmptyString => None
  | String c _ => Some c
  end.

Definition is_word_opt (o : option ascii) : bool :=
  match o with Some c => Char.isword c | None => false end.

Definition at_word_boundary (st : mstate) : bool :=
  xorb (is_word_opt (prev st)) (is_word_opt (next_char st)).

(** Literal comparison.  With [re.IGNORECASE] two characters below code
    point 256 match exactly when their lower-case forms are equal; beyond
    Latin-1, which the strings here do not reach, the flag equates more
    (the long s with [s], the micro sign with the Greek mu). *)
Definition chr_matches (ic : bool) (c x : ascii) : bool :=
  if ic then Char.eqb (Char.lower c) (Char.lower x) else Char.eqb c x.

Definition consumed (before after : string) : string :=
  Str.take (String.length before - String.length after) before.

(** The greedy tail of [[...]+]: after [x], take as many characters of
    the class as there are, and give one back at a time if what follows
    the repetition fails. *)
Fixpoint plus_more (p : ascii → bool) (k : mstate → option mstate)
    (cps : list (nat * string)) (x : ascii) (s : string) : option mstate :=
  match s with
  | String y s' =>
      if p y then
        match plus_more p k cps y s' with
        | Some m => Some m
        | None => k (MState (Some x) s cps)
        end
      else k (MState (Some x) s cps)
  | EmptyString => k (MState (Some x) s cps)
  end.

Fixpoint run (ic : bool) (r : regex) (st : mstate)
    (k : mstate → option mstate) {struct r} : option mstate :=
  match r with
  | Eps => k st
  | Chr c =>
      match rest st with
      | String x s' => if chr_matches ic c x then k (advance x s' st) else None
      | EmptyString => None
      end
  | Set_ p =>
      match rest st with
      | String x s' => if p x then k (advance x s' st) else None
      | EmptyString => None
      end
  | Seq r1 r2 => run ic r1 st (λ st', run ic r2 st' k)
  | Alt r1 r2 =>
      match run ic r1 st k with
      | Some m => Some m
      | None => run ic r2 st k
      end
  | Opt r1 =>
      match run ic r1 st k with
      | Some m => Some m
      | None => k st
      end
  | Rep r1 lo hi =>
      (fix rep (lo hi : nat) (st : mstate) {struct hi} : option mstate :=
         match hi with
         | O => k st
         | S hi' =>
             match run ic r1 st (λ st', rep (Nat.pred lo) hi' st') with
             | Some m => Some m
             | None => match lo with O => k st | S _ => None end
             end
         end) lo hi st
  | Plus p =>
      match rest st with
      | String x s' => if p x then plus_more p k (caps st) x s' else None
      | EmptyString => None
      end
  | WordB => if at_word_boundary st then k st else None
  | Group n r1 =>
      run ic r1 st
        (λ st', k (MState (prev st') (rest st')
                     ((n, consumed (rest st) (rest st')) :: caps st')))
  end.

(** A match object: where the match starts and ends, and its groups. *)
Record rmatch := RMatch {
  m_start : nat;
  m_end : nat;
  m_caps : list (nat * string)
}.

Fixpoint group_in (caps : list (nat * string)) (n : nat) : string :=
  match caps with
  | [] => EmptyString
  | (i, t) :: caps' => if Nat.eqb i n then t else group_in caps' n
  end.

(** [m.group(n)] *)
Definition group (m : rmatch) (n : nat) : string := group_in (m_caps m) n.

(** Try the pattern at the current position only. *)
Definition match_here (ic : bool) (r : regex) (pv : option ascii) (s : string)
    : option mstate :=
  run ic r (MState pv s []) Some.

Fixpoint search_from (ic : bool) (r : regex) (pv : option ascii) (s : string)
    (pos : nat) : option rmatch :=
  match match_here ic r pv s with
  | Some st' =>
      Some (RMatch pos (pos + (String.length s - String.length (rest st'))) (caps st'))
  | None =>
      match s with
      | EmptyString => None
      | String c s' => search_from ic r (Some c) s' (S pos)
      end
  end.

(** [re.search(r, s)] ([ic] is the flag [re.IGNORECASE]). *)
Definition search (ic : bool) (r : regex) (s : string) : option rmatch :=
  search_from ic r None s 0.

(** [re.sub(r, repl, s)] for a plain replacement text: the matches are
    found from left to right and do not overlap; an empty match puts the
    replacement in front of the character it stands before.  [skip] counts
    the characters of the current match still to be dropped. *)
Fixpoint sub_go (ic : bool) (r : regex) (repl : string) (pv : option ascii)
    (s : string) (skip : nat) : string :=
  match s with
  | EmptyString =>
      match skip with
      | O => match match_here ic r pv EmptyString with
             | Some _ => repl
             | None => EmptyString
             end
      | S _ => EmptyString
      end
  | String c s' =>
      match skip with
      | S n => sub_go ic r repl (Some c) s' n
      | O =>
          match match_here ic r pv s with
          | Some st' =>
              match String.length s - String.length (rest st') with
              | O => repl +:+ String c (sub_go ic r repl (Some c) s' 0)
              | S n => repl +:+ sub_go ic r repl (Some c) s' n
              end
          | None => String c (sub_go ic r repl (Some c) s' 0)
          end
      end
  end.

Definition sub (ic : bool) (r : regex) (repl : string) (s : string) : string :=
  sub_go ic r repl None s 0.

(** What [re.sub] does for a pattern [[...]+]: every maximal run of
    characters of the class is replaced by one copy of the replacement. *)
Fixpoint sub_runs (p : ascii → bool) (repl : string) (in_run : bool)
    (s : string) : string :=
  match s with
  | EmptyString => EmptyString
  | String c s' =>
      if p c then
        (if in_run then EmptyString else repl) +:+ sub_runs p repl true s'
      else String c (sub_runs p repl false s')
  end.

End Re.

(** ** Numbers in text *)

Module Num.

Definition digit_val (c : ascii) : Z := Z.of_N (Char.code c) - 48.

(** Value of a run of decimal digits, read from the left. *)
Fixpoint digits_val (acc : Z) (s : string) : Z :=
  match s with
  | EmptyString => acc
  | String c s' => digits_val (10 * acc + digit_val c) s'
  end.

(** The digits of an [int] literal: digits with single underscores
    allowed between them. *)
Fixpoint parse_digits (acc : Z) (after_digit : bool) (s : string) : option Z :=
  match s with
  | EmptyString => if after_digit then Some acc else None
  | String c s' =>
      if Char.isdigit c then parse_digits (10 * acc + digit_val c) true s'
      else if Char.eqb c "_" && after_digit then
        match s' with
        | String d _ => if Char.isdigit d then parse_digits acc false s' else None
        | EmptyString => None
        end
      else None
  end.

(** The blanks [int] skips around a literal: those of [str.isspace] but
    for the separators 28 to 31. *)
Definition int_blank (c : ascii) : bool :=
  Char.between 9 13 c || (Char.code c =? 32)%N || (Char.code c =? 133)%N
  || (Char.code c =? 160)%N.

(** [int(s)] on a string; [None] stands for [ValueError]. *)
Definition py_int (s : string) : option Z :=
  match Str.strip_set int_blank s with
  | String "-" s' => Z.opp <$> parse_digits 0 false s'
  | String "+" s' => parse_digits 0 false s'
  | s' => parse_digits 0 false s'
  end.

(** [str(n)] for a natural number. *)
Definition of_N (n : N) : string := pretty n.

(** [f"{z}"] *)
Definition of_Z (z : Z) : string :=
  if z <? 0 then "-" +:+ of_N (Z.to_N (- z)) else of_N (Z.to_N z).

(** [f"{z:02d}"]: at least two characters, padded with zeros after the
    sign. *)
Definition fmt_02d (z : Z) : string :=
  if z <? 0 then "-" +:+ of_N (Z.to_N (- z))
  else if z <? 10 then "0" +:+ of_N (Z.to_N z)
  else of_N (Z.to_N z).

End Num.

(** ** Paths: the functions of [os.path] (POSIX flavour) *)

Module Path.

(** [s.rfind(c)]: index of the last occurrence, [-1] when there is none. *)
Fixpoint rfind_from (c : ascii) (s : string) (i : Z) (last : Z) : Z :=
  match s with
  | EmptyString => last
  | String x s' => rfind_from c s' (i + 1) (if Char.eqb c x then i else last)
  end.

Definition rfind (c : ascii) (s : string) : Z := rfind_from c s 0 (-1).

Definition slice_to (i : Z) (s : string) : string := Str.take (Z.to_nat i) s.
Definition slice_from (i : Z) (s : string) : string := Str.drop (Z.to_nat i) s.

(** [os.path.basename] *)
Definition basename (p : string) : string := slice_from (rfind "/" p + 1) p.

(** The loop of [splitext] that skips leading dots of the last component:
    is some character in [p[from:upto]] not a dot? *)
Definition has_non_dot (p : string) (from upto : Z) : bool :=
  negb (Str.all (Char.eqb ".") (slice_to (upto - from) (slice_from from p))).

(** [os.path.splitext] *)
Definition splitext (p : string) : string * string :=
  let sepIndex := rfind "/" p in
  let dotIndex := rfind "." p in
  if (sepIndex <? dotIndex) && has_non_dot p (sepIndex + 1) dotIndex
  then (slice_to dotIndex p, slice_from dotIndex p)
  else (p, EmptyString).

(** [os.path.join(a, b)] *)
Definition join (a b : string) : string :=
  if Str.startswith "/" b then b
  else if Str.is_empty a || Str.endswith_char "/" a then a +:+ b
  else a +:+ "/" +:+ b.

Definition join3 (a b c : string) : string := join (join a b) c.

(** [os.path.dirname] *)
Definition dirname (p : string) : string :=
  let head := slice_to (rfind "/" p + 1) p in
  if Str.is_empty head || Str.all (Char.eqb "/") head then head
  else Str.rstrip_set (Char.eqb "/") head.

End Path.

(** ** Module-level constants *)

Definition MEDIA_ROOT : string := "/mnt/ssd/media".
Definition STAGING_ROOT : string := Path.join MEDIA_ROOT ".ia_staging".
Definition BUCKET_TV : string := Path.join MEDIA_ROOT "TV".
Definition BUCKET_MOVIES : string := Path.join MEDIA_ROOT "Movies".
Definition BUCKET_OTHER : string := Path.join MEDIA_ROOT "Other".
Definition FILTERS : list string := ["movies"; "audio"; "texts"; "software"; "any"].
Definition ROWS_PER_PAGE : Z := 30.
Definition MIN_H : Z := 18.
Definition MIN_W : Z := 70.
Definition VIDEO_EXTS : list string := [".mp4"; ".mkv"; ".avi"; ".mov"; ".webm"; ".m4v"].
Definition VIDEO_FORMAT_HINTS : list string :=
  ["h.264"; "h264"; "mpeg4"; "mp4"; "matroska"; "webm"; "quicktime"; "avi"].
Definition LARGE_VIDEO_BYTES : Z := 500 * 1024 * 1024.

Record SearchResult := mkSearchResult {
  identifier : string;
  title : string;
  year : string;
  creator : string
}.

Record IAFile := mkIAFile {
  name : string;
  size : Z;
  fmt : string
}.

(** ** Text helpers of the program *)

(** The double quote, written by its code. *)
Definition dquote : ascii := ascii_of_N 34.

(** The characters removed from folder names: slash, backslash, colon,
    star, question mark, double quote, angle brackets and the bar. *)
Definition is_path_unsafe (c : ascii) : bool :=
  Char.eqb c "/" || Char.eqb c "\" || Char.eqb c ":" || Char.eqb c "*"
  || Char.eqb c "?" || Char.eqb c dquote || Char.eqb c "<" || Char.eqb c ">"
  || Char.eqb c "|".

Definition sanitize_folder (name : string) : string :=
  let name := Str.strip name in
  let name := Re.sub false (Re.Plus is_path_unsafe) "" name in
  let name := Str.strip (Re.sub false (Re.Plus Char.isspace) " " name) in
  Str.or_else name "Unknown".

Definition in_chars (set : string) (c : ascii) : bool := Str.has_char c set.

(** The pattern [[Ss](\d{1,2})[Ee](\d{1,2})]. *)
Definition sxxeyy_rx : Re.regex :=
  Re.Seq (Re.Set_ (in_chars "Ss"))
    (Re.Seq (Re.Group 1 (Re.Rep (Re.Set_ Char.isdigit) 1 2))
       (Re.Seq (Re.Set_ (in_chars "Ee"))
          (Re.Group 2 (Re.Rep (Re.Set_ Char.isdigit) 1 2)))).

Definition detect_sxxeyy (text : string) : option (Z * Z) :=
  match Re.search false sxxeyy_rx text with
  | None => None
  | Some m => Some (Num.digits_val 0 (Re.group m 1), Num.digits_val 0 (Re.group m 2))
  end.

Definition is_video_file (name fmt : string) : bool :=
  let ext := snd (Path.splitext (Str.lower name)) in
  if bool_decide (ext ∈ VIDEO_EXTS) then true
  else
    let fmt_l := Str.lower fmt in
    existsb (λ h, Str.contains h fmt_l) VIDEO_FORMAT_HINTS.

(** The pattern [\b(19\d{2}|20\d{2})\b]. *)
Definition year_rx : Re.regex :=
  Re.Seq Re.WordB
    (Re.Seq (Re.Group 1
               (Re.Alt (Re.Seq (Re.Lit "19") (Re.Rep (Re.Set_ Char.isdigit) 2 2))
                       (Re.Seq (Re.Lit "20") (Re.Rep (Re.Set_ Char.isdigit) 2 2))))
            Re.WordB).

(** The scene-release tags, compiled with [re.IGNORECASE]. *)
Definition scene_rx : Re.regex :=
  Re.Seq Re.WordB
    (Re.Seq
       (Re.Alts
          [ Re.Lit "2160p"; Re.Lit "1080p"; Re.Lit "720p"; Re.Lit "480p";
            Re.Lit "bluray"; Re.Lit "brrip"; Re.Lit "bdrip"; Re.Lit "webrip";
            Re.Lit "web-dl"; Re.Lit "hdrip"; Re.Lit "dvdrip";
            Re.Lit "x264"; Re.Lit "x265"; Re.Lit "h264"; Re.Lit "h265";
            Re.Lit "hevc"; Re.Lit "av1";
            Re.Seq (Re.Lit "aac") (Re.Seq (Re.Opt (Re.Chr "2")) (Re.Lit ".0"));
            Re.Lit "aac";
            Re.Seq (Re.Lit "dts")
              (Re.Opt (Re.Seq (Re.Opt (Re.Chr "-")) (Re.Lit "hd")));
            Re.Seq (Re.Lit "dd")
              (Re.Seq (Re.Opt (Re.Chr "p")) (Re.Seq (Re.Opt (Re.Chr "5")) (Re.Lit ".1")));
            Re.Lit "ac3";
            Re.Lit "proper"; Re.Lit "repack"; Re.Lit "extended";
            Re.Lit "remastered"; Re.Lit "unrated";
            Re.Lit "yify"; Re.Lit "yts"; Re.Lit "rarbg" ])
       Re.WordB).

Definition auto_clean_movie_folder_name (item_title filename : string) : string :=
  let raw := Str.or_else (Str.strip item_title) (Str.strip filename) in
  let raw := Path.basename raw in
  let raw := fst (Path.splitext raw) in
  let raw := Re.sub false (Re.Set_ (in_chars "[](){}")) " " raw in
  let raw := Re.sub false (Re.Plus (in_chars "._")) " " raw in
  let raw := Str.strip (Re.sub false (Re.Plus Char.isspace) " " raw) in
  let year_match := Re.search false year_rx raw in
  let year := match year_match with Some m => Re.group m 1 | None => EmptyString end in
  let title_part :=
    match year_match with
    | Some m => Str.take (Re.m_start m) raw
    | None => raw
    end in
  let title_part := Re.sub true scene_rx " " title_part in
  let title_part :=
    Str.strip_set (in_chars " -._") (Re.sub false (Re.Plus Char.isspace) " " title_part) in
  let cleaned_title := sanitize_folder (Str.or_else title_part raw) in
  if Str.is_empty year then cleaned_title
  else sanitize_folder (cleaned_title +:+ " (" +:+ year +:+ ")").

Definition build_query (user_text media_filter : string) (title_only : bool) : string :=
  let s := Str.strip user_text in
  if Str.is_empty s then EmptyString
  else
    let up := Str.upper s in
    let looks_advanced :=
      Str.contains "mediatype:" s
      || Str.contains "title:" s
      || Str.contains "collection:" s
      || Str.contains "identifier:" s
      || Str.contains "licenseurl:" s
      || Str.contains "rights:" s
      || Str.contains " AND " up
      || Str.contains " OR " up in
    if looks_advanced then s
    else
      let base := s in
      let base :=
        if title_only
        then "title:(" +:+ String dquote s +:+ String dquote ")"
        else base in
      if negb (Str.is_empty media_filter) && negb (String.eqb media_filter "any")
      then base +:+ " AND mediatype:" +:+ media_filter
      else base.

(** ** License gate *)

(** The bag under the key "metadata" of an item's metadata, for the fields
    whose values are text; [field m k] is [str(m.get(k, "") or "")]. *)
Definition field (m : gmap string string) (k : string) : string :=
  default EmptyString (m !! k).

Definition allow_markers : list string :=
  [ "creativecommons.org"; "cc-by"; "cc0"; "public domain"; "publicdomain";
    "no known copyright" ].

Definition deny_markers : list string :=
  [ "all rights reserved"; "copyright"; "no redistribution"; "permission required" ].

(** [" | ".join([p for p in possible if p])] *)
Definition joined_rights (m : gmap string string) : string :=
  let licenseurl := Str.lower (field m "licenseurl") in
  let rights := Str.lower (field m "rights") in
  let possible := [licenseurl; rights] in
  Str.join " | " (List.filter (λ p, negb (Str.is_empty p)) possible).

(** The first marker of the list that occurs in the text: the loop
    [for d in markers: if d in joined: return ...]. *)
Fixpoint first_marker (markers : list string) (joined : string) : option string :=
  match markers with
  | [] => None
  | d :: rest => if Str.contains d joined then Some d else first_marker rest joined
  end.

Definition is_openly_licensed (m : gmap string string) : bool * string :=
  let joined := joined_rights m in
  match first_marker deny_markers joined with
  | Some d => (false, "Blocked by rights metadata: " +:+ d)
  | None =>
      match first_marker allow_markers joined with
      | Some _ => (true, "Open license detected")
      | None => (false, "No clear open license in metadata (licenseurl/rights).")
      end
  end.

(** ** Favorites store *)

(** An entry of the list of favorite items and of favorite files: the
    dictionaries the toggles insert.  An entry read from the favorites file
    is taken to carry text under these keys (a missing key reads as empty). *)
Record FavItem := mkFavItem {
  fi_identifier : string;
  fi_title : string;
  fi_year : string;
  fi_creator : string
}.

Record FavFile := mkFavFile {
  ff_identifier : string;
  ff_item_title : string;
  ff_year : string;
  ff_creator : string;
  ff_filename : string;
  ff_size : Z;
  ff_fmt : string
}.

Record Favs := mkFavs {
  fav_items : list FavItem;
  fav_files : list FavFile;
  fav_folders : gmap string (list string)
}.

Definition empty_favs : Favs :=
  mkFavs [] [] (<["TV" := []]> (<["Movies" := []]> (<["Other" := []]> ∅))).

(** ** The file system: staging area and library *)

Inductive node :=
| File (data : string)
| Dir.

(** What the child process has put on disk since the previous poll, and its
    exit status at this poll ([None] while it runs). *)
Record tick := mkTick {
  tk_writes : list (string * string);
  tk_rc : option Z
}.

Record App := mkApp {
  status : string;
  mode : string;
  query_text : string;
  query_built : string;
  media_filter : string;
  title_only : bool;
  page : Z;
  results : list SearchResult;
  sel_r : Z;
  files : list IAFile;
  last_bucket : string;
  focus : string;
  menu_idx : Z;
  favs : Favs;
  dl_current_name : string;
  dl_current_written : Z;
  dl_current_total : Z;
  dl_cancel_requested : bool
}.

Definition set_status (v : string) (a : App) : App :=
  mkApp v (mode a) (query_text a) (query_built a) (media_filter a) (title_only
    a) (page a) (results a) (sel_r a) (files a) (last_bucket a) (focus a)
    (menu_idx a) (favs a) (dl_current_name a) (dl_current_written a)
    (dl_current_total a) (dl_cancel_requested a).

Definition set_mode (v : string) (a : App) : App :=
  mkApp (status a) v (query_text a) (query_built a) (media_filter a)
    (title_only a) (page a) (results a) (sel_r a) (files a) (last_bucket a)
    (focus a) (menu_idx a) (favs a) (dl_current_name a) (dl_current_written a)
    (dl_current_total a) (dl_cancel_requested a).

Definition set_query_built (v : string) (a : App) : App :=
  mkApp (status a) (mode a) (query_text a) v (media_filter a) (title_only a)
    (page a) (results a) (sel_r a) (files a) (last_bucket a) (focus a)
    (menu_idx a) (favs a) (dl_current_name a) (dl_current_written a)
    (dl_current_total a) (dl_cancel_requested a).

Definition set_page (v : Z) (a : App) : App :=
  mkApp (status a) (mode a) (query_text a) (query_built a) (media_filter a)
    (title_only a) v (results a) (sel_r a) (files a) (last_bucket a) (focus a)
    (menu_idx a) (favs a) (dl_current_name a) (dl_current_written a)
    (dl_current_total a) (dl_cancel_requested a).

Definition set_results (v : list SearchResult) (a : App) : App :=
  mkApp (status a) (mode a) (query_text a) (query_built a) (media_filter a)
    (title_only a) (page a) v (sel_r a) (files a) (last_bucket a) (focus a)
    (menu_idx a) (favs a) (dl_current_name a) (dl_current_written a)
    (dl_current_total a) (dl_cancel_requested a).

Definition set_sel_r (v : Z) (a : App) : App :=
  mkApp (status a) (mode a) (query_text a) (query_built a) (media_filter a)
    (title_only a) (page a) (results a) v (files a) (last_bucket a) (focus a)
    (menu_idx a) (favs a) (dl_current_name a) (dl_current_written a)
    (dl_current_total a) (dl_cancel_requested a).

Definition set_focus (v : string) (a : App) : App :=
  mkApp (status a) (mode a) (query_text a) (query_built a) (media_filter a)
    (title_only a) (page a) (results a) (sel_r a) (files a) (last_bucket a) v
    (menu_idx a) (favs a) (dl_current_name a) (dl_current_written a)
    (dl_current_total a) (dl_cancel_requested a).

Definition set_menu_idx (v : Z) (a : App) : App :=
  mkApp (status a) (mode a) (query_text a) (query_built a) (media_filter a)
    (title_only a) (page a) (results a) (sel_r a) (files a) (last_bucket a)
    (focus a) v (favs a) (dl_current_name a) (dl_current_written a)
    (dl_current_total a) (dl_cancel_requested a).

Definition set_favs (v : Favs) (a : App) : App :=
  mkApp (status a) (mode a) (query_text a) (query_built a) (media_filter a)
    (title_only a) (page a) (results a) (sel_r a) (files a) (last_bucket a)
    (focus a) (menu_idx a) v (dl_current_name a) (dl_current_written a)
    (dl_current_total a) (dl_cancel_requested a).

Definition set_dl_current_name (v : string) (a : App) : App :=
  mkApp (status a) (mode a) (query_text a) (query_built a) (media_filter a)
    (title_only a) (page a) (results a) (sel_r a) (files a) (last_bucket a)
    (focus a) (menu_idx a) (favs a) v (dl_current_written a) (dl_current_total
    a) (dl_cancel_requested a).

Definition set_dl_current_written (v : Z) (a : App) : App :=
  mkApp (status a) (mode a) (query_text a) (query_built a) (media_filter a)
    (title_only a) (page a) (results a) (sel_r a) (files a) (last_bucket a)
    (focus a) (menu_idx a) (favs a) (dl_current_name a) v (dl_current_total a)
    (dl_cancel_requested a).

Definition set_dl_current_total (v : Z) (a : App) : App :=
  mkApp (status a) (mode a) (query_text a) (query_built a) (media_filter a)
    (title_only a) (page a) (results a) (sel_r a) (files a) (last_bucket a)
    (focus a) (menu_idx a) (favs a) (dl_current_name a) (dl_current_written a)
    v (dl_cancel_requested a).

Definition set_dl_cancel_requested (v : bool) (a : App) : App :=
  mkApp (status a) (mode a) (query_text a) (query_built a) (media_filter a)
    (title_only a) (page a) (results a) (sel_r a) (files a) (last_bucket a)
    (focus a) (menu_idx a) (favs a) (dl_current_name a) (dl_current_written a)
    (dl_current_total a) v.

(** ** The outside world

    [keys] are the results of the coming [getch] calls ([-1]: no key was
    pressed); [clock_stamp] is what [time.strftime("%Y%m%d_%H%M%S")] gives;
    [archive] answers [ia_search_via_curl]; [spawn_error] is the exception
    text of [subprocess.Popen], if it raises; [child_ticks] is what each
    coming [p.poll()] observes of the download child; [favs_disk] is the
    favorites file as last written and [disk_ok] tells whether writing it
    succeeds. *)

Record World := mkWorld {
  fs : gmap string node;
  keys : list Z;
  term_h : Z;
  term_w : Z;
  clock_stamp : string;
  archive : string → Z → Z → list SearchResult * string;
  spawn_error : option string;
  child_ticks : list tick;
  child_out : string;
  child_err : string;
  favs_disk : option Favs;
  disk_ok : bool
}.

Definition set_fs (v : gmap string node) (w : World) : World :=
  mkWorld v (keys w) (term_h w) (term_w w) (clock_stamp w) (archive w)
    (spawn_error w) (child_ticks w) (child_out w) (child_err w) (favs_disk w)
    (disk_ok w).

Definition set_keys (v : list Z) (w : World) : World :=
  mkWorld (fs w) v (term_h w) (term_w w) (clock_stamp w) (archive w)
    (spawn_error w) (child_ticks w) (child_out w) (child_err w) (favs_disk w)
    (disk_ok w).

Definition set_child_ticks (v : list tick) (w : World) : World :=
  mkWorld (fs w) (keys w) (term_h w) (term_w w) (clock_stamp w) (archive w)
    (spawn_error w) v (child_out w) (child_err w) (favs_disk w) (disk_ok w).

Definition set_favs_disk (v : option Favs) (w : World) : World :=
  mkWorld (fs w) (keys w) (term_h w) (term_w w) (clock_stamp w) (archive w)
    (spawn_error w) (child_ticks w) (child_out w) (child_err w) v (disk_ok w).

(** ** Methods as state transformers

    A method of the application object takes the object and the world and
    either returns a value with the new object and world, raises, or waits
    for input (a key press, the exit of the child) that the world does not
    hold. *)

Inductive outcome (A : Type) : Type :=
| Ret (a : A) (st : App) (w : World)
| Raise (e : string)
| Pending.

Arguments Ret {A} a st w.
Arguments Raise {A} e.
Arguments Pending {A}.

Definition M (A : Type) : Type := App → World → outcome A.

Definition ret {A} (a : A) : M A := λ st w, Ret a st w.

Definition bind {A B} (m : M A) (k : A → M B) : M B :=
  λ st w,
    match m st w with
    | Ret a st' w' => k a st' w'
    | Raise e => Raise e
    | Pending => Pending
    end.

Declare Scope method_scope.
Delimit Scope method_scope with method.
Notation "x <- m ;; k" := (bind m (λ x, k))
  (at level 100, m at next level, right associativity) : method_scope.
Notation "m ;; k" := (bind m (λ _, k))
  (at level 100, right associativity) : method_scope.
Local Open Scope method_scope.

Definition self : M App := λ st w, Ret st st w.
Definition world : M World := λ st w, Ret w st w.
Definition update (f : App → App) : M unit := λ st w, Ret tt (f st) w.
Definition update_world (f : World → World) : M unit := λ st w, Ret tt st (f w).
Definition raise {A} (e : string) : M A := λ _ _, Raise e.
Definition pending {A} : M A := λ _ _, Pending.

(** What a method returned, if it did. *)
Definition returned {A} (o : outcome A) : option A :=
  match o with Ret a _ _ => Some a | _ => None end.

Definition final_app {A} (o : outcome A) : option App :=
  match o with Ret _ st _ => Some st | _ => None end.

Definition final_world {A} (o : outcome A) : option World :=
  match o with Ret _ _ w => Some w | _ => None end.

(** ** Terminal *)

Definition KEY_DOWN : Z := 258.
Definition KEY_UP : Z := 259.
Definition KEY_BACKSPACE : Z := 263.
Definition KEY_ENTER : Z := 343.

(** [stdscr.getch()] when a key is awaited. *)
Definition getch : M Z :=
  λ st w,
    match keys w with
    | [] => Pending
    | k :: ks => Ret k st (set_keys ks w)
    end.

(** [stdscr.getch()] in no-delay mode: [-1] when no key is there. *)
Definition getch_nodelay : M Z :=
  λ st w,
    match keys w with
    | [] => Ret (-1) st w
    | k :: ks => Ret k st (set_keys ks w)
    end.

Definition term_too_small (w : World) : bool :=
  (term_h w <? MIN_H) || (term_w w <? MIN_W).

(** [render] draws the screen; of the object it only changes the mode, when
    the terminal is too small. *)
Definition render : M unit :=
  w <- world ;;
  if term_too_small w then update (set_mode "TOO_SMALL") else ret tt.

Definition chr (k : Z) : ascii := ascii_of_N (Z.to_N k).

(** [buf[:-1]] *)
Fixpoint drop_last (s : string) : string :=
  match s with
  | EmptyString => EmptyString
  | String _ EmptyString => EmptyString
  | String c s' => String c (drop_last s')
  end.

(** The editing loop of [prompt], over the keys that are there. *)
Fixpoint prompt_loop (buf : string) (ks : list Z) : option (option string * list Z) :=
  match ks with
  | [] => None
  | ch :: ks' =>
      if (ch =? 10) || (ch =? 13) then Some (Some (Str.strip buf), ks')
      else if ch =? 27 then Some (None, ks')
      else if (ch =? KEY_BACKSPACE) || (ch =? 127) || (ch =? 8)
      then prompt_loop (drop_last buf) ks'
      else if (0 <=? ch) && (ch <=? 255) && Char.isprintable (chr ch)
      then prompt_loop (buf +:+ String (chr ch) EmptyString) ks'
      else prompt_loop buf ks'
  end.

Definition prompt (label default : string) : M (option string) :=
  λ st w,
    if (term_h w <? 6) || (term_w w <? 10) then Ret None st w
    else
      match prompt_loop default (keys w) with
      | None => Pending
      | Some (r, ks) => Ret r st (set_keys ks w)
      end.

(** The selection loop of [prompt_list]. *)
Fixpoint prompt_list_loop (options : list string) (idx : Z) (ks : list Z)
    : option (option string * list Z) :=
  match ks with
  | [] => None
  | ch :: ks' =>
      if ch =? 27 then Some (None, ks')
      else if (ch =? 10) || (ch =? 13) || (ch =? KEY_ENTER)
      then Some (options !! Z.to_nat idx, ks')
      else
        let idx := if ch =? KEY_UP then Z.max 0 (idx - 1) else idx in
        let idx :=
          if ch =? KEY_DOWN
          then Z.min (Z.of_nat (length options) - 1) (idx + 1) else idx in
        prompt_list_loop options idx ks'
  end.

Definition prompt_list (title : string) (options : list string) : M (option string) :=
  λ st w,
    match options with
    | [] => Ret None st w
    | _ =>
        match prompt_list_loop options 0 (keys w) with
        | None => Pending
        | Some (r, ks) => Ret r st (set_keys ks w)
        end
    end.

(** ** Search and pagination *)

Definition do_search (reset_page : bool) : M unit :=
  (if reset_page then update (set_page 1) else ret tt) ;;
  st <- self ;;
  update (set_query_built
            (build_query (query_text st) (media_filter st) (title_only st))) ;;
  st <- self ;;
  if Str.is_empty (query_built st) then
    update (set_status "Select [Search] in the menu to search.")
  else
    update (set_status "Searching...") ;;
    render ;;
    st <- self ;;
    w <- world ;;
    let '(found, err) := archive w (query_built st) ROWS_PER_PAGE (page st) in
    update (set_results found) ;;
    if negb (Str.is_empty err) then update (set_status err)
    else
      update (set_sel_r 0) ;;
      update (set_mode "RESULTS") ;;
      update (set_focus "LIST") ;;
      update (set_status
                ("Found " +:+ Num.of_N (N.of_nat (length found))
                 +:+ " results. Use arrows, then [Open].")).

Definition is_nil {A} (l : list A) : bool :=
  match l with [] => true | _ => false end.

Definition next_page : M unit :=
  st <- self ;;
  if Str.is_empty (query_text st) then
    update (set_status "No search yet. Choose [Search].")
  else
    let saved_focus := focus st in
    let saved_menu_idx := menu_idx st in
    let saved_page := page st in
    update (set_page (page st + 1)) ;;
    do_search false ;;
    st' <- self ;;
    (if is_nil (results st') then
       update (set_page saved_page) ;;
       update (set_status "No more results (rolled back to previous page).")
     else ret tt) ;;
    update (set_focus saved_focus) ;;
    update (set_menu_idx saved_menu_idx).

Definition prev_page : M unit :=
  st <- self ;;
  if Str.is_empty (query_text st) then
    update (set_status "No search yet. Choose [Search].")
  else if page st <=? 1 then
    update (set_status "Already on first page.")
  else
    let saved_focus := focus st in
    let saved_menu_idx := menu_idx st in
    let saved_page := page st in
    update (set_page (page st - 1)) ;;
    do_search false ;;
    st' <- self ;;
    (if is_nil (results st') then
       update (set_page saved_page) ;;
       update (set_status "No results on that page (rolled back).")
     else ret tt) ;;
    update (set_focus saved_focus) ;;
    update (set_menu_idx saved_menu_idx).

(** ** Favorites *)

(** [save_favs]: the whole store is written to a temporary file that then
    replaces the favorites file; a failure is swallowed. *)
Definition save_favs : M unit :=
  st <- self ;;
  w <- world ;;
  if disk_ok w then update_world (set_favs_disk (Some (favs st))) else ret tt.

Definition set_fav_items (v : list FavItem) (f : Favs) : Favs :=
  mkFavs v (fav_files f) (fav_folders f).

Definition set_fav_files (v : list FavFile) (f : Favs) : Favs :=
  mkFavs (fav_items f) v (fav_folders f).

Definition set_fav_folders (v : gmap string (list string)) (f : Favs) : Favs :=
  mkFavs (fav_items f) (fav_files f) v.

Definition is_fav_item (st : App) (identifier : string) : bool :=
  let ident := Str.strip identifier in
  existsb (λ it, String.eqb (Str.strip (fi_identifier it)) ident)
    (fav_items (favs st)).

Definition toggle_fav_item (r : SearchResult) : M unit :=
  let ident := Str.strip (identifier r) in
  if Str.is_empty ident then ret tt
  else
    st <- self ;;
    let items := fav_items (favs st) in
    (if is_fav_item st ident then
       update (set_favs
                 (set_fav_items
                    (List.filter
                       (λ it, negb (String.eqb (Str.strip (fi_identifier it)) ident))
                       items)
                    (favs st))) ;;
       update (set_status "Removed favorite item.")
     else
       update (set_favs
                 (set_fav_items
                    (mkFavItem (identifier r) (title r) (year r) (creator r) :: items)
                    (favs st))) ;;
       update (set_status "Added favorite item.")) ;;
    save_favs.

Definition file_fav_key (identifier filename : string) : string :=
  Str.strip identifier +:+ "::" +:+ Str.strip filename.

Definition is_fav_file (st : App) (identifier filename : string) : bool :=
  let key := file_fav_key identifier filename in
  existsb (λ it, String.eqb (file_fav_key (ff_identifier it) (ff_filename it)) key)
    (fav_files (favs st)).

Definition toggle_fav_file (item : SearchResult) (f : IAFile) : M unit :=
  let ident := Str.strip (identifier item) in
  let fname := Str.strip (name f) in
  if Str.is_empty ident || Str.is_empty fname then ret tt
  else
    st <- self ;;
    let files := fav_files (favs st) in
    (if is_fav_file st ident fname then
       update (set_favs
                 (set_fav_files
                    (List.filter
                       (λ it, negb (String.eqb
                                      (file_fav_key (ff_identifier it) (ff_filename it))
                                      (file_fav_key ident fname)))
                       files)
                    (favs st))) ;;
       update (set_status "Removed favorite file.")
     else
       update (set_favs
                 (set_fav_files
                    (mkFavFile (identifier item) (title item) (year item)
                       (creator item) (name f) (size f) (fmt f) :: files)
                    (favs st))) ;;
       update (set_status "Added favorite file.")) ;;
    save_favs.

Definition normalize_bucket (bucket : string) : string :=
  if bool_decide (bucket ∈ ["TV"; "Movies"; "Other"]) then bucket else "Other".

Definition add_folder_fav (bucket folder_name : string) : M unit :=
  let bucket := normalize_bucket bucket in
  let name := sanitize_folder folder_name in
  st <- self ;;
  let arr := default [] (fav_folders (favs st) !! bucket) in
  let lowered := List.map (λ x, Str.lower (Str.strip x)) arr in
  if negb (bool_decide (Str.lower (Str.strip name) ∈ lowered)) then
    update (set_favs
              (set_fav_folders
                 (<[bucket := take 30 (name :: arr)]> (fav_folders (favs st)))
                 (favs st))) ;;
    save_favs
  else ret tt.

(** The folder names offered by the favorites picker. *)
Definition folder_options (st : App) (bucket : string) : list string :=
  List.filter (λ x, negb (Str.is_empty (Str.strip x)))
    (default [] (fav_folders (favs st) !! bucket)).

Definition pick_folder_fav_if_requested (bucket : string) : M (option string) :=
  st <- self ;;
  if is_nil (default [] (fav_folders (favs st) !! bucket)) then ret None
  else prompt_list (bucket +:+ " favorites") (folder_options st bucket).

(** ** File system operations

    The disk is a map from paths to nodes, and a path is the key as it is
    written.  This is the file system for paths in normal form; a path with
    a [.] or [..] component names, on a real disk, the entry at its normal
    form ([normpath] below), which the map keeps under the written key. *)

Module FS.

Definition exists_ (fs : gmap string node) (p : string) : bool :=
  match fs !! p with Some _ => true | None => false end.

Definition isdir (fs : gmap string node) (p : string) : bool :=
  match fs !! p with Some Dir => true | _ => false end.

(** [os.path.getsize] inside [safe_getsize]: the length of a file; the
    size reported for a directory is left to the file system and is not
    modelled (0 here, as for a missing path). *)
Definition getsize (fs : gmap string node) (p : string) : Z :=
  match fs !! p with
  | Some (File d) => Str.len d
  | _ => 0
  end.

(** The path itself and the directories above it, outermost first. *)
Fixpoint chain (pre s : string) : list string :=
  match s with
  | EmptyString => [pre]
  | String c s' =>
      (if Char.eqb c "/" && negb (Str.is_empty pre) then [pre] else [])
      ++ chain (pre +:+ String c EmptyString) s'
  end.

Fixpoint mkdir_all (fs : gmap string node) (ps : list string)
    : option (gmap string node) :=
  match ps with
  | [] => Some fs
  | p :: ps' =>
      match fs !! p with
      | Some (File _) => None
      | Some Dir => mkdir_all fs ps'
      | None => mkdir_all (<[p := Dir]> fs) ps'
      end
  end.

(** [os.makedirs(d, exist_ok=True)]; [None] stands for [OSError]. *)
Definition makedirs (fs : gmap string node) (d : string) : option (gmap string node) :=
  mkdir_all fs (chain EmptyString d).

Definition under (root p : string) : bool := Str.startswith (root +:+ "/") p.

Definition parent_ok (fs : gmap string node) (p : string) : bool :=
  let d := Path.dirname p in
  Str.is_empty d || String.eqb d "/" || isdir fs d.

(** Renaming a directory takes everything below it along. *)
Definition rename_tree (fs : gmap string node) (src dst : string) : gmap string node :=
  list_to_map
    (List.map
       (λ '(p, n),
          if String.eqb p src || under src p
          then (dst +:+ Str.drop (String.length src) p, n)
          else (p, n))
       (map_to_list fs)).

(** [shutil.move(src, dst)]; [None] stands for an exception. *)
Definition move (fs : gmap string node) (src dst : string) : option (gmap string node) :=
  match fs !! src with
  | None => None
  | Some n =>
      let real_dst := if isdir fs dst then Path.join dst (Path.basename src) else dst in
      if isdir fs dst && exists_ fs real_dst then None
      else if negb (parent_ok fs real_dst) then None
      else
        match n with
        | File _ => Some (<[real_dst := n]> (delete src fs))
        | Dir => if exists_ fs real_dst then None
                 else Some (rename_tree fs src real_dst)
        end
  end.

(** [dir_total_size(root)]: the sizes of the files below [root]. *)
Definition dir_total_size (fs : gmap string node) (root : string) : Z :=
  map_fold (λ p n acc, if under root p then acc + getsize fs p else acc) 0 fs.

(** The child process writes files (creating the directories above). *)
Fixpoint write_all (fs : gmap string node) (ws : list (string * string))
    : gmap string node :=
  match ws with
  | [] => fs
  | (p, d) :: ws' =>
      let fs1 := default fs (makedirs fs (Path.dirname p)) in
      write_all (<[p := File d]> fs1) ws'
  end.

End FS.

Definition staging_file_path (identifier filename : string) : string :=
  Path.join3 STAGING_ROOT identifier filename.

Definition staging_identifier_dir (identifier : string) : string :=
  Path.join STAGING_ROOT identifier.

Definition safe_getsize (w : World) (path : string) : Z := FS.getsize (fs w) path.

(** [os.makedirs] as a step of a method. *)
Definition makedirs (d : string) : M unit :=
  w <- world ;;
  match FS.makedirs (fs w) d with
  | Some fs' => update_world (set_fs fs')
  | None => raise ("OSError: " +:+ d)
  end.

(** ** Naming and bucket classifier, import *)

(** The pattern [\((19|20)\d{2}\)]. *)
Definition year_paren_rx : Re.regex :=
  Re.Seq (Re.Chr "(")
    (Re.Seq (Re.Group 1 (Re.Alt (Re.Lit "19") (Re.Lit "20")))
       (Re.Seq (Re.Rep (Re.Set_ Char.isdigit) 2 2) (Re.Chr ")"))).

(** The pattern [(19|20)\d{2}]. *)
Definition year_plain_rx : Re.regex :=
  Re.Seq (Re.Group 1 (Re.Alt (Re.Lit "19") (Re.Lit "20")))
    (Re.Rep (Re.Set_ Char.isdigit) 2 2).

Definition found {A} (o : option A) : bool :=
  match o with Some _ => true | None => false end.

Definition has_year_hint (s : string) : bool :=
  if Str.is_empty s then false
  else found (Re.search false year_paren_rx s) || found (Re.search false year_plain_rx s).

Definition is_single_large_video (st : App) (name_ : string) : bool :=
  let video_files := List.filter (λ f, is_video_file (name f) (fmt f)) (files st) in
  let large_video_files := List.filter (λ f, LARGE_VIDEO_BYTES <=? size f) video_files in
  match large_video_files with
  | [f] => String.eqb (name f) name_
  | _ => false
  end.

(** [detect_sxxeyy(filename) or detect_sxxeyy(item_title)] *)
Definition detect_ep (filename item_title : string) : option (Z * Z) :=
  match detect_sxxeyy filename with
  | Some e => Some e
  | None => detect_sxxeyy item_title
  end.

(** The bucket decision of [choose_bucket_and_path]. *)
Definition choose_bucket (st : App) (filename item_title : string) : string :=
  let ep := detect_ep filename item_title in
  let bucket := normalize_bucket (last_bucket st) in
  if found ep then "TV"
  else if has_year_hint filename || has_year_hint item_title
          || is_single_large_video st filename
  then "Movies"
  else bucket.

(** [pick if pick else default] *)
Definition pick_or (pick : option string) (default : string) : string :=
  match pick with
  | Some p => Str.or_else p default
  | None => default
  end.

(** The folder name of a branch: prompt with a default, let a star open the
    favorites picker, sanitize and remember the name.  [None]: the prompt
    was left with Esc.  The three branches of [choose_bucket_and_path] do
    this with their own bucket, label and default.  (A label is only drawn;
    the quotes it puts around the star are left out here.) *)
Definition ask_folder (bucket label default : string) : M (option string) :=
  answer <- prompt label default ;;
  match answer with
  | None => ret None
  | Some folder =>
      folder <- (if String.eqb (Str.strip folder) "*"
                 then (pick <- pick_folder_fav_if_requested bucket ;;
                       ret (pick_or pick default))
                 else ret folder) ;;
      let folder := sanitize_folder folder in
      add_folder_fav bucket folder ;;
      ret (Some folder)
  end.

(** A branch yields the directory it made and the destination path, or the
    message it returns at once. *)
Definition placed : Type := (string * string) + string.

Definition left_in_staging (staging_path : string) : string :=
  "Left in staging: " +:+ staging_path.

Definition place_tv (ep : option (Z * Z)) (staging_path filename item_title : string)
    : M placed :=
  let show_default := sanitize_folder item_title in
  show <- ask_folder "TV" "Show name (Enter default, or type * for favorites): "
            show_default ;;
  match show with
  | None => ret (inr (left_in_staging staging_path))
  | Some show =>
      let finish (season : Z) (episode_override : option Z) : M placed :=
        let season_dir :=
          Path.join3 BUCKET_TV show ("Season " +:+ Num.fmt_02d season) in
        makedirs season_dir ;;
        let new_name :=
          if found ep || found episode_override then
            let ext := Str.or_else (snd (Path.splitext filename)) ".mp4" in
            let ep_num :=
              match ep with
              | Some e => snd e
              | None => default 1 episode_override
              end in
            show +:+ " - S" +:+ Num.fmt_02d season +:+ "E" +:+ Num.fmt_02d ep_num +:+ ext
          else filename in
        ret (inl (season_dir, Path.join season_dir new_name)) in
      match ep with
      | Some (season, _) => finish season None
      | None =>
          s <- prompt "Season number (01..): " "01" ;;
          match s with
          | None => ret (inr (left_in_staging staging_path))
          | Some s =>
              let season := default 1 (Num.py_int s) in
              e <- prompt "Episode number (01.., blank = keep name): " EmptyString ;;
              match e with
              | None => ret (inr (left_in_staging staging_path))
              | Some e =>
                  let episode_override :=
                    if Str.is_empty (Str.strip e) then None else Num.py_int e in
                  finish season episode_override
              end
          end
      end
  end.

Definition place_movies (staging_path filename item_title : string) : M placed :=
  let title_default := auto_clean_movie_folder_name item_title filename in
  movie <- ask_folder "Movies" "Movie folder (Enter default, or type * for favorites): "
             title_default ;;
  match movie with
  | None => ret (inr (left_in_staging staging_path))
  | Some movie =>
      let movie_dir := Path.join BUCKET_MOVIES movie in
      makedirs movie_dir ;;
      ret (inl (movie_dir, Path.join movie_dir filename))
  end.

Definition place_other (staging_path filename : string) : M placed :=
  sub <- ask_folder "Other" "Other subfolder (Enter Misc, or type * for favorites): "
           "Misc" ;;
  match sub with
  | None => ret (inr (left_in_staging staging_path))
  | Some sub =>
      let other_dir := Path.join BUCKET_OTHER sub in
      makedirs other_dir ;;
      ret (inl (other_dir, Path.join other_dir filename))
  end.

(** The directory and destination path chosen for a staged file. *)
Definition place (identifier filename item_title : string) : M placed :=
  let staging_path := staging_file_path identifier filename in
  st <- self ;;
  let ep := detect_ep filename item_title in
  let bucket := choose_bucket st filename item_title in
  if String.eqb bucket "TV" then place_tv ep staging_path filename item_title
  else if String.eqb bucket "Movies" then place_movies staging_path filename item_title
  else place_other staging_path filename.

(** A destination that exists is not used: a time stamp goes in front of
    the extension. *)
Definition avoid_collision (final_path : string) : M string :=
  w <- world ;;
  if FS.exists_ (fs w) final_path then
    let '(base, ext) := Path.splitext final_path in
    ret (base +:+ "_" +:+ clock_stamp w +:+ ext)
  else ret final_path.

(** [shutil.move] as a step of a method. *)
Definition move (src dst : string) : M unit :=
  w <- world ;;
  match FS.move (fs w) src dst with
  | Some fs' => update_world (set_fs fs')
  | None => raise ("shutil.Error: " +:+ dst)
  end.

(** The end of [choose_bucket_and_path]: the move into the library. *)
Definition finish_import (staging_path final_path : string) : M string :=
  final_path <- avoid_collision final_path ;;
  move staging_path final_path ;;
  ret ("Saved: " +:+ final_path).

Definition choose_bucket_and_path (identifier filename item_title : string) : M string :=
  let staging_path := staging_file_path identifier filename in
  w <- world ;;
  if negb (FS.exists_ (fs w) staging_path) then
    ret ("Downloaded, but staging file not found: " +:+ staging_path)
  else
    p <- place identifier filename item_title ;;
    match p with
    | inr msg => ret msg
    | inl (_, final_path) => finish_import staging_path final_path
    end.

(** ** Download orchestrator *)

(** Rounding to the nearest integer, ties to even, of [a / b] for [b > 0]. *)
Definition round_half_even (a b : Z) : Z :=
  let q := a / b in
  let r := a mod b in
  if (b <? 2 * r) || ((2 * r =? b) && Z.odd q) then q + 1 else q.

(** [float(n)]: the integer value of the nearest double, ties to even; it
    is [n] itself below 2^53.  From 2^1024 - 2^970 on Python raises
    OverflowError instead, which this total function does not show: the
    properties that depend on the text keep the sizes below 2^1023. *)
Definition to_float (n : Z) : Z :=
  let a := Z.abs n in
  if a <? 2 ^ 53 then n
  else
    let shift := Z.log2 a - 52 in
    Z.sgn n * (round_half_even a (2 ^ shift) * 2 ^ shift).

(** [human_size]: the divisions by 1024.0 are exact, so [f] is the float of
    the size over a power of 1024, and the two decimals printed are that
    quotient rounded correctly (ties to even). *)
Definition human_size (n : Z) : string :=
  let unit_of (i : nat) : string :=
    match i with
    | 0%nat => "B" | 1%nat => "KB" | 2%nat => "MB" | 3%nat => "GB" | _ => "TB"
    end in
  let f := to_float n in
  let fix scale (fuel i : nat) (d : Z) : nat * Z :=
    match fuel with
    | O => (i, d)
    | S fuel' => if 1024 * d <=? f then scale fuel' (S i) (1024 * d) else (i, d)
    end in
  let '(i, d) := scale 4%nat 0%nat 1 in
  match i with
  | O => Num.of_Z f +:+ "B"
  | _ =>
      let h := round_half_even (100 * f) d in
      let cents := h mod 100 in
      Num.of_Z (h / 100) +:+ "." +:+ Num.fmt_02d cents +:+ unit_of i
  end.

Definition _verify_expected_size (w : World) (identifier filename : string)
    (expected_size : Z) : bool * string :=
  if expected_size <=? 0 then (true, EmptyString)
  else
    let p := staging_file_path identifier filename in
    let actual := safe_getsize w p in
    if negb (actual =? expected_size) then
      (false, "Size mismatch for " +:+ filename +:+ ": got " +:+ human_size actual
              +:+ " expected " +:+ human_size expected_size)
    else (true, EmptyString).

(** [p.poll()]: the next observation of the child; what it wrote since the
    last one is on disk by then. *)
Definition poll : M (option Z) :=
  λ st w,
    match child_ticks w with
    | [] => Pending
    | t :: ts =>
        Ret (tk_rc t) st (set_child_ticks ts (set_fs (FS.write_all (fs w) (tk_writes t)) w))
    end.

Definition is_cancel_key (ch : Z) : bool := (ch =? 99) || (ch =? 67).

(** What both loops do once the child has exited, up to the checks that
    follow a clean exit. *)
Definition child_exit_result (st : App) (w : World) (rc : Z) : option (bool * string) :=
  if dl_cancel_requested st then Some (false, "Canceled.")
  else if negb (rc =? 0) then
    let msg := Str.strip (Str.or_else (child_err w) (child_out w)) in
    Some (false, Str.or_else msg ("download failed (code " +:+ Num.of_Z rc +:+ ")"))
  else None.

(** One round of the polling loop of [_download_one_with_progress];
    [None]: the child still runs.  The speed and the time left, which the
    loop computes from the clock in floating point, only feed the status
    line and are left out, as is that line. *)
Definition one_round (identifier filename : string) (expected_size : Z)
    : M (option (bool * string)) :=
  rc <- poll ;;
  let path := staging_file_path identifier filename in
  w <- world ;;
  let written := safe_getsize w path in
  update (set_dl_current_written written) ;;
  ch <- getch_nodelay ;;
  (if is_cancel_key ch then update (set_dl_cancel_requested true) else ret tt) ;;
  render ;;
  match rc with
  | None => ret None
  | Some rc =>
      st <- self ;;
      w <- world ;;
      match child_exit_result st w rc with
      | Some r => ret (Some r)
      | None =>
          let '(ok_sz, msg_sz) := _verify_expected_size w identifier filename expected_size in
          if negb ok_sz then ret (Some (false, msg_sz))
          else ret (Some (true, EmptyString))
      end
  end.

(** The [while True] loop, for as many rounds as the child is observed. *)
Fixpoint one_loop (rounds : nat) (identifier filename : string) (expected_size : Z)
    : M (bool * string) :=
  match rounds with
  | O => pending
  | S n =>
      r <- one_round identifier filename expected_size ;;
      match r with
      | Some res => ret res
      | None => one_loop n identifier filename expected_size
      end
  end.

Definition _download_one_with_progress (identifier filename : string)
    (expected_size : Z) : M (bool * string) :=
  makedirs STAGING_ROOT ;;
  w <- world ;;
  match spawn_error w with
  | Some e => ret (false, "download failed: " +:+ e)
  | None =>
      update (set_dl_cancel_requested false) ;;
      update (set_dl_current_name filename) ;;
      update (set_dl_current_total expected_size) ;;
      update (set_dl_current_written 0) ;;
      one_loop (length (child_ticks w)) identifier filename expected_size
  end.

(** One round of the loop of [_download_glob_with_progress]. *)
Definition glob_round (identifier : string) : M (option (bool * string)) :=
  rc <- poll ;;
  let base_dir := staging_identifier_dir identifier in
  w <- world ;;
  let written := FS.dir_total_size (fs w) base_dir in
  update (set_dl_current_written written) ;;
  ch <- getch_nodelay ;;
  (if is_cancel_key ch then update (set_dl_cancel_requested true) else ret tt) ;;
  render ;;
  match rc with
  | None => ret None
  | Some rc =>
      st <- self ;;
      w <- world ;;
      match child_exit_result st w rc with
      | Some r => ret (Some r)
      | None => ret (Some (true, EmptyString))
      end
  end.

Fixpoint glob_loop (rounds : nat) (identifier : string) : M (bool * string) :=
  match rounds with
  | O => pending
  | S n =>
      r <- glob_round identifier ;;
      match r with
      | Some res => ret res
      | None => glob_loop n identifier
      end
  end.

Definition _download_glob_with_progress (identifier glob_pat : string)
    (expected_total : Z) : M (bool * string) :=
  makedirs STAGING_ROOT ;;
  makedirs (staging_identifier_dir identifier) ;;
  w <- world ;;
  match spawn_error w with
  | Some e => ret (false, "download failed: " +:+ e)
  | None =>
      update (set_dl_cancel_requested false) ;;
      update (set_dl_current_name ("--glob " +:+ glob_pat)) ;;
      update (set_dl_current_total expected_total) ;;
      update (set_dl_current_written 0) ;;
      glob_loop (length (child_ticks w)) identifier
  end.

(** ** Notions used to state the properties *)

(** No character of the class occurs in the text. *)
Definition free_of (p : ascii → bool) (s : string) : bool :=
  Str.all (λ c, negb (p c)) s.

(** Every blank is a single space between two other characters.
    [after_space] tells that the character before was a blank (or that the
    text starts here). *)
Fixpoint collapsed_go (after_space : bool) (s : string) : bool :=
  match s with
  | EmptyString => true
  | String c s' =>
      if Char.isspace c
      then Char.eqb c " " && negb after_space && negb (Str.is_empty s')
           && collapsed_go true s'
      else collapsed_go false s'
  end.

Definition ws_collapsed (s : string) : bool := collapsed_go true s.

(** The same without the conditions at the two ends: what replacing the
    runs of blanks by one space gives. *)
Fixpoint single_spaced (after_space : bool) (s : string) : bool :=
  match s with
  | EmptyString => true
  | String c s' =>
      if Char.isspace c
      then Char.eqb c " " && negb after_space && single_spaced true s'
      else single_spaced false s'
  end.

(** Length of the run of class characters at the front. *)
Fixpoint run_length (p : ascii → bool) (s : string) : nat :=
  match s with
  | EmptyString => 0%nat
  | String c s' => if p c then S (run_length p s') else 0%nat
  end.

(** [s.split(c)] *)
Fixpoint split_on (c : ascii) (s : string) : list string :=
  match s with
  | EmptyString => [EmptyString]
  | String x s' =>
      if Char.eqb x c then EmptyString :: split_on c s'
      else match split_on c s' with
           | h :: t => String x h :: t
           | [] => [String x EmptyString]
           end
  end.

(** One round of the loop of [os.path.normpath] over the components of a
    path; [kept] holds the components kept so far, the last one first. *)
Definition norm_step (absolute : bool) (kept : list string) (comp : string) : list string :=
  if Str.is_empty comp || String.eqb comp "." then kept
  else if negb (String.eqb comp "..")
          || (negb absolute && is_nil kept)
          || (match kept with last :: _ => String.eqb last ".." | [] => false end)
  then comp :: kept
  else tl kept.

(** [os.path.normpath] of POSIX: the path without its empty, [.] and [..]
    components.  On a file system without symbolic links this is the entry
    that the path names. *)
Definition normpath (p : string) : string :=
  if Str.is_empty p then "."
  else
    let slashes :=
      if Str.startswith "//" p && negb (Str.startswith "///" p) then "//"
      else if Str.startswith "/" p then "/" else EmptyString in
    let comps :=
      rev (fold_left (norm_step (negb (Str.is_empty slashes))) (split_on "/" p) []) in
    Str.or_else (slashes +:+ Str.join "/" comps) ".".

(** The directory that the path [d] names is an entry of the directory that
    [root] names. *)
Definition is_direct_child (root d : string) : bool :=
  String.eqb (Path.dirname (normpath d)) (normpath root)
  && negb (String.eqb (normpath d) (normpath root)).

(** The disk once the child has made the writes of these polls. *)
Definition disk_after (ticks : list tick) (fs : gmap string node) : gmap string node :=
  fold_left (λ fs t, FS.write_all fs (tk_writes t)) ticks fs.

Definition running (t : tick) : Prop := tk_rc t = None.

(** A cancel key among the first [n] results of [getch]. *)
Definition cancel_pressed (n : nat) (ks : list Z) : bool :=
  existsb is_cancel_key (take n ks).

(** ** Sessions used as concrete inputs *)

(** The object as [__init__] leaves it. *)
Definition fresh_app : App :=
  mkApp "Ready" "RESULTS" "" "" "movies" false 1 [] 0 [] "TV" "MENU" 0
    empty_favs "" 0 0 false.

(** An empty disk, an 80x24 terminal, no key pressed, an archive that finds
    nothing, no child. *)
Definition quiet_world : World :=
  mkWorld ∅ [] 24 80 "20261103_120000" (λ _ _ _, ([], EmptyString)) None []
    EmptyString EmptyString None true.

(** A session in which the bucket was never changed (it starts as TV) and
    the item holds one small text file. *)
Definition notes_session : App :=
  mkApp "Ready" "FILES" "notes" "notes AND mediatype:movies" "movies" false 1
    [mkSearchResult "item1" "Notes" "" ""] 0
    [mkIAFile "notes.txt" 5 "Text"] "TV" "MENU" 0 empty_favs "" 0 0 false.

Definition set_last_bucket (v : string) (a : App) : App :=
  mkApp (status a) (mode a) (query_text a) (query_built a) (media_filter a)
    (title_only a) (page a) (results a) (sel_r a) (files a) v (focus a)
    (menu_idx a) (favs a) (dl_current_name a) (dl_current_written a)
    (dl_current_total a) (dl_cancel_requested a).

Definition scene_release : string := "Movie.Title.2020.1080p.BluRay.x264-GROUP.mkv".

(** An archive with a single page of results for any query. *)
Definition cat_video : SearchResult := mkSearchResult "cat_video_1999" "Cats" "1999" "A. Nonymous".

Definition one_page_archive (query : string) (rows page : Z)
    : list SearchResult * string :=
  if page =? 1 then ([cat_video], EmptyString) else ([], EmptyString).

Definition one_page_world : World :=
  mkWorld ∅ [] 24 80 "20261103_120000" one_page_archive None []
    EmptyString EmptyString None true.

(** The session after the search for "cats": page 1 with its result. *)
Definition cats_page1 : App :=
  mkApp "Found 1 results. Use arrows, then [Open]." "RESULTS" "cats"
    "cats AND mediatype:movies" "movies" false 1 [cat_video] 0 [] "TV"
    "MENU" 5 empty_favs "" 0 0 false.

(** A method called twice in a row. *)
Definition twice (m : M unit) : M unit := m ;; m.

(** A store that already holds a favorite item and a favorite file. *)
Definition some_favs : Favs :=
  mkFavs [mkFavItem "old_item" "Old" "1950" ""]
         [mkFavFile "old_item" "Old" "1950" "" "old.avi" 700 "AVI"]
         (<["TV" := []]> (<["Movies" := ["Old (1950)"]]> (<["Other" := []]> ∅))).

Definition cats_with_favs : App := set_favs some_favs cats_page1.

Definition cat_file : IAFile := mkIAFile " cats.mp4" 1200 "MPEG4".

(** The world after [save_favs] was called on the object [st]. *)
Definition saved (st : App) (w : World) : World :=
  if disk_ok w then set_favs_disk (Some (favs st)) w else w.

(** The steps of one round of a polling loop, on the world and on the
    object. *)
Definition after_poll (t : tick) (ts : list tick) (w : World) : World :=
  set_child_ticks ts (set_fs (FS.write_all (fs w) (tk_writes t)) w).

Definition next_key (w : World) : Z :=
  match keys w with [] => -1 | k :: _ => k end.

Definition after_getch (w : World) : World :=
  match keys w with [] => w | _ :: ks => set_keys ks w end.

Definition after_cancel_key (ch : Z) (st : App) : App :=
  if is_cancel_key ch then set_dl_cancel_requested true st else st.

Definition after_render (w : World) (st : App) : App :=
  if term_too_small w then set_mode "TOO_SMALL" st else st.

(** The text of the size-mismatch failure. *)
Definition size_mismatch (filename : string) (actual expected : Z) : string :=
  "Size mismatch for " +:+ filename +:+ ": got " +:+ human_size actual
  +:+ " expected " +:+ human_size expected.

(** A download of [a.bin], announced with 7 bytes: the child is seen
    running once, then exits with code 0 leaving 6 bytes on disk. *)
Definition short_child : list tick :=
  [ mkTick [("/mnt/ssd/media/.ia_staging/item1/a.bin", "abc")] None;
    mkTick [("/mnt/ssd/media/.ia_staging/item1/a.bin", "abcdef")] (Some 0) ].

Definition short_download : World :=
  mkWorld ∅ [] 24 80 "20261103_120000" one_page_archive None short_child
    EmptyString EmptyString None true.

(** The same download with the key [c] pressed during the first round. *)
Definition canceled_download : World := set_keys [99] short_download.

(** Three files of one item, downloaded together into staging.  The item
    title carries the episode marker, so each of them is renamed to the same
    episode file name. *)
Definition episode_item : string := "show_s01e02".
Definition episode_title : string := "Show S01E02".

Definition staged_episode_files : gmap string node :=
  <[ "/mnt/ssd/media/.ia_staging/show_s01e02/a.mp4" := File "first" ]>
    (<[ "/mnt/ssd/media/.ia_staging/show_s01e02/b.mp4" := File "second" ]>
       (<[ "/mnt/ssd/media/.ia_staging/show_s01e02/c.mp4" := File "third" ]> ∅)).

(** Enter is pressed three times (each show-name prompt is accepted as it
    is) and the clock stays within one second. *)
Definition three_imports_world : World :=
  mkWorld staged_episode_files [10; 10; 10] 24 80 "20261103_120000"
    one_page_archive None [] EmptyString EmptyString None true.

(** The imports of the three files one after the other, as the loop over
    the files of a prefix download makes them. *)
Definition three_imports : M (list string) :=
  m1 <- choose_bucket_and_path episode_item "a.mp4" episode_title ;;
  m2 <- choose_bucket_and_path episode_item "b.mp4" episode_title ;;
  m3 <- choose_bucket_and_path episode_item "c.mp4" episode_title ;;
  ret [m1; m2; m3].

Definition two_imports : M (list string) :=
  m1 <- choose_bucket_and_path episode_item "a.mp4" episode_title ;;
  m2 <- choose_bucket_and_path episode_item "b.mp4" episode_title ;;
  ret [m1; m2].

Definition episode_path : string :=
  "/mnt/ssd/media/TV/Show S01E02/Season 01/Show S01E02 - S01E02.mp4".

(** The disk a method leaves. *)
Definition disk_of {A} (o : outcome A) : gmap string node :=
  match o with Ret _ _ w => fs w | _ => ∅ end.

(** The data of the regular files on a disk. *)
Definition file_data (fs : gmap string node) : list string :=
  omap (λ '(_, n), match n with File d => Some d | Dir => None end) (map_to_list fs).

(** A staged episode file and Enter at the show-name prompt. *)
Definition episode_world : World :=
  mkWorld (<[ "/mnt/ssd/media/.ia_staging/item1/Show.Name.S02E05.mp4" := File "video" ]> ∅)
    [10] 24 80 "20261103_120000" one_page_archive None []
    EmptyString EmptyString None true.

(** The staged scene release and Enter at the folder prompt. *)
Definition release_world : World :=
  mkWorld (<[ "/mnt/ssd/media/.ia_staging/item1/Movie.Title.2020.1080p.BluRay.x264-GROUP.mkv"
              := File "video" ]> ∅)
    [10] 24 80 "20261103_120000" one_page_archive None []
    EmptyString EmptyString None true.

(** The bucket roots. *)
Definition bucket_roots : list string := [BUCKET_TV; BUCKET_MOVIES; BUCKET_OTHER].

(** The name [avoid_collision] gives to a destination that exists. *)
Definition stamped_path (stamp final_path : string) : string :=
  fst (Path.splitext final_path) +:+ "_" +:+ stamp +:+ snd (Path.splitext final_path).

(** ** More of the program: filters, search answers, file catalog *)

Definition set_media_filter (v : string) (a : App) : App :=
  mkApp (status a) (mode a) (query_text a) (query_built a) v
    (title_only a) (page a) (results a) (sel_r a) (files a) (last_bucket a) (focus a)
    (menu_idx a) (favs a) (dl_current_name a) (dl_current_written a)
    (dl_current_total a) (dl_cancel_requested a).

(** [l.index(x)]; [None] stands for [ValueError]. *)
Fixpoint index_of (x : string) (l : list string) : option nat :=
  match l with
  | [] => None
  | y :: l' => if String.eqb y x then Some 0%nat else S <$> index_of x l'
  end.

(** [l[(i + 1) % len(l)]] *)
Definition next_in_cycle (l : list string) (i : nat) : string :=
  default EmptyString (l !! ((i + 1) mod length l)%nat).

Definition cycle_filter : M unit :=
  st <- self ;;
  let idx := default 0%nat (index_of (media_filter st) FILTERS) in
  let chosen := next_in_cycle FILTERS idx in
  update (set_media_filter chosen) ;;
  update (set_status ("Filter set to: " +:+ chosen)).

Definition BUCKET_ORDER : list string := ["TV"; "Movies"; "Other"].

Definition cycle_bucket : M unit :=
  st <- self ;;
  let i := default 0%nat (index_of (last_bucket st) BUCKET_ORDER) in
  let chosen := next_in_cycle BUCKET_ORDER i in
  update (set_last_bucket chosen) ;;
  update (set_status ("Save bucket: " +:+ chosen)).

(** The offset [ia_search_via_curl] asks for. *)
Definition search_start (rows page : Z) : Z := Z.max 0 ((page - 1) * rows).

(** One record of the search answer, for records whose values are text. *)
Definition parse_doc (d : gmap string string) : option SearchResult :=
  let ident := Str.strip (field d "identifier") in
  if Str.is_empty ident then None
  else
    Some (mkSearchResult ident
            (Str.or_else (Str.strip (field d "title")) "(no title)")
            (Str.strip (field d "year"))
            (Str.strip (field d "creator"))).

(** What [ia_search_via_curl] returns, given the exit code and the output
    of the command and, if the output is JSON, the records under
    [response.docs]. *)
Definition search_answer (code : Z) (out err : string)
    (docs : option (list (gmap string string))) : list SearchResult * string :=
  if negb (code =? 0) then
    let msg := Str.strip (Str.or_else err out) in
    ([], Str.or_else msg ("search failed (code " +:+ Num.of_Z code +:+ ")"))
  else
    match docs with
    | None => ([], "search returned non-JSON")
    | Some ds => (omap parse_doc ds, EmptyString)
    end.

(** One entry of the file list of an item, for entries whose values are
    text; a size that [int] refuses counts as 0. *)
Definition parse_file (f : gmap string string) : option IAFile :=
  let name := Str.strip (field f "name") in
  if Str.is_empty name then None
  else
    Some (mkIAFile name (default 0 (Num.py_int (field f "size")))
            (Str.strip (field f "format"))).

(** [files.sort(key=lambda x: x.size or 0, reverse=True)]: descending and
    stable, so a file goes in front of the first one that is not larger. *)
Fixpoint insert_by_size (f : IAFile) (l : list IAFile) : list IAFile :=
  match l with
  | [] => [f]
  | g :: l' => if size g <=? size f then f :: g :: l' else g :: insert_by_size f l'
  end.

Definition sort_by_size (l : list IAFile) : list IAFile :=
  foldr insert_by_size [] l.

(** Largest first. *)
Definition by_size_desc (a b : IAFile) : Prop := size b ≤ size a.

(** The file list [ia_files] returns for the entries under [files]. *)
Definition catalog (entries : list (gmap string string)) : list IAFile :=
  sort_by_size (omap parse_file entries).

(** [rx.search(text)] for [rx = re.compile(re.escape(kw), re.IGNORECASE)]. *)
Definition keyword_matches (kw text : string) : bool :=
  found (Re.search true (Re.Lit kw) text).

(** [get_visible_files], on the file list and the keyword of the object. *)
Definition get_visible_files (fl : list IAFile) (file_kw : string) : list IAFile :=
  let kw := Str.strip file_kw in
  if Str.is_empty kw then fl
  else List.filter (λ f, keyword_matches kw (name f) || keyword_matches kw (fmt f)) fl.

(** A prefix of the text that matches the other text but for the case. *)
Fixpoint startswith_nocase (p s : string) : bool :=
  match p, s with
  | EmptyString, _ => true
  | String a p', String b s' =>
      Char.eqb (Char.lower a) (Char.lower b) && startswith_nocase p' s'
  | String _ _, EmptyString => false
  end.

(** The text holds the other text somewhere, but for the case. *)
Fixpoint contains_nocase (sub s : string) : bool :=
  startswith_nocase sub s ||
  match s with
  | EmptyString => false
  | String _ s' => contains_nocase sub s'
  end.

(** A method called [n] times in a row. *)
Fixpoint times (n : nat) (m : M unit) : M unit :=
  match n with
  | O => ret tt
  | S n' => m ;; times n' m
  end.

(** The filter and the bucket that follow a given one. *)
Definition next_filter (f : string) : string :=
  next_in_cycle FILTERS (default 0%nat (index_of f FILTERS)).

Definition next_bucket (b : string) : string :=
  next_in_cycle BUCKET_ORDER (default 0%nat (index_of b BUCKET_ORDER)).

(** The key under which a folder name counts as known. *)
Definition folder_key (x : string) : string := Str.lower (Str.strip x).

(** The folder names remembered for a bucket. *)
Definition folders_of (st : App) (bucket : string) : list string :=
  default [] (fav_folders (favs st) !! bucket).

(** Where [finish_import] puts the staged file. *)
Definition import_target (w : World) (final_path : string) : string :=
  if FS.exists_ (fs w) final_path
  then stamped_path (clock_stamp w) final_path else final_path.

(** A library that already holds [notes.txt] in [Other/Misc], and the same
    name staged again. *)
Definition collision_world : World :=
  mkWorld
    (<[ "/mnt/ssd/media/.ia_staging/item1/notes.txt" := File "new" ]>
       (<[ "/mnt/ssd/media/Other/Misc/notes.txt" := File "old" ]>
          (<[ "/mnt/ssd/media/Other/Misc" := Dir ]> ∅)))
    [10] 24 80 "20261103_120000" one_page_archive None []
    EmptyString EmptyString None true.

(** The same disk with [notes.txt] staged, where the user erases the
    default [Misc] at the folder prompt and types two dots. *)
Definition dot_dot_world : World :=
  set_keys [127; 127; 127; 127; 46; 46; 10] collision_world.

(** The error text of a child that exited with a code other than 0. *)
Definition child_failure_text (w : World) (rc : Z) : string :=
  Str.or_else (Str.strip (Str.or_else (child_err w) (child_out w)))
    ("download failed (code " +:+ Num.of_Z rc +:+ ")").

(** The download of [a.bin] with a child that is only seen running. *)
Definition stalled_download : World :=
  set_child_ticks
    [mkTick [("/mnt/ssd/media/.ia_staging/item1/a.bin", "abc")] None] short_download.

(** A machine on which the [ia] client cannot be started. *)
Definition no_client : World :=
  mkWorld ∅ [] 24 80 "20261103_120000" one_page_archive
    (Some "[Errno 2] No such file or directory: 'ia'") short_child
    EmptyString EmptyString None true.

(** The test of [build_query] for a text that is already written in the
    query syntax of the archive. *)
Definition looks_advanced (s : string) : bool :=
  Str.contains "mediatype:" s
  || Str.contains "title:" s
  || Str.contains "collection:" s
  || Str.contains "identifier:" s
  || Str.contains "licenseurl:" s
  || Str.contains "rights:" s
  || Str.contains " AND " (Str.upper s)
  || Str.contains " OR " (Str.upper s).

(** ** The download plan *)

(** The fields of the object around the download plan, which [App] leaves
    out.  [cur_meta] is [None] for no metadata and for an empty dictionary
    (the code tests its truth value); otherwise it is the bag under the key
    "metadata", empty when the key is missing. *)
Record Plan := mkPlan {
  enforce_license_gate : bool;
  cur_meta : option (gmap string string);
  preview_item : option SearchResult;
  preview_file : option IAFile;
  preview_files : list IAFile;
  preview_prefix : string;
  download_log : list string;
  dl_overall_total : Z;
  dl_overall_written : Z
}.

Definition set_preview_item (v : option SearchResult) (p : Plan) : Plan :=
  mkPlan (enforce_license_gate p) (cur_meta p) v (preview_file p) (preview_files p)
    (preview_prefix p) (download_log p) (dl_overall_total p) (dl_overall_written p).

Definition set_preview_file (v : option IAFile) (p : Plan) : Plan :=
  mkPlan (enforce_license_gate p) (cur_meta p) (preview_item p) v (preview_files p)
    (preview_prefix p) (download_log p) (dl_overall_total p) (dl_overall_written p).

Definition set_preview_files (v : list IAFile) (p : Plan) : Plan :=
  mkPlan (enforce_license_gate p) (cur_meta p) (preview_item p) (preview_file p) v
    (preview_prefix p) (download_log p) (dl_overall_total p) (dl_overall_written p).

Definition set_preview_prefix (v : string) (p : Plan) : Plan :=
  mkPlan (enforce_license_gate p) (cur_meta p) (preview_item p) (preview_file p)
    (preview_files p) v (download_log p) (dl_overall_total p) (dl_overall_written p).

Definition set_download_log (v : list string) (p : Plan) : Plan :=
  mkPlan (enforce_license_gate p) (cur_meta p) (preview_item p) (preview_file p)
    (preview_files p) (preview_prefix p) v (dl_overall_total p) (dl_overall_written p).

Definition set_dl_overall_total (v : Z) (p : Plan) : Plan :=
  mkPlan (enforce_license_gate p) (cur_meta p) (preview_item p) (preview_file p)
    (preview_files p) (preview_prefix p) (download_log p) v (dl_overall_written p).

Definition set_dl_overall_written (v : Z) (p : Plan) : Plan :=
  mkPlan (enforce_license_gate p) (cur_meta p) (preview_item p) (preview_file p)
    (preview_files p) (preview_prefix p) (download_log p) (dl_overall_total p) v.

(** [is_openly_licensed(meta) if meta else (False, "No metadata loaded")] *)
Definition rights_verdict (pl : Plan) : bool * string :=
  match cur_meta pl with
  | Some m => is_openly_licensed m
  | None => (false, "No metadata loaded")
  end.

(** [self.download_log.insert(0, msg); self.download_log = self.download_log[:8]] *)
Definition push_log (msg : string) (pl : Plan) : Plan :=
  set_download_log (take 8 (msg :: download_log pl)) pl.

(** The four assignments that forget the plan. *)
Definition drop_preview (pl : Plan) : Plan :=
  set_preview_prefix EmptyString
    (set_preview_files [] (set_preview_file None (set_preview_item None pl))).

(** The block the method repeats where a transfer or a size check fails. *)
Definition abort_plan (err : string) (pl : Plan) : M Plan :=
  update (set_mode "FILES") ;;
  update (set_focus "LIST") ;;
  let pl := drop_preview pl in
  update (set_status err) ;;
  ret (push_log ("Error: " +:+ err) pl).

(** The import of one downloaded file, with its line in the log. *)
Definition import_and_log (item : SearchResult) (f : IAFile) (pl : Plan) : M Plan :=
  msg <- choose_bucket_and_path (identifier item) (name f) (title item) ;;
  let pl := push_log msg pl in
  update (set_status msg) ;;
  render ;;
  ret pl.

(** The block at the end of each branch that ran through. *)
Definition finish_plan (status_text : string) (pl : Plan) : M Plan :=
  update (set_mode "FILES") ;;
  update (set_focus "LIST") ;;
  let pl := drop_preview pl in
  update (set_status status_text) ;;
  ret pl.

(** The loop over the files after a glob transfer; [false]: the method has
    returned from inside the loop. *)
Fixpoint import_staged (item : SearchResult) (queue : list IAFile) (pl : Plan)
    : M (bool * Plan) :=
  match queue with
  | [] => ret (true, pl)
  | f :: rest =>
      w <- world ;;
      let '(ok_sz, msg_sz) := _verify_expected_size w (identifier item) (name f) (size f) in
      if negb ok_sz then
        pl' <- abort_plan msg_sz pl ;;
        ret (false, pl')
      else
        pl' <- import_and_log item f pl ;;
        import_staged item rest pl'
  end.

(** The loop over the files of a full item, one transfer each; [idx] counts
    the files done and [total] is [len(queue)]. *)
Fixpoint download_each (item : SearchResult) (idx total : nat) (queue : list IAFile)
    (pl : Plan) : M (bool * Plan) :=
  match queue with
  | [] => ret (true, pl)
  | f :: rest =>
      update (set_dl_current_name (name f)) ;;
      update (set_dl_current_total (size f)) ;;
      update (set_dl_current_written 0) ;;
      update (set_status ("Downloading " +:+ Num.of_N (N.of_nat (S idx)) +:+ "/"
                          +:+ Num.of_N (N.of_nat total) +:+ ": " +:+ name f)) ;;
      render ;;
      r <- _download_one_with_progress (identifier item) (name f) (size f) ;;
      let '(ok2, err) := r in
      if negb ok2 then
        pl' <- abort_plan err pl ;;
        ret (false, pl')
      else
        pl' <- import_and_log item f pl ;;
        download_each item (S idx) total rest pl'
  end.

(** [sum(int(f.size or 0) for f in queue)] *)
Definition total_size (queue : list IAFile) : Z :=
  foldr (λ f acc, size f + acc) 0 queue.

Definition consent_label : string :=
  "Rights unclear. Type " +:+ String dquote "DOWNLOAD"
  +:+ String dquote " to proceed, or Esc to cancel: ".

(** The answer to the consent prompt lets the download go on. *)
Definition is_consent (s : option string) : bool :=
  match s with
  | None => false
  | Some s => String.eqb (Str.upper (Str.strip s)) "DOWNLOAD"
  end.

(** [perform_download_plan], from the plan fields to the plan fields it
    leaves. *)
Definition perform_download_plan (pl : Plan) : M Plan :=
  match preview_item pl with
  | None =>
      update (set_status "Nothing to download.") ;;
      update (set_mode "FILES") ;;
      update (set_focus "LIST") ;;
      ret pl
  | Some item =>
      let '(ok, why) := rights_verdict pl in
      if negb ok && enforce_license_gate pl then
        update (set_status ("Blocked. " +:+ why)) ;;
        update (set_mode "FILES") ;;
        update (set_focus "LIST") ;;
        ret pl
      else
        go <- (if negb ok && negb (enforce_license_gate pl) then
                 s <- prompt consent_label EmptyString ;;
                 ret (is_consent s)
               else ret true) ;;
        if negb go then
          update (set_status "Canceled.") ;;
          update (set_mode "FILES") ;;
          update (set_focus "LIST") ;;
          ret pl
        else
          match preview_file pl with
          | Some f =>
              let pl := set_dl_overall_written 0 (set_dl_overall_total (total_size [f]) pl) in
              update (set_mode "DOWNLOADING") ;;
              update (set_focus "MENU") ;;
              update (set_status ("Downloading: " +:+ name f)) ;;
              render ;;
              r <- _download_one_with_progress (identifier item) (name f) (size f) ;;
              let '(ok2, err) := r in
              if negb ok2 then abort_plan err pl
              else
                pl' <- import_and_log item f pl ;;
                finish_plan "Done. Downloaded 1 file." pl'
          | None =>
              match preview_files pl with
              | [] =>
                  update (set_status "Nothing selected.") ;;
                  update (set_mode "FILES") ;;
                  update (set_focus "LIST") ;;
                  ret pl
              | _ :: _ =>
                  let queue := preview_files pl in
                  let total_expected := total_size queue in
                  let done_text :=
                    "Done. Downloaded " +:+ Num.of_N (N.of_nat (length queue))
                    +:+ " file(s)." in
                  update (set_mode "DOWNLOADING") ;;
                  update (set_focus "MENU") ;;
                  if negb (Str.is_empty (preview_prefix pl))
                     && negb (String.eqb (preview_prefix pl) "__FULL_ITEM__")
                  then
                    let glob_pat := preview_prefix pl +:+ "*" in
                    update (set_status ("Downloading prefix via --glob: " +:+ glob_pat)) ;;
                    render ;;
                    r <- _download_glob_with_progress (identifier item) glob_pat
                           total_expected ;;
                    let '(ok2, err) := r in
                    if negb ok2 then abort_plan err pl
                    else
                      r <- import_staged item queue pl ;;
                      let '(through, pl') := r in
                      if through then finish_plan done_text pl' else ret pl'
                  else
                    r <- download_each item 0 (length queue) queue pl ;;
                    let '(through, pl') := r in
                    if through then finish_plan done_text pl' else ret pl'
              end
          end
  end.

(** The plan fields a run of the download plan may not touch, and a log
    that is cut to 8 lines whenever it is written. *)
Definition evolves (pl pl' : Plan) : Prop :=
  enforce_license_gate pl' = enforce_license_gate pl
  ∧ cur_meta pl' = cur_meta pl
  ∧ ((length (download_log pl') ≤ 8)%nat ∨ download_log pl' = download_log pl).

(** Nothing is left of the plan. *)
Definition plan_dropped (pl : Plan) : Prop :=
  preview_item pl = None ∧ preview_file pl = None
  ∧ preview_files pl = [] ∧ preview_prefix pl = EmptyString.

(** An item with one file of 6 bytes, [a.bin], which [short_child]
    downloads. *)
Definition item1 : SearchResult := mkSearchResult "item1" "Notes" "2001" "A. Nonymous".

Definition a_bin : IAFile := mkIAFile "a.bin" 6 "Binary".

(** A plan to download [a.bin], with no metadata loaded and the license
    gate off. *)
Definition unclear_plan : Plan :=
  mkPlan false None (Some item1) (Some a_bin) [] EmptyString [] 0 0.

(** The same plan with the license gate on. *)
Definition gated_plan : Plan :=
  mkPlan true None (Some item1) (Some a_bin) [] EmptyString [] 0 0.

(** The user types [download] and Enter at the consent prompt, no key
    during the two rounds of the transfer, then Enter at the prompts of the
    import. *)
Definition consent_world : World :=
  set_keys [100; 111; 119; 110; 108; 111; 97; 100; 10; 0; 0; 10; 10; 10] short_download.

(** The run of the plan in which the user consents. *)
Definition consent_run : outcome Plan :=
  perform_download_plan unclear_plan fresh_app consent_world.

(** * Properties *)

(** ** Text *)

Section TextFacts.

Lemma eqb_eq_char (a b : ascii) : Char.eqb a b = true ↔ a = b.
Proof. unfold Char.eqb. apply Ascii.eqb_eq. Qed.

Lemma lstrip_head (s : string) :
  Str.lstrip s = EmptyString ∨
  ∃ c s', Str.lstrip s = String c s' ∧ Char.isspace c = false.
Proof.
  induction s as [|c s IH]; simpl; [by left|].
  destruct (Char.isspace c) eqn:E; [exact IH|].
  right. by exists c, s.
Qed.

Lemma lstrip_fixed (c : ascii) (s : string) :
  Char.isspace c = false → Str.lstrip (String c s) = String c s.
Proof. intros E. simpl. by rewrite E. Qed.

Lemma rstrip_cons (c a : ascii) (s r : string) :
  Str.rstrip s = String a r → Str.rstrip (String c s) = String c (String a r).
Proof. intros E. simpl. by rewrite E. Qed.

Lemma rstrip_idem (s : string) : Str.rstrip (Str.rstrip s) = Str.rstrip s.
Proof.
  induction s as [|c s IH]; simpl; [done|].
  destruct (Str.rstrip s) as [|a r] eqn:E.
  - destruct (Char.isspace c) eqn:Ec; simpl; [done|]. by rewrite Ec.
  - by apply rstrip_cons.
Qed.

Lemma rstrip_head (c : ascii) (s : string) :
  Char.isspace c = false → ∃ r, Str.rstrip (String c s) = String c r.
Proof.
  intros E. simpl. destruct (Str.rstrip s); rewrite ?E; eauto.
Qed.

(** [strip] is idempotent. *)
Lemma strip_idem (s : string) : Str.strip (Str.strip s) = Str.strip s.
Proof.
  unfold Str.strip.
  destruct (lstrip_head s) as [E | (c & s' & E & Hc)]; rewrite E.
  - reflexivity.
  - destruct (rstrip_head c s' Hc) as [r Er]. rewrite Er.
    rewrite (lstrip_fixed c r Hc), <- Er. apply rstrip_idem.
Qed.

End TextFacts.

(** ** The matcher on a repeated class *)

Section ClassRuns.

Variable p : ascii → bool.

(** With nothing after the repetition, it takes the whole run. *)
Lemma plus_more_takes_run (cps : list (nat * string)) (x : ascii) (s : string) :
  ∃ st', Re.plus_more p Some cps x s = Some st'
         ∧ String.length (Re.rest st') = (String.length s - run_length p s)%nat.
Proof.
  revert x. induction s as [|y s IH]; intros x; simpl.
  - eexists; split; [reflexivity|]. simpl. lia.
  - destruct (p y) eqn:E.
    + destruct (IH y) as (st' & -> & Hlen). exists st'. split; [done|]. lia.
    + eexists; split; [reflexivity|]. simpl. lia.
Qed.

Lemma match_here_plus (pv : option ascii) (c : ascii) (s : string) :
  p c = true →
  ∃ st', Re.match_here false (Re.Plus p) pv (String c s) = Some st'
         ∧ (String.length (String c s) - String.length (Re.rest st'))%nat
           = S (run_length p s).
Proof.
  intros E. unfold Re.match_here. simpl. rewrite E.
  destruct (plus_more_takes_run [] c s) as (st' & -> & Hlen).
  exists st'. split; [done|].
  assert (run_length p s ≤ String.length s)%nat.
  { clear. induction s as [|y s IH]; simpl; [lia|]. destruct (p y); lia. }
  lia.
Qed.

Lemma match_here_plus_fails (pv : option ascii) (c : ascii) (s : string) :
  p c = false → Re.match_here false (Re.Plus p) pv (String c s) = None.
Proof. intros E. unfold Re.match_here. simpl. by rewrite E. Qed.

Lemma sub_go_plus (repl : string) (s : string) :
  ∀ pv,
    Re.sub_go false (Re.Plus p) repl pv s 0 = Re.sub_runs p repl false s
    ∧ Re.sub_go false (Re.Plus p) repl pv s (run_length p s) = Re.sub_runs p repl true s.
Proof.
  induction s as [|c s IH]; intros pv.
  - split; reflexivity.
  - destruct (p c) eqn:E.
    + assert (Hskip : Re.sub_go false (Re.Plus p) repl pv (String c s) (run_length p (String c s))
                      = Re.sub_runs p repl true (String c s)).
      { simpl. rewrite E. simpl. apply IH. }
      split; [|exact Hskip].
      cbn [Re.sub_go].
      destruct (match_here_plus pv c s E) as (st' & -> & ->).
      cbn [Re.sub_runs]. rewrite E. f_equal. apply IH.
    + assert (Hzero : Re.sub_go false (Re.Plus p) repl pv (String c s) 0
                      = Re.sub_runs p repl false (String c s)).
      { cbn [Re.sub_go]. rewrite (match_here_plus_fails pv c s E).
        cbn [Re.sub_runs]. rewrite E. f_equal. apply IH. }
      split; [exact Hzero|].
      cbn [run_length]. rewrite E. rewrite Hzero.
      cbn [Re.sub_runs]. by rewrite E.
Qed.

(** [re.sub] on a repeated class replaces each maximal run once. *)
Lemma sub_plus_runs (repl s : string) :
  Re.sub false (Re.Plus p) repl s = Re.sub_runs p repl false s.
Proof. unfold Re.sub. apply sub_go_plus. Qed.

End ClassRuns.

(** ** Folder names *)

Section FolderNames.

Lemma all_cons (q : ascii → bool) (c : ascii) (s : string) :
  Str.all q (String c s) = q c && Str.all q s.
Proof. reflexivity. Qed.

Lemma all_app (q : ascii → bool) (a b : string) :
  Str.all q (a +:+ b) = Str.all q a && Str.all q b.
Proof.
  induction a as [|c a IH]; [reflexivity|].
  change (String c a +:+ b) with (String c (a +:+ b)).
  rewrite !all_cons, IH. by rewrite andb_assoc.
Qed.

Lemma all_lstrip (q : ascii → bool) (s : string) :
  Str.all q s = true → Str.all q (Str.lstrip s) = true.
Proof.
  induction s as [|c s IH]; [done|]. rewrite all_cons. intros [Hc Hs]%andb_true_iff.
  simpl. destruct (Char.isspace c); [by apply IH|]. rewrite all_cons. by rewrite Hc, Hs.
Qed.

Lemma all_rstrip (q : ascii → bool) (s : string) :
  Str.all q s = true → Str.all q (Str.rstrip s) = true.
Proof.
  induction s as [|c s IH]; [done|]. rewrite all_cons. intros [Hc Hs]%andb_true_iff.
  simpl. specialize (IH Hs). destruct (Str.rstrip s) as [|a r].
  - destruct (Char.isspace c); [done|]. rewrite all_cons. by rewrite Hc.
  - rewrite all_cons. by rewrite Hc, IH.
Qed.

Lemma all_strip (q : ascii → bool) (s : string) :
  Str.all q s = true → Str.all q (Str.strip s) = true.
Proof. intros H. unfold Str.strip. by apply all_rstrip, all_lstrip. Qed.

(** Deleting the runs of a class leaves no character of the class. *)
Lemma sub_runs_delete_free (q : ascii → bool) (b : bool) (s : string) :
  free_of q (Re.sub_runs q EmptyString b s) = true.
Proof.
  unfold free_of. revert b. induction s as [|c s IH]; intros b; [done|].
  simpl. destruct (q c) eqn:E.
  - destruct b; apply IH.
  - rewrite all_cons, E. simpl. apply IH.
Qed.

(** Replacing the runs of a class by a text keeps out what neither the
    input nor the replacement has. *)
Lemma sub_runs_keeps_free (q r : ascii → bool) (repl : string) (b : bool) (s : string) :
  free_of r repl = true → free_of r s = true →
  free_of r (Re.sub_runs q repl b s) = true.
Proof.
  unfold free_of. intros Hrepl. revert b.
  induction s as [|c s IH]; intros b; [done|].
  rewrite all_cons. intros [Hc Hs]%andb_true_iff. simpl.
  destruct (q c).
  - rewrite all_app, (IH true Hs). destruct b; [done|]. by rewrite Hrepl.
  - rewrite all_cons, Hc. simpl. by apply IH.
Qed.

Lemma single_spaced_runs (b : bool) (s : string) :
  single_spaced b (Re.sub_runs Char.isspace " " b s) = true.
Proof.
  revert b. induction s as [|c s IH]; intros b; [done|].
  simpl. destruct (Char.isspace c) eqn:E.
  - destruct b.
    + apply IH.
    + change (" " +:+ Re.sub_runs Char.isspace " " true s)
        with (String " " (Re.sub_runs Char.isspace " " true s)).
      simpl. apply IH.
  - simpl. rewrite E. apply IH.
Qed.

Lemma single_spaced_lstrip (b : bool) (s : string) :
  single_spaced b s = true → single_spaced true (Str.lstrip s) = true.
Proof.
  revert b. induction s as [|c s IH]; intros b; [done|].
  simpl. destruct (Char.isspace c) eqn:E.
  - intros [_ H]%andb_true_iff. by apply (IH true).
  - intros H. simpl. by rewrite E.
Qed.

Lemma collapsed_rstrip (b : bool) (s : string) :
  single_spaced b s = true → collapsed_go b (Str.rstrip s) = true.
Proof.
  revert b. induction s as [|c s IH]; intros b; [done|].
  simpl. destruct (Char.isspace c) eqn:E.
  - intros [[Hc Hb]%andb_true_iff H]%andb_true_iff.
    specialize (IH true H).
    destruct (Str.rstrip s) as [|a r]; [done|].
    cbn [collapsed_go]. rewrite E, Hc, Hb. exact IH.
  - intros H. specialize (IH false H).
    destruct (Str.rstrip s) as [|a r].
    + simpl. by rewrite E.
    + cbn [collapsed_go]. rewrite E. exact IH.
Qed.

Lemma or_else_nonempty (a b : string) :
  b ≠ EmptyString → Str.or_else a b ≠ EmptyString.
Proof. intros Hb. unfold Str.or_else. by destruct a. Qed.

Lemma or_else_cases (a b : string) :
  (a ≠ EmptyString ∧ Str.or_else a b = a) ∨ (a = EmptyString ∧ Str.or_else a b = b).
Proof. destruct a; [by right|by left]. Qed.

(** What [sanitize_folder] returns for any input. *)
Lemma sanitize_folder_shape (name : string) :
  sanitize_folder name ≠ EmptyString
  ∧ free_of is_path_unsafe (sanitize_folder name) = true
  ∧ ws_collapsed (sanitize_folder name) = true.
Proof.
  unfold sanitize_folder. rewrite !sub_plus_runs.
  set (t := Str.strip (Re.sub_runs Char.isspace " " false
                         (Re.sub_runs is_path_unsafe EmptyString false (Str.strip name)))).
  split; [by apply or_else_nonempty|].
  destruct (or_else_cases t "Unknown") as [[_ ->] | [_ ->]]; [|by split].
  split.
  - apply all_strip. apply sub_runs_keeps_free; [done|]. apply sub_runs_delete_free.
  - unfold ws_collapsed, t, Str.strip. apply collapsed_rstrip.
    eapply single_spaced_lstrip. apply single_spaced_runs.
Qed.

End FolderNames.

(** ** License gate *)

Section LicenseGate.

Lemma first_marker_found (markers : list string) (joined : string) :
  existsb (λ d, Str.contains d joined) markers = true →
  ∃ d, first_marker markers joined = Some d
       ∧ In d markers ∧ Str.contains d joined = true.
Proof.
  induction markers as [|m ms IH]; simpl; [done|].
  destruct (Str.contains m joined) eqn:E.
  - intros _. exists m. auto.
  - simpl. intros H. destruct (IH H) as (d & Hd & Hin & Hc). exists d. auto.
Qed.

(** C4. When the combined licenseurl/rights text holds an allow marker and
    a deny marker, the classification is not-allowed and its reason names a
    deny marker that occurs in the text: the deny markers are looked up
    first, and a match returns before any allow marker is consulted. *)
Theorem deny_takes_precedence (m : gmap string string) :
  existsb (λ a, Str.contains a (joined_rights m)) allow_markers = true →
  existsb (λ d, Str.contains d (joined_rights m)) deny_markers = true →
  ∃ d, In d deny_markers
       ∧ Str.contains d (joined_rights m) = true
       ∧ first_marker deny_markers (joined_rights m) = Some d
       ∧ is_openly_licensed m = (false, "Blocked by rights metadata: " +:+ d).
Proof.
  intros _ Hdeny.
  destruct (first_marker_found _ _ Hdeny) as (d & Hd & Hin & Hc).
  exists d. repeat split; try done.
  unfold is_openly_licensed. by rewrite Hd.
Qed.

Lemma deny_takes_precedence_witness :
  ∃ d, In d deny_markers
       ∧ Str.contains d (joined_rights
           (<["licenseurl" := "https://creativecommons.org/licenses/by/4.0/"]>
              (<["rights" := "All Rights Reserved"]> ∅))) = true
       ∧ first_marker deny_markers (joined_rights
           (<["licenseurl" := "https://creativecommons.org/licenses/by/4.0/"]>
              (<["rights" := "All Rights Reserved"]> ∅))) = Some d
       ∧ is_openly_licensed
           (<["licenseurl" := "https://creativecommons.org/licenses/by/4.0/"]>
              (<["rights" := "All Rights Reserved"]> ∅))
         = (false, "Blocked by rights metadata: " +:+ d).
Proof.
  apply (deny_takes_precedence
           (<["licenseurl" := "https://creativecommons.org/licenses/by/4.0/"]>
              (<["rights" := "All Rights Reserved"]> ∅)));
    vm_compute; reflexivity.
Defined.

(** The deny marker "copyright" occurs in every text in which the allow
    marker "no known copyright" occurs. *)
Lemma contains_suffix (a b s : string) :
  Str.contains (a +:+ b) s = true → Str.contains b s = true.
Proof.
  revert s. induction a as [|c a IH]; intros s; [done|].
  change (String c a +:+ b) with (String c (a +:+ b)).
  induction s as [|x s IHs]; simpl.
  - done.
  - intros [H | H]%orb_true_iff.
    + apply andb_true_iff in H as [_ H].
      apply orb_true_iff. right. apply IH.
      destruct s; simpl in *; rewrite H; done.
    + apply orb_true_iff. right. by apply IHs.
Qed.

Lemma no_known_copyright_never_allows (m : gmap string string) :
  Str.contains "no known copyright" (joined_rights m) = true →
  fst (is_openly_licensed m) = false.
Proof.
  intros H. apply (contains_suffix "no known " "copyright") in H.
  unfold is_openly_licensed.
  destruct (first_marker deny_markers (joined_rights m)) eqn:E; [done|].
  exfalso. simpl in E.
  destruct (Str.contains "all rights reserved" (joined_rights m)); [done|].
  by rewrite H in E.
Qed.

(** C3. On the text "no known copyright" the classification is not-allowed:
    the deny marker "copyright" is part of that text and is found first. *)
Theorem no_known_copyright_is_blocked :
  joined_rights (<["rights" := "No known copyright"]> ∅) = "no known copyright"
  ∧ existsb (λ a, String.eqb a "no known copyright") allow_markers = true
  ∧ is_openly_licensed (<["rights" := "No known copyright"]> ∅)
    = (false, "Blocked by rights metadata: copyright").
Proof. by vm_compute. Qed.

End LicenseGate.

(** ** Bucket and name *)

Section Classifier.

(** C2, as amended.  A file whose name and item title show no
    season/episode pattern and no year, and which is not the single large
    video of the item, goes to the bucket last selected in the session
    (TV, Movies or Other; TV at start); it goes to Other when that selection
    is Other or is none of the three. *)
Theorem fallback_bucket_is_last_bucket (st : App) (filename item_title : string) :
  detect_sxxeyy filename = None →
  detect_sxxeyy item_title = None →
  has_year_hint filename = false →
  has_year_hint item_title = false →
  is_single_large_video st filename = false →
  choose_bucket st filename item_title = normalize_bucket (last_bucket st)
  ∧ (last_bucket st = "Other" ∨ ¬ In (last_bucket st) ["TV"; "Movies"; "Other"] →
     choose_bucket st filename item_title = "Other").
Proof.
  intros Hf Ht Hyf Hyt Hv.
  assert (E : choose_bucket st filename item_title = normalize_bucket (last_bucket st)).
  { unfold choose_bucket, detect_ep. by rewrite Hf, Ht, Hyf, Hyt, Hv. }
  split; [exact E|].
  rewrite E. unfold normalize_bucket. intros [-> | Hn]; [done|].
  case_bool_decide as Hin; [|done].
  exfalso. apply Hn. by apply list_elem_of_In.
Qed.

Lemma fallback_bucket_is_last_bucket_witness :
  choose_bucket (set_last_bucket "Other" notes_session) "notes.txt" "Notes"
  = normalize_bucket "Other"
  ∧ choose_bucket (set_last_bucket "Other" notes_session) "notes.txt" "Notes" = "Other".
Proof.
  destruct (fallback_bucket_is_last_bucket (set_last_bucket "Other" notes_session)
              "notes.txt" "Notes") as [H1 H2]; try (vm_compute; reflexivity).
  split; [exact H1|]. apply H2. left. reflexivity.
Defined.

(** C2, as stated, fails: in a session that still has its initial bucket
    (TV), a plain text file without pattern, year or large video goes to TV,
    not to Other. *)
Lemma fallback_bucket_not_always_other :
  detect_sxxeyy "notes.txt" = None
  ∧ detect_sxxeyy "Notes" = None
  ∧ has_year_hint "notes.txt" = false
  ∧ has_year_hint "Notes" = false
  ∧ is_single_large_video notes_session "notes.txt" = false
  ∧ last_bucket notes_session = last_bucket fresh_app
  ∧ choose_bucket notes_session "notes.txt" "Notes" = "TV"
  ∧ choose_bucket notes_session "notes.txt" "Notes" ≠ "Other".
Proof. repeat split; try (vm_compute; reflexivity). vm_compute. discriminate. Qed.

Lemma scene_release_has_no_episode : detect_ep scene_release EmptyString = None.
Proof. vm_compute. reflexivity. Qed.

Lemma scene_release_has_year : has_year_hint scene_release = true.
Proof. vm_compute. reflexivity. Qed.

(** C9. The file [Movie.Title.2020.1080p.BluRay.x264-GROUP.mkv] of an item
    without title matches no season/episode pattern, goes to the Movies
    bucket whatever the session, and its cleaned folder name is
    [Movie Title (2020)]. *)
Theorem scene_release_is_a_feature (st : App) :
  detect_ep scene_release EmptyString = None
  ∧ choose_bucket st scene_release EmptyString = "Movies"
  ∧ auto_clean_movie_folder_name EmptyString scene_release = "Movie Title (2020)".
Proof.
  split; [apply scene_release_has_no_episode|]. split.
  - unfold choose_bucket.
    rewrite scene_release_has_no_episode, scene_release_has_year. reflexivity.
  - vm_compute. reflexivity.
Qed.

(** The tags are removed whatever their case, and the separators and
    brackets around them go as well. *)
Example scene_tags_any_case :
  auto_clean_movie_folder_name EmptyString "Movie_Title.[BLURAY].x265.REPACK.(1999).WebRip.mkv"
  = "Movie Title (1999)".
Proof. vm_compute. reflexivity. Qed.

End Classifier.

(** Unfolding the plumbing of methods. *)
Ltac method_steps :=
  cbv beta iota delta [bind ret self world update update_world raise pending].

(** ** Pagination *)

Section Pagination.

(** The session [cats_page1] is what a search for "cats" leaves. *)
Example cats_page1_is_a_search_result :
  final_app (do_search true
               (mkApp "Ready" "RESULTS" "cats" "" "movies" false 1 [] 0 [] "TV"
                  "MENU" 5 empty_favs "" 0 0 false) one_page_world)
  = Some (set_focus "LIST" cats_page1).
Proof. vm_compute. reflexivity. Qed.

(** When the query of a paging attempt finds nothing, [do_search] has
    already stored the empty list before the page number is put back. *)
Lemma do_search_stores_results (st : App) (w : World) (err : string) :
  build_query (query_text st) (media_filter st) (title_only st) ≠ EmptyString →
  archive w (build_query (query_text st) (media_filter st) (title_only st))
    ROWS_PER_PAGE (page st) = ([], err) →
  ∃ st', do_search false st w = Ret tt st' w
         ∧ results st' = [] ∧ page st' = page st
         ∧ focus st' = (if Str.is_empty err then "LIST" else focus st)
         ∧ menu_idx st' = menu_idx st.
Proof.
  intros Hq Harch.
  unfold do_search. method_steps. simpl.
  destruct (build_query (query_text st) (media_filter st) (title_only st)) as [|c q] eqn:E;
    [done|]. simpl. unfold render. method_steps.
  destruct (term_too_small w); method_steps; simpl; rewrite Harch;
    destruct err; simpl; eexists; (split; [reflexivity|]); by repeat split.
Qed.

Lemma next_page_on_empty_page (st : App) (w : World) (err : string) :
  query_text st ≠ EmptyString →
  build_query (query_text st) (media_filter st) (title_only st) ≠ EmptyString →
  archive w (build_query (query_text st) (media_filter st) (title_only st))
    ROWS_PER_PAGE (page st + 1) = ([], err) →
  ∃ st', next_page st w = Ret tt st' w
         ∧ page st' = page st ∧ results st' = []
         ∧ focus st' = focus st ∧ menu_idx st' = menu_idx st.
Proof.
  intros Hqt Hq Harch.
  unfold next_page. unfold bind at 1. unfold self at 1.
  destruct (query_text st) as [|c0 q0] eqn:Eqt; [done|]. cbn [Str.is_empty].
  unfold bind at 1. unfold update at 1.
  unfold bind at 1.
  destruct (do_search_stores_results (set_page (page st + 1) st) w err)
    as (st1 & -> & Hres & Hpage & _ & _).
  { simpl. by rewrite Eqt. }
  { simpl. rewrite Eqt. simpl in Harch. exact Harch. }
  unfold bind, self, update, ret. rewrite Hres. simpl.
  eexists. split; [reflexivity|]. simpl. by rewrite Hres.
Qed.

Lemma prev_page_on_empty_page (st : App) (w : World) (err : string) :
  query_text st ≠ EmptyString →
  1 < page st →
  build_query (query_text st) (media_filter st) (title_only st) ≠ EmptyString →
  archive w (build_query (query_text st) (media_filter st) (title_only st))
    ROWS_PER_PAGE (page st - 1) = ([], err) →
  ∃ st', prev_page st w = Ret tt st' w
         ∧ page st' = page st ∧ results st' = []
         ∧ focus st' = focus st ∧ menu_idx st' = menu_idx st.
Proof.
  intros Hqt Hp Hq Harch.
  unfold prev_page. unfold bind at 1. unfold self at 1.
  destruct (query_text st) as [|c0 q0] eqn:Eqt; [done|]. cbn [Str.is_empty].
  destruct (page st <=? 1) eqn:Ep; [lia|].
  unfold bind at 1. unfold update at 1.
  unfold bind at 1.
  destruct (do_search_stores_results (set_page (page st - 1) st) w err)
    as (st1 & -> & Hres & Hpage & _ & _).
  { simpl. by rewrite Eqt. }
  { simpl. rewrite Eqt. simpl in Harch. exact Harch. }
  unfold bind, self, update, ret. rewrite Hres. simpl.
  eexists. split; [reflexivity|]. simpl. by rewrite Hres.
Qed.

(** C1, on the code.  From page 1 of the results for "cats", [next_page]
    asks for page 2, which is empty: the page number is put back to 1, but
    the result list is the empty one that [do_search] stored, not the list
    shown before the attempt. *)
Theorem next_page_drops_results :
  results cats_page1 = [cat_video]
  ∧ page cats_page1 = 1
  ∧ (page <$> final_app (next_page cats_page1 one_page_world)) = Some 1
  ∧ (results <$> final_app (next_page cats_page1 one_page_world)) = Some []
  ∧ (status <$> final_app (next_page cats_page1 one_page_world))
    = Some "No more results (rolled back to previous page).".
Proof. vm_compute. repeat split. Qed.

End Pagination.

(** ** Favorites *)

Section Favorites.

Lemma filter_keeps_all {A} (q : A → bool) (l : list A) :
  existsb (λ x, negb (q x)) l = false → List.filter q l = l.
Proof.
  induction l as [|x l IH]; simpl; [done|].
  intros [Hx Hl]%orb_false_iff. apply negb_false_iff in Hx. rewrite Hx.
  by rewrite IH.
Qed.

Lemma existsb_negb_negb {A} (q : A → bool) (l : list A) :
  existsb (λ x, negb (negb (q x))) l = existsb q l.
Proof. induction l as [|x l IH]; simpl; [done|]. by rewrite negb_involutive, IH. Qed.

Lemma favs_eta (f : Favs) : mkFavs (fav_items f) (fav_files f) (fav_folders f) = f.
Proof. by destruct f. Qed.

Lemma file_fav_key_strip (i f : string) :
  file_fav_key (Str.strip i) (Str.strip f) = file_fav_key i f.
Proof. unfold file_fav_key. by rewrite !strip_idem. Qed.

Lemma is_fav_item_strip (st : App) (i : string) :
  is_fav_item st (Str.strip i) = is_fav_item st i.
Proof. unfold is_fav_item. by rewrite strip_idem. Qed.

Lemma is_fav_file_strip (st : App) (i f : string) :
  is_fav_file st (Str.strip i) (Str.strip f) = is_fav_file st i f.
Proof. unfold is_fav_file. by rewrite file_fav_key_strip. Qed.

Lemma save_favs_run (st : App) (w : World) : save_favs st w = Ret tt st (saved st w).
Proof. unfold save_favs, saved. method_steps. by destruct (disk_ok w). Qed.

Lemma toggle_item_adds (st : App) (w : World) (r : SearchResult) :
  Str.strip (identifier r) ≠ EmptyString →
  is_fav_item st (identifier r) = false →
  let st1 :=
    set_status "Added favorite item."
      (set_favs (set_fav_items
                   (mkFavItem (identifier r) (title r) (year r) (creator r)
                    :: fav_items (favs st)) (favs st)) st) in
  toggle_fav_item r st w = Ret tt st1 (saved st1 w).
Proof.
  intros Hne Hnot st1. unfold toggle_fav_item.
  destruct (Str.strip (identifier r)) as [|c i] eqn:Ei; [done|].
  cbn [Str.is_empty]. rewrite <- Ei.
  unfold bind at 1. unfold self at 1. unfold bind at 1.
  rewrite is_fav_item_strip, Hnot. method_steps. apply save_favs_run.
Qed.

Lemma toggle_item_removes (st : App) (w : World) (r : SearchResult) :
  Str.strip (identifier r) ≠ EmptyString →
  is_fav_item st (identifier r) = true →
  let st1 :=
    set_status "Removed favorite item."
      (set_favs (set_fav_items
                   (List.filter
                      (λ it, negb (String.eqb (Str.strip (fi_identifier it))
                                     (Str.strip (identifier r))))
                      (fav_items (favs st))) (favs st)) st) in
  toggle_fav_item r st w = Ret tt st1 (saved st1 w).
Proof.
  intros Hne Hfav st1. unfold toggle_fav_item.
  destruct (Str.strip (identifier r)) as [|c i] eqn:Ei; [done|].
  cbn [Str.is_empty]. subst st1. rewrite <- Ei.
  unfold bind at 1. unfold self at 1. unfold bind at 1.
  rewrite is_fav_item_strip, Hfav. method_steps. apply save_favs_run.
Qed.

Lemma toggle_item_twice (st : App) (w : World) (r : SearchResult) :
  is_fav_item st (identifier r) = false →
  ∃ st2 w2, twice (toggle_fav_item r) st w = Ret tt st2 w2 ∧ favs st2 = favs st.
Proof.
  intros Hnot. unfold twice.
  destruct (Str.strip (identifier r)) as [|c i] eqn:Ei.
  { unfold toggle_fav_item. rewrite Ei. simpl. method_steps. eauto. }
  assert (Hne : Str.strip (identifier r) ≠ EmptyString) by (by rewrite Ei).
  unfold bind. rewrite (toggle_item_adds st w r Hne Hnot).
  rewrite toggle_item_removes; [|done|].
  - do 2 eexists. split; [reflexivity|]. simpl.
    rewrite String.eqb_refl. simpl.
    rewrite filter_keeps_all; [unfold set_fav_items, set_fav_files; simpl; apply favs_eta|].
    rewrite existsb_negb_negb. unfold is_fav_item in Hnot. exact Hnot.
  - unfold is_fav_item. simpl. by rewrite String.eqb_refl.
Qed.

Lemma toggle_file_adds (st : App) (w : World) (item : SearchResult) (f : IAFile) :
  Str.strip (identifier item) ≠ EmptyString →
  Str.strip (name f) ≠ EmptyString →
  is_fav_file st (identifier item) (name f) = false →
  let st1 :=
    set_status "Added favorite file."
      (set_favs (set_fav_files
                   (mkFavFile (identifier item) (title item) (year item)
                      (creator item) (name f) (size f) (fmt f)
                    :: fav_files (favs st)) (favs st)) st) in
  toggle_fav_file item f st w = Ret tt st1 (saved st1 w).
Proof.
  intros Hi Hf Hnot st1. unfold toggle_fav_file.
  destruct (Str.strip (identifier item)) as [|c i] eqn:Ei; [done|].
  destruct (Str.strip (name f)) as [|d n] eqn:En; [done|].
  cbn [Str.is_empty orb]. rewrite <- Ei, <- En.
  unfold bind at 1. unfold self at 1. unfold bind at 1.
  rewrite is_fav_file_strip, Hnot. method_steps. apply save_favs_run.
Qed.

Lemma toggle_file_removes (st : App) (w : World) (item : SearchResult) (f : IAFile) :
  Str.strip (identifier item) ≠ EmptyString →
  Str.strip (name f) ≠ EmptyString →
  is_fav_file st (identifier item) (name f) = true →
  let st1 :=
    set_status "Removed favorite file."
      (set_favs (set_fav_files
                   (List.filter
                      (λ it, negb (String.eqb
                                     (file_fav_key (ff_identifier it) (ff_filename it))
                                     (file_fav_key (identifier item) (name f))))
                      (fav_files (favs st))) (favs st)) st) in
  toggle_fav_file item f st w = Ret tt st1 (saved st1 w).
Proof.
  intros Hi Hf Hfav st1. unfold toggle_fav_file.
  destruct (Str.strip (identifier item)) as [|c i] eqn:Ei; [done|].
  destruct (Str.strip (name f)) as [|d n] eqn:En; [done|].
  cbn [Str.is_empty orb]. subst st1. rewrite <- Ei, <- En.
  unfold bind at 1. unfold self at 1. unfold bind at 1.
  rewrite is_fav_file_strip, Hfav, file_fav_key_strip.
  method_steps. apply save_favs_run.
Qed.

Lemma toggle_file_twice (st : App) (w : World) (item : SearchResult) (f : IAFile) :
  is_fav_file st (identifier item) (name f) = false →
  ∃ st2 w2, twice (toggle_fav_file item f) st w = Ret tt st2 w2 ∧ favs st2 = favs st.
Proof.
  intros Hnot. unfold twice.
  destruct (Str.is_empty (Str.strip (identifier item))
            || Str.is_empty (Str.strip (name f))) eqn:Ee.
  { unfold toggle_fav_file. rewrite Ee. method_steps. eauto. }
  apply orb_false_iff in Ee as [Hi Hf].
  assert (Hi' : Str.strip (identifier item) ≠ EmptyString)
    by (intros E; by rewrite E in Hi).
  assert (Hf' : Str.strip (name f) ≠ EmptyString)
    by (intros E; by rewrite E in Hf).
  unfold bind. rewrite (toggle_file_adds st w item f Hi' Hf' Hnot).
  rewrite toggle_file_removes; [|done|done|].
  - do 2 eexists. split; [reflexivity|]. simpl.
    rewrite String.eqb_refl. simpl.
    rewrite filter_keeps_all; [unfold set_fav_items, set_fav_files; simpl; apply favs_eta|].
    rewrite existsb_negb_negb. unfold is_fav_file in Hnot. exact Hnot.
  - unfold is_fav_file. simpl. by rewrite String.eqb_refl.
Qed.

(** When the favorites file can be written, it holds the restored store
    after the second toggle. *)
Lemma toggle_item_twice_on_disk (st : App) (w : World) (r : SearchResult) :
  Str.strip (identifier r) ≠ EmptyString →
  is_fav_item st (identifier r) = false →
  disk_ok w = true →
  (favs_disk <$> final_world (twice (toggle_fav_item r) st w)) = Some (Some (favs st)).
Proof.
  intros Hne Hnot Hok. unfold twice, bind.
  rewrite (toggle_item_adds st w r Hne Hnot).
  rewrite toggle_item_removes; [|done|].
  - unfold saved at 1. simpl.
    assert (Hok' : ∀ st1, disk_ok (saved st1 w) = true).
    { intros st1. unfold saved. by rewrite Hok. }
    rewrite Hok'. simpl. rewrite String.eqb_refl. simpl.
    rewrite filter_keeps_all;
      [unfold set_fav_items; simpl; by rewrite favs_eta|].
    rewrite existsb_negb_negb. exact Hnot.
  - unfold is_fav_item. simpl. by rewrite String.eqb_refl.
Qed.

(** C8. Whatever the store holds, toggling an item that is not yet a
    favorite twice in a row (which adds it, then removes it) returns with
    the store as it was before; so does toggling a file whose
    identifier+filename key is not yet a favorite. *)
Theorem toggle_twice_restores_store :
  (∀ (st : App) (w : World) (r : SearchResult),
     is_fav_item st (identifier r) = false →
     (favs <$> final_app (twice (toggle_fav_item r) st w)) = Some (favs st))
  ∧ (∀ (st : App) (w : World) (item : SearchResult) (f : IAFile),
       is_fav_file st (identifier item) (name f) = false →
       (favs <$> final_app (twice (toggle_fav_file item f) st w)) = Some (favs st)).
Proof.
  split.
  - intros st w r H. destruct (toggle_item_twice st w r H) as (st2 & w2 & -> & E).
    simpl. by rewrite E.
  - intros st w item f H. destruct (toggle_file_twice st w item f H) as (st2 & w2 & -> & E).
    simpl. by rewrite E.
Qed.

Lemma toggle_twice_restores_store_witness :
  (favs <$> final_app (twice (toggle_fav_item cat_video) cats_with_favs one_page_world))
  = Some (favs cats_with_favs)
  ∧ (favs <$> final_app (twice (toggle_fav_file cat_video cat_file) cats_with_favs
                           one_page_world))
    = Some (favs cats_with_favs).
Proof.
  split.
  - apply (proj1 toggle_twice_restores_store). vm_compute. reflexivity.
  - apply (proj2 toggle_twice_restores_store). vm_compute. reflexivity.
Defined.

(** In between, the item is a favorite: the first toggle adds it. *)
Example first_toggle_adds :
  (λ st, is_fav_item st (identifier cat_video))
    <$> final_app (toggle_fav_item cat_video cats_with_favs one_page_world)
  = Some true
  ∧ (λ st, is_fav_file st (identifier cat_video) (name cat_file))
      <$> final_app (toggle_fav_file cat_video cat_file cats_with_favs one_page_world)
    = Some true.
Proof. vm_compute. split; reflexivity. Qed.

End Favorites.

(** ** Download loop *)

Section Download.

Variables (identifier filename : string) (expected_size : Z).

(** One round of the loop for a single file. *)
Lemma one_round_run (st : App) (w : World) (t : tick) (ts : list tick) :
  child_ticks w = t :: ts →
  let w1 := after_poll t ts w in
  let st' :=
    after_render w1
      (after_cancel_key (next_key w1)
         (set_dl_current_written
            (safe_getsize w1 (staging_file_path identifier filename)) st)) in
  let w' := after_getch w1 in
  one_round identifier filename expected_size st w
  = Ret (match tk_rc t with
         | None => None
         | Some rc =>
             Some (match child_exit_result st' w' rc with
                   | Some r => r
                   | None => _verify_expected_size w' identifier filename expected_size
                   end)
         end) st' w'.
Proof.
  intros Ht w1 st' w'. subst st' w'.
  unfold one_round, poll, getch_nodelay, render. method_steps. rewrite Ht.
  fold (after_poll t ts w). fold w1.
  unfold after_getch, next_key, after_cancel_key, after_render.
  assert (Hsz : ∀ ks, term_too_small (set_keys ks w1) = term_too_small w1) by done.
  destruct (keys w1) as [|k ks] eqn:Ek; method_steps;
    destruct (is_cancel_key _) eqn:Ec; method_steps; rewrite ?Hsz;
    destruct (term_too_small w1) eqn:Es; method_steps;
    destruct (tk_rc t) as [rc|]; try reflexivity;
    method_steps;
    destruct (child_exit_result _ _ rc) as [r|]; try reflexivity;
    unfold _verify_expected_size;
    destruct (expected_size <=? 0); try reflexivity;
    destruct (negb _); reflexivity.
Qed.

(** One round of the loop for a glob. *)
Lemma glob_round_run (st : App) (w : World) (t : tick) (ts : list tick) :
  child_ticks w = t :: ts →
  let w1 := after_poll t ts w in
  let st' :=
    after_render w1
      (after_cancel_key (next_key w1)
         (set_dl_current_written
            (FS.dir_total_size (fs w1) (staging_identifier_dir identifier)) st)) in
  let w' := after_getch w1 in
  glob_round identifier st w
  = Ret (match tk_rc t with
         | None => None
         | Some rc =>
             Some (match child_exit_result st' w' rc with
                   | Some r => r
                   | None => (true, EmptyString)
                   end)
         end) st' w'.
Proof.
  intros Ht w1 st' w'. subst st' w'.
  unfold glob_round, poll, getch_nodelay, render. method_steps. rewrite Ht.
  fold (after_poll t ts w). fold w1.
  unfold after_getch, next_key, after_cancel_key, after_render.
  assert (Hsz : ∀ ks, term_too_small (set_keys ks w1) = term_too_small w1) by done.
  destruct (keys w1) as [|k ks] eqn:Ek; method_steps;
    destruct (is_cancel_key _) eqn:Ec; method_steps; rewrite ?Hsz;
    destruct (term_too_small w1) eqn:Es; method_steps;
    destruct (tk_rc t) as [rc|]; try reflexivity;
    method_steps;
    destruct (child_exit_result _ _ rc) as [r|]; reflexivity.
Qed.

End Download.

Section Loops.

Lemma cancel_flag_after_round (w : World) (k : Z) (v : Z) (st : App) :
  dl_cancel_requested (after_render w (after_cancel_key k (set_dl_current_written v st)))
  = dl_cancel_requested st || is_cancel_key k.
Proof.
  unfold after_render, after_cancel_key.
  destruct (term_too_small w), (is_cancel_key k); simpl;
    by rewrite ?orb_true_r, ?orb_false_r.
Qed.

Lemma world_after_round (t : tick) (ts : list tick) (w : World) :
  let w' := after_getch (after_poll t ts w) in
  child_ticks w' = ts
  ∧ fs w' = FS.write_all (fs w) (tk_writes t)
  ∧ keys w' = tl (keys w)
  ∧ next_key (after_poll t ts w) = next_key w.
Proof.
  unfold after_getch, after_poll, next_key. simpl.
  destruct (keys w) eqn:E; simpl; rewrite ?E; repeat split; reflexivity.
Qed.

Lemma cancel_pressed_step (n : nat) (w : World) :
  cancel_pressed (S n) (keys w) = is_cancel_key (next_key w) && negb (is_nil (keys w))
                                  || cancel_pressed n (tl (keys w)).
Proof.
  unfold cancel_pressed, next_key. destruct (keys w) as [|k ks]; simpl.
  - by destruct n.
  - by rewrite andb_true_r.
Qed.

Lemma cancel_pressed_cases (n : nat) (w : World) (flag : bool) :
  flag = true ∨ cancel_pressed (S n) (keys w) = true →
  flag || is_cancel_key (next_key w) = true
  ∨ cancel_pressed n (tl (keys w)) = true.
Proof.
  intros [-> | H]; [by left|].
  rewrite cancel_pressed_step in H. apply orb_true_iff in H as [H | H]; [|by right].
  apply andb_true_iff in H as [H _]. left. by rewrite H, orb_true_r.
Qed.

Lemma not_pressed_cases (n : nat) (w : World) :
  cancel_pressed (S n) (keys w) = false →
  is_cancel_key (next_key w) = false ∧ cancel_pressed n (tl (keys w)) = false.
Proof.
  rewrite cancel_pressed_step. intros [H1 H2]%orb_false_iff. split; [|done].
  unfold next_key in *. destruct (keys w); simpl in *; [done|].
  by rewrite andb_true_r in H1.
Qed.

Variables (ident fname glob_pat : string) (expected : Z).

(** Once cancellation is requested, the loop for one file ends in
    "Canceled." when the child is seen to have exited. *)
Lemma one_loop_canceled (pre : list tick) :
  ∀ (st : App) (w : World) (ex : tick) (rest : list tick) (rc : Z) (n : nat),
    child_ticks w = pre ++ ex :: rest →
    Forall running pre →
    tk_rc ex = Some rc →
    dl_cancel_requested st = true ∨ cancel_pressed (S (length pre)) (keys w) = true →
    (length pre < n)%nat →
    returned (one_loop n ident fname expected st w) = Some (false, "Canceled.").
Proof.
  induction pre as [|t pre IH]; intros st w ex rest rc n Hticks Hrun Hrc Hc Hn;
    (destruct n as [|n]; [simpl in Hn; lia|]); cbn [one_loop]; unfold bind.
  - rewrite (one_round_run ident fname expected st w ex rest Hticks). rewrite Hrc.
    cbn [ret returned]. f_equal. unfold child_exit_result.
    rewrite cancel_flag_after_round.
    destruct (world_after_round ex rest w) as (_ & _ & _ & ->).
    apply (cancel_pressed_cases 0 w) in Hc as [-> | Hc]; [done|].
    by destruct (tl (keys w)).
  - rewrite (one_round_run ident fname expected st w t (pre ++ ex :: rest) Hticks).
    apply Forall_cons in Hrun as [Ht Hrun]. rewrite Ht.
    destruct (world_after_round t (pre ++ ex :: rest) w) as (Hticks' & _ & Hkeys & Hnext).
    eapply IH; eauto.
    + rewrite cancel_flag_after_round, Hnext, Hkeys.
      by apply cancel_pressed_cases.
    + simpl in Hn. lia.
Qed.

Lemma glob_loop_canceled (pre : list tick) :
  ∀ (st : App) (w : World) (ex : tick) (rest : list tick) (rc : Z) (n : nat),
    child_ticks w = pre ++ ex :: rest →
    Forall running pre →
    tk_rc ex = Some rc →
    dl_cancel_requested st = true ∨ cancel_pressed (S (length pre)) (keys w) = true →
    (length pre < n)%nat →
    returned (glob_loop n ident st w) = Some (false, "Canceled.").
Proof.
  induction pre as [|t pre IH]; intros st w ex rest rc n Hticks Hrun Hrc Hc Hn;
    (destruct n as [|n]; [simpl in Hn; lia|]); cbn [glob_loop]; unfold bind.
  - rewrite (glob_round_run ident st w ex rest Hticks). rewrite Hrc.
    cbn [ret returned]. f_equal. unfold child_exit_result.
    rewrite cancel_flag_after_round.
    destruct (world_after_round ex rest w) as (_ & _ & _ & ->).
    apply (cancel_pressed_cases 0 w) in Hc as [-> | Hc]; [done|].
    by destruct (tl (keys w)).
  - rewrite (glob_round_run ident st w t (pre ++ ex :: rest) Hticks).
    apply Forall_cons in Hrun as [Ht Hrun]. rewrite Ht.
    destruct (world_after_round t (pre ++ ex :: rest) w) as (Hticks' & _ & Hkeys & Hnext).
    eapply IH; eauto.
    + rewrite cancel_flag_after_round, Hnext, Hkeys.
      by apply cancel_pressed_cases.
    + simpl in Hn. lia.
Qed.

(** Without a cancel key, a child that exits with code 0 leaves the
    verdict to the size check, made on the disk as the child left it. *)
Lemma one_loop_clean_exit (pre : list tick) :
  ∀ (st : App) (w : World) (ex : tick) (rest : list tick) (n : nat),
    child_ticks w = pre ++ ex :: rest →
    Forall running pre →
    tk_rc ex = Some 0 →
    dl_cancel_requested st = false →
    cancel_pressed (S (length pre)) (keys w) = false →
    (length pre < n)%nat →
    ∃ st' w',
      one_loop n ident fname expected st w
      = Ret (_verify_expected_size w' ident fname expected) st' w'
      ∧ fs w' = disk_after (pre ++ [ex]) (fs w).
Proof.
  induction pre as [|t pre IH]; intros st w ex rest n Hticks Hrun Hrc Hflag Hc Hn;
    (destruct n as [|n]; [simpl in Hn; lia|]); cbn [one_loop]; unfold bind.
  - rewrite (one_round_run ident fname expected st w ex rest Hticks). rewrite Hrc.
    unfold child_exit_result at 1. rewrite cancel_flag_after_round.
    destruct (world_after_round ex rest w) as (_ & Hfs & _ & ->).
    apply not_pressed_cases in Hc as [-> _]. rewrite Hflag. simpl.
    do 2 eexists. split; [reflexivity|]. exact Hfs.
  - rewrite (one_round_run ident fname expected st w t (pre ++ ex :: rest) Hticks).
    apply Forall_cons in Hrun as [Ht Hrun]. rewrite Ht.
    destruct (world_after_round t (pre ++ ex :: rest) w) as (Hticks' & Hfs & Hkeys & Hnext).
    apply not_pressed_cases in Hc as [Hk Hc]. cbn beta iota.
    lazymatch goal with
    | |- context [one_loop n _ _ _ ?s ?w1] =>
        destruct (IH s w1 ex rest n Hticks' Hrun Hrc) as (st' & w' & -> & Hfs')
    end.
    + by rewrite cancel_flag_after_round, Hnext, Hk, Hflag.
    + by rewrite Hkeys.
    + simpl in Hn. lia.
    + do 2 eexists. split; [reflexivity|]. rewrite Hfs', Hfs. reflexivity.
Qed.

End Loops.

Section Transfers.

Variables (ident fname glob_pat : string) (expected : Z).

(** The object when the polling loop starts. *)
Lemma download_one_starts (st : App) (w : World) (fs0 : gmap string node) :
  FS.makedirs (fs w) STAGING_ROOT = Some fs0 →
  spawn_error w = None →
  _download_one_with_progress ident fname expected st w
  = one_loop (length (child_ticks w)) ident fname expected
      (set_dl_current_written 0
         (set_dl_current_total expected
            (set_dl_current_name fname (set_dl_cancel_requested false st))))
      (set_fs fs0 w).
Proof.
  intros Hmk Hsp. unfold _download_one_with_progress, makedirs.
  method_steps. rewrite Hmk. method_steps. simpl. rewrite Hsp. reflexivity.
Qed.

Lemma download_glob_starts (st : App) (w : World) (fs0 fs1 : gmap string node) :
  FS.makedirs (fs w) STAGING_ROOT = Some fs0 →
  FS.makedirs fs0 (staging_identifier_dir ident) = Some fs1 →
  spawn_error w = None →
  _download_glob_with_progress ident glob_pat expected st w
  = glob_loop (length (child_ticks w)) ident
      (set_dl_current_written 0
         (set_dl_current_total expected
            (set_dl_current_name ("--glob " +:+ glob_pat)
               (set_dl_cancel_requested false st))))
      (set_fs fs1 (set_fs fs0 w)).
Proof.
  intros Hmk0 Hmk1 Hsp. unfold _download_glob_with_progress, makedirs.
  method_steps. rewrite Hmk0. method_steps. simpl. rewrite Hmk1.
  method_steps. simpl. rewrite Hsp. reflexivity.
Qed.

(** C6. In a transfer whose child was started and is seen running for some
    polls and then exited, a cancel key read in one of these rounds makes
    the result "Canceled." (a failure), whatever the exit code and whatever
    is on disk; this holds for the transfer of one file and for the glob
    transfer. *)
Theorem cancel_overrides_exit
    (st : App) (w : World) (pre : list tick) (ex : tick) (rest : list tick) (rc : Z) :
  spawn_error w = None →
  child_ticks w = pre ++ ex :: rest →
  Forall running pre →
  tk_rc ex = Some rc →
  cancel_pressed (S (length pre)) (keys w) = true →
  (is_Some (FS.makedirs (fs w) STAGING_ROOT) →
   returned (_download_one_with_progress ident fname expected st w)
   = Some (false, "Canceled."))
  ∧ (is_Some (FS.makedirs (fs w) STAGING_ROOT ≫= λ fs0,
                FS.makedirs fs0 (staging_identifier_dir ident)) →
     returned (_download_glob_with_progress ident glob_pat expected st w)
     = Some (false, "Canceled.")).
Proof.
  intros Hsp Hticks Hrun Hrc Hc.
  assert (Hn : (length pre < length (child_ticks w))%nat).
  { rewrite Hticks, length_app. simpl. lia. }
  split.
  - intros [fs0 Hmk]. rewrite (download_one_starts st w fs0 Hmk Hsp).
    eapply one_loop_canceled; eauto.
  - intros [fs1 Hmk]. destruct (FS.makedirs (fs w) STAGING_ROOT) as [fs0|] eqn:Hmk0;
      [|done]. simpl in Hmk.
    rewrite (download_glob_starts st w fs0 fs1 Hmk0 Hmk Hsp).
    eapply glob_loop_canceled; eauto.
Qed.

(** C5.  In a transfer of one file whose child was started, is seen running
    for some polls and then exited with code 0, where no cancel key was read
    (the size check is the last branch, after the tests for a cancellation
    and for the exit code) and the expected size is a size in bytes, not
    negative: if the expected size is not 0 and differs from the size of the
    staged file, the result is a failure with the size-mismatch text, not a
    success; if the expected size is 0 the check is skipped and the result
    is success.  The text is stated for sizes a float can hold (the code
    converts them with [float], which raises from about 2^1024 on). *)
Theorem size_mismatch_is_failure
    (st : App) (w : World) (fs0 : gmap string node)
    (pre : list tick) (ex : tick) (rest : list tick) :
  FS.makedirs (fs w) STAGING_ROOT = Some fs0 →
  spawn_error w = None →
  child_ticks w = pre ++ ex :: rest →
  Forall running pre →
  tk_rc ex = Some 0 →
  cancel_pressed (S (length pre)) (keys w) = false →
  0 ≤ expected →
  let actual := FS.getsize (disk_after (pre ++ [ex]) fs0) (staging_file_path ident fname) in
  (expected ≠ 0 → actual ≠ expected →
   expected < 2 ^ 1023 → actual < 2 ^ 1023 →
   returned (_download_one_with_progress ident fname expected st w)
   = Some (false, size_mismatch fname actual expected))
  ∧ (expected = 0 →
     returned (_download_one_with_progress ident fname expected st w)
     = Some (true, EmptyString)).
Proof.
  intros Hmk Hsp Hticks Hrun Hrc Hc Hpos actual.
  assert (Hn : (length pre < length (child_ticks w))%nat).
  { rewrite Hticks, length_app. simpl. lia. }
  rewrite (download_one_starts st w fs0 Hmk Hsp).
  edestruct (one_loop_clean_exit ident fname expected pre) as (st' & w' & -> & Hfs);
    [exact Hticks|exact Hrun|exact Hrc|reflexivity|exact Hc|exact Hn|].
  simpl in Hfs. cbn [returned].
  unfold _verify_expected_size, safe_getsize. rewrite Hfs. fold actual.
  split.
  - intros Hnz Hne _ _. destruct (expected <=? 0) eqn:E; [lia|].
    destruct (actual =? expected) eqn:E'; [lia|]. reflexivity.
  - intros ->. reflexivity.
Qed.

(** The size check is also skipped for an expected size below 0. *)
Lemma negative_size_skips_check (w : World) (n : Z) :
  n < 0 → _verify_expected_size w ident fname n = (true, EmptyString).
Proof.
  intros Hn. unfold _verify_expected_size.
  destruct (n <=? 0) eqn:E; [reflexivity|lia].
Qed.

End Transfers.

Lemma size_mismatch_is_failure_witness :
  returned (_download_one_with_progress "item1" "a.bin" 7 fresh_app short_download)
  = Some (false, size_mismatch "a.bin" 6 7)
  ∧ returned (_download_one_with_progress "item1" "a.bin" 0 fresh_app short_download)
    = Some (true, EmptyString).
Proof.
  assert (H1 : FS.makedirs (fs short_download) STAGING_ROOT
               = Some (default ∅ (FS.makedirs ∅ STAGING_ROOT)))
    by (vm_compute; reflexivity).
  assert (H2 : spawn_error short_download = None) by reflexivity.
  assert (H3 : child_ticks short_download
               = [mkTick [("/mnt/ssd/media/.ia_staging/item1/a.bin", "abc")] None]
                 ++ mkTick [("/mnt/ssd/media/.ia_staging/item1/a.bin", "abcdef")] (Some 0)
                    :: []) by reflexivity.
  assert (H4 : Forall running
                 [mkTick [("/mnt/ssd/media/.ia_staging/item1/a.bin", "abc")] None])
    by (repeat constructor).
  assert (H5 : cancel_pressed 2 (keys short_download) = false) by reflexivity.
  split.
  - destruct (size_mismatch_is_failure "item1" "a.bin" 7 fresh_app short_download
                _ _ _ _ H1 H2 H3 H4 eq_refl H5) as [H _]; [lia|].
    assert (Hsize : FS.getsize
              (disk_after
                 ([mkTick [("/mnt/ssd/media/.ia_staging/item1/a.bin", "abc")] None]
                  ++ [mkTick [("/mnt/ssd/media/.ia_staging/item1/a.bin", "abcdef")]
                        (Some 0)])
                 (default ∅ (FS.makedirs ∅ STAGING_ROOT)))
              (staging_file_path "item1" "a.bin") = 6) by (vm_compute; reflexivity).
    rewrite Hsize in H. apply H; [lia|lia|reflexivity|reflexivity].
  - destruct (size_mismatch_is_failure "item1" "a.bin" 0 fresh_app short_download
                _ _ _ _ H1 H2 H3 H4 eq_refl H5) as [_ H]; [lia|].
    apply H. reflexivity.
Defined.

Lemma cancel_overrides_exit_witness :
  returned (_download_one_with_progress "item1" "a.bin" 7 fresh_app canceled_download)
  = Some (false, "Canceled.")
  ∧ returned (_download_glob_with_progress "item1" "a*" 7 fresh_app canceled_download)
    = Some (false, "Canceled.").
Proof.
  destruct (cancel_overrides_exit "item1" "a.bin" "a*" 7 fresh_app canceled_download
              [mkTick [("/mnt/ssd/media/.ia_staging/item1/a.bin", "abc")] None]
              (mkTick [("/mnt/ssd/media/.ia_staging/item1/a.bin", "abcdef")] (Some 0))
              [] 0) as [H1 H2].
  - reflexivity.
  - reflexivity.
  - repeat constructor.
  - reflexivity.
  - vm_compute. reflexivity.
  - split.
    + apply H1. vm_compute. eexists. reflexivity.
    + apply H2. vm_compute. eexists. reflexivity.
Defined.

(** The cancel test comes first: the child exits with code 0 and leaves 6
    bytes where 7 were expected, but the key [c] was pressed while it ran;
    the transfer is reported as canceled, and the size check is not made. *)
Lemma canceled_transfer_is_not_a_size_mismatch :
  spawn_error canceled_download = None
  ∧ List.map tk_rc (child_ticks canceled_download) = [None; Some 0]
  ∧ (FS.getsize (disk_after (child_ticks canceled_download) ∅)
       (staging_file_path "item1" "a.bin") = 6 ∧ 6 ≠ 7)
  ∧ returned (_download_one_with_progress "item1" "a.bin" 7 fresh_app canceled_download)
    = Some (false, "Canceled.")
  ∧ returned (_download_one_with_progress "item1" "a.bin" 7 fresh_app canceled_download)
    ≠ Some (false, size_mismatch "a.bin" 6 7).
Proof. vm_compute. repeat split; discriminate || reflexivity || lia. Qed.

(** ** Import *)

Section ImportFacts.

Lemma take_drop_str (n : nat) (s : string) : Str.take n s +:+ Str.drop n s = s.
Proof.
  revert n. induction s as [|c s IH]; intros [|n]; try reflexivity.
  change (String c (Str.take n s +:+ Str.drop n s) = String c s). by rewrite IH.
Qed.

Lemma append_empty_r (s : string) : s +:+ EmptyString = s.
Proof.
  induction s as [|c s IH]; [reflexivity|].
  change (String c (s +:+ EmptyString) = String c s). by rewrite IH.
Qed.

Lemma length_append_str (a b : string) :
  String.length (a +:+ b) = (String.length a + String.length b)%nat.
Proof.
  induction a as [|c a IH]; [reflexivity|].
  change (S (String.length (a +:+ b)) = S (String.length a + String.length b)).
  by rewrite IH.
Qed.

(** [splitext] cuts the path in two. *)
Lemma splitext_parts (p : string) :
  fst (Path.splitext p) +:+ snd (Path.splitext p) = p.
Proof.
  unfold Path.splitext.
  destruct (_ && _); simpl; [apply take_drop_str|apply append_empty_r].
Qed.

(** The stamped name is another path than the destination. *)
Lemma stamped_path_differs (stamp final_path : string) :
  stamped_path stamp final_path ≠ final_path.
Proof.
  unfold stamped_path. intros E.
  apply (f_equal String.length) in E.
  rewrite <- (splitext_parts final_path) in E at 3.
  rewrite !length_append_str in E. simpl in E. lia.
Qed.

Lemma avoid_collision_run (st : App) (w : World) (final_path : string) :
  avoid_collision final_path st w
  = Ret (if FS.exists_ (fs w) final_path
         then stamped_path (clock_stamp w) final_path else final_path) st w.
Proof.
  unfold avoid_collision, stamped_path. method_steps.
  destruct (FS.exists_ (fs w) final_path); [|reflexivity].
  by destruct (Path.splitext final_path).
Qed.

(** What holds of every import into a destination that exists, while the
    stamped name is free: the staged file goes to the stamped name and the
    rest of the disk, the destination included, stays as it is. *)
Lemma import_beside_existing (st : App) (w : World)
    (staging_path final_path data : string) :
  fs w !! staging_path = Some (File data) →
  FS.exists_ (fs w) final_path = true →
  let target := stamped_path (clock_stamp w) final_path in
  FS.exists_ (fs w) target = false →
  FS.parent_ok (fs w) target = true →
  ∃ w', finish_import staging_path final_path st w
        = Ret ("Saved: " +:+ target) st w'
        ∧ target ≠ final_path
        ∧ fs w' !! target = Some (File data)
        ∧ fs w' !! staging_path = None
        ∧ (∀ p, p ≠ staging_path → p ≠ target → fs w' !! p = fs w !! p).
Proof.
  intros Hsrc Hex target Hfree Hparent.
  assert (Hne : target ≠ staging_path).
  { intros E. unfold FS.exists_ in Hfree. by rewrite E, Hsrc in Hfree. }
  unfold finish_import. unfold bind at 1. rewrite avoid_collision_run, Hex.
  fold target. unfold move. method_steps. unfold FS.move. rewrite Hsrc.
  assert (Hnd : FS.isdir (fs w) target = false).
  { unfold FS.isdir, FS.exists_ in *. by destruct (fs w !! target). }
  rewrite Hnd. simpl. rewrite Hparent. simpl.
  eexists. split; [reflexivity|]. simpl.
  split; [apply stamped_path_differs|].
  split; [apply lookup_insert_eq|].
  split.
  - rewrite lookup_insert_ne by done. apply lookup_delete_eq.
  - intros p Hp1 Hp2. rewrite lookup_insert_ne by done. by apply lookup_delete_ne.
Qed.

(** C7, on the code.  Three files of one item are renamed to the same
    episode name and imported within one second.  The first import takes the
    name, the second the stamped name, and the third takes the stamped name
    again: the file of the second import is overwritten. *)
Theorem third_import_overwrites_second :
  returned (three_imports fresh_app three_imports_world)
  = Some
      [ "Saved: " +:+ episode_path;
        "Saved: " +:+ stamped_path "20261103_120000" episode_path;
        "Saved: " +:+ stamped_path "20261103_120000" episode_path ]
  ∧ disk_of (two_imports fresh_app three_imports_world)
      !! stamped_path "20261103_120000" episode_path = Some (File "second")
  ∧ disk_of (three_imports fresh_app three_imports_world)
      !! stamped_path "20261103_120000" episode_path = Some (File "third")
  ∧ disk_of (three_imports fresh_app three_imports_world) !! episode_path
    = Some (File "first")
  ∧ file_data (disk_of (three_imports fresh_app three_imports_world))
    = ["third"; "first"].
Proof. vm_compute. repeat split; reflexivity. Qed.

End ImportFacts.

(** ** Destination folders *)

Section Destinations.

Lemma bind_ret_inv {A B} (m : M A) (k : A → M B) (st : App) (w : World)
    (b : B) (st' : App) (w' : World) :
  bind m k st w = Ret b st' w' →
  ∃ a st1 w1, m st w = Ret a st1 w1 ∧ k a st1 w1 = Ret b st' w'.
Proof.
  unfold bind. destruct (m st w) as [a st1 w1| |]; [|done|done].
  intros H. by exists a, st1, w1.
Qed.

(** Whatever the user types or picks, the folder name a branch goes on
    with is a result of [sanitize_folder]. *)
Lemma ask_folder_sanitized (bucket label default_ folder : string)
    (st st' : App) (w w' : World) :
  ask_folder bucket label default_ st w = Ret (Some folder) st' w' →
  ∃ x, folder = sanitize_folder x.
Proof.
  unfold ask_folder. intros H.
  apply bind_ret_inv in H as (answer & st1 & w1 & _ & H).
  destruct answer as [typed|]; [|by inversion H].
  apply bind_ret_inv in H as (chosen & st2 & w2 & _ & H).
  apply bind_ret_inv in H as ([] & st3 & w3 & _ & H).
  inversion H. by exists chosen.
Qed.

Lemma place_movies_dir (staging_path filename item_title dir final_path : string)
    (st st' : App) (w w' : World) :
  place_movies staging_path filename item_title st w = Ret (inl (dir, final_path)) st' w' →
  ∃ x, dir = Path.join BUCKET_MOVIES (sanitize_folder x).
Proof.
  unfold place_movies. intros H.
  apply bind_ret_inv in H as (movie & st1 & w1 & Hask & H).
  destruct movie as [movie|]; [|by inversion H].
  apply ask_folder_sanitized in Hask as [x ->].
  apply bind_ret_inv in H as ([] & st2 & w2 & _ & H).
  inversion H. by exists x.
Qed.

Lemma place_other_dir (staging_path filename dir final_path : string)
    (st st' : App) (w w' : World) :
  place_other staging_path filename st w = Ret (inl (dir, final_path)) st' w' →
  ∃ x, dir = Path.join BUCKET_OTHER (sanitize_folder x).
Proof.
  unfold place_other. intros H.
  apply bind_ret_inv in H as (sub & st1 & w1 & Hask & H).
  destruct sub as [sub|]; [|by inversion H].
  apply ask_folder_sanitized in Hask as [x ->].
  apply bind_ret_inv in H as ([] & st2 & w2 & _ & H).
  inversion H. by exists x.
Qed.

Lemma place_tv_dir (ep : option (Z * Z)) (staging_path filename item_title dir final_path : string)
    (st st' : App) (w w' : World) :
  place_tv ep staging_path filename item_title st w = Ret (inl (dir, final_path)) st' w' →
  ∃ x season,
    dir = Path.join3 BUCKET_TV (sanitize_folder x) ("Season " +:+ Num.fmt_02d season).
Proof.
  unfold place_tv. intros H.
  apply bind_ret_inv in H as (show & st1 & w1 & Hask & H).
  destruct show as [show|]; [|by inversion H].
  apply ask_folder_sanitized in Hask as [x ->].
  destruct ep as [[season episode]|].
  - apply bind_ret_inv in H as ([] & st2 & w2 & _ & H).
    inversion H. by exists x, season.
  - apply bind_ret_inv in H as (s & st2 & w2 & _ & H).
    destruct s as [s|]; [|by inversion H].
    apply bind_ret_inv in H as (e & st3 & w3 & _ & H).
    destruct e as [e|]; [|by inversion H].
    apply bind_ret_inv in H as ([] & st4 & w4 & _ & H).
    inversion H. by exists x, (default 1 (Num.py_int s)).
Qed.

End Destinations.

Section DirectChildren.

Lemma free_of_has_char (q : ascii → bool) (c : ascii) (s : string) :
  free_of q s = true → q c = true → Str.has_char c s = false.
Proof.
  unfold free_of. intros Hs Hc. induction s as [|x s IH]; [done|].
  rewrite all_cons in Hs. apply andb_true_iff in Hs as [Hx Hs]. simpl.
  rewrite (IH Hs), orb_false_r.
  destruct (Char.eqb c x) eqn:E; [|done].
  apply eqb_eq_char in E as <-. by rewrite Hc in Hx.
Qed.

Lemma startswith_append (a b : string) : Str.startswith a (a +:+ b) = true.
Proof.
  induction a as [|c a IH]; [reflexivity|].
  change (Char.eqb c c && Str.startswith a (a +:+ b) = true).
  rewrite IH, andb_true_r. by apply eqb_eq_char.
Qed.

Lemma drop_append (a b : string) : Str.drop (String.length a) (a +:+ b) = b.
Proof. induction a as [|c a IH]; [by destruct b|exact IH]. Qed.

Lemma append_assoc_str (a b c : string) : (a +:+ b) +:+ c = a +:+ (b +:+ c).
Proof.
  induction a as [|x a IH]; [reflexivity|].
  change (String x ((a +:+ b) +:+ c) = String x (a +:+ (b +:+ c))). by rewrite IH.
Qed.

Lemma join_plain (root n : string) :
  Str.is_empty root = false → Str.endswith_char "/" root = false →
  Str.has_char "/" n = false →
  Path.join root n = root +:+ "/" +:+ n.
Proof.
  intros Hr He Hn. unfold Path.join. rewrite Hr, He. simpl.
  destruct n as [|c n]; [reflexivity|].
  simpl in Hn. apply orb_false_iff in Hn as [Hc _].
  simpl. by rewrite Hc.
Qed.

Lemma split_on_nonempty (c : ascii) (s : string) : split_on c s ≠ [].
Proof.
  induction s as [|x s IH]; simpl; [done|].
  destruct (Char.eqb x c); [done|]. by destruct (split_on c s).
Qed.

Lemma char_eqb_sym (a b : ascii) : Char.eqb a b = Char.eqb b a.
Proof.
  destruct (Char.eqb a b) eqn:E, (Char.eqb b a) eqn:E'; try reflexivity.
  - apply eqb_eq_char in E as ->. by rewrite (proj2 (eqb_eq_char b b) eq_refl) in E'.
  - apply eqb_eq_char in E' as ->. by rewrite (proj2 (eqb_eq_char a a) eq_refl) in E.
Qed.

Lemma split_on_plain (c : ascii) (n : string) :
  Str.has_char c n = false → split_on c n = [n].
Proof.
  induction n as [|x n IH]; simpl; [done|].
  intros [Hx Hn]%orb_false_iff. rewrite char_eqb_sym, Hx, (IH Hn). reflexivity.
Qed.

Lemma split_on_app (c : ascii) (a b : string) :
  split_on c (a +:+ String c b) = split_on c a ++ split_on c b.
Proof.
  induction a as [|x a IH].
  - simpl. by rewrite (proj2 (eqb_eq_char c c) eq_refl).
  - change (String x a +:+ String c b) with (String x (a +:+ String c b)).
    cbn [split_on]. rewrite IH. destruct (Char.eqb x c); [reflexivity|].
    pose proof (split_on_nonempty c a). by destruct (split_on c a).
Qed.

Lemma rfind_from_plain (c : ascii) (s : string) :
  ∀ i last, Str.has_char c s = false → Path.rfind_from c s i last = last.
Proof.
  induction s as [|x s IH]; intros i last; simpl; [done|].
  intros [Hx Hs]%orb_false_iff. rewrite Hx. by apply IH.
Qed.

Lemma rfind_from_app (c : ascii) (a b : string) :
  ∀ i last,
    Path.rfind_from c (a +:+ b) i last
    = Path.rfind_from c b (i + Str.len a) (Path.rfind_from c a i last).
Proof.
  induction a as [|x a IH]; intros i last.
  - simpl. unfold Str.len. simpl. by rewrite Z.add_0_r.
  - change (String x a +:+ b) with (String x (a +:+ b)). cbn [Path.rfind_from].
    rewrite IH. unfold Str.len. cbn [String.length]. f_equal. lia.
Qed.

Lemma take_append (a b : string) : Str.take (String.length a) (a +:+ b) = a.
Proof. induction a as [|x a IH]; [by destruct b|]. simpl. by rewrite IH. Qed.

(** For every sanitized name but [.] and [..], the folder is a direct
    child of its bucket root. *)
Lemma sanitized_folder_is_direct_child (root x : string) :
  In root bucket_roots →
  sanitize_folder x ≠ "." → sanitize_folder x ≠ ".." →
  normpath (Path.join root (sanitize_folder x)) = Path.join root (sanitize_folder x)
  ∧ is_direct_child root (Path.join root (sanitize_folder x)) = true.
Proof.
  intros Hroot Hdot Hdots.
  destruct (sanitize_folder_shape x) as (Hne & Hfree & _).
  assert (Hs : Str.has_char "/" (sanitize_folder x) = false)
    by (by apply (free_of_has_char is_path_unsafe)).
  set (n := sanitize_folder x) in *.
  assert (He : Str.is_empty n = false) by (by destruct n).
  assert (Hd1 : String.eqb n "." = false) by (by apply String.eqb_neq).
  assert (Hd2 : String.eqb n ".." = false) by (by apply String.eqb_neq).
  assert (Hnorm : ∀ R kept,
            In R bucket_roots →
            fold_left (norm_step true) (split_on "/" R) [] = kept →
            Str.startswith "/" R = true →
            normpath (R +:+ String "/" n)
            = Str.or_else ("/" +:+ Str.join "/" (rev (n :: kept))) ".").
  { intros R kept HR Hk Hsl. unfold normpath.
    assert (H1 : Str.is_empty (R +:+ String "/" n) = false)
      by (destruct HR as [<- | [<- | [<- | []]]]; reflexivity).
    assert (H2 : Str.startswith "//" (R +:+ String "/" n) = false)
      by (destruct HR as [<- | [<- | [<- | []]]]; reflexivity).
    assert (H3 : Str.startswith "/" (R +:+ String "/" n) = true)
      by (destruct HR as [<- | [<- | [<- | []]]]; reflexivity).
    rewrite H1, H2, H3. cbn [andb negb Str.is_empty].
    rewrite split_on_app, (split_on_plain "/" n Hs), fold_left_app, Hk.
    cbn [fold_left]. unfold norm_step. rewrite He, Hd1, Hd2. reflexivity. }
  assert (Hjoin : ∀ R, In R bucket_roots → Path.join R n = R +:+ String "/" n).
  { intros R HR. rewrite join_plain; [reflexivity| | |exact Hs];
      destruct HR as [<- | [<- | [<- | []]]]; reflexivity. }
  assert (Hdir : ∀ R, In R bucket_roots → Path.dirname (R +:+ String "/" n) = R).
  { intros R HR. unfold Path.dirname, Path.rfind.
    rewrite rfind_from_app. cbn [Path.rfind_from].
    rewrite (proj2 (eqb_eq_char "/" "/") eq_refl), rfind_from_plain by exact Hs.
    unfold Path.slice_to, Str.len.
    replace (Z.to_nat (0 + Z.of_nat (String.length R) + 1))
      with (String.length (R +:+ "/")) by (rewrite length_append_str; simpl; lia).
    change (R +:+ String "/" n) with (R +:+ ("/" +:+ n)).
    rewrite <- append_assoc_str, take_append.
    destruct HR as [<- | [<- | [<- | []]]]; reflexivity. }
  rewrite (Hjoin root Hroot).
  assert (Hn : normpath (root +:+ String "/" n) = root +:+ String "/" n).
  { rewrite (Hnorm root _ Hroot eq_refl);
      destruct Hroot as [<- | [<- | [<- | []]]]; reflexivity. }
  split; [exact Hn|].
  unfold is_direct_child. rewrite Hn, (Hdir root Hroot).
  destruct Hroot as [<- | [<- | [<- | []]]]; reflexivity.
Qed.

(** Every folder name a destination is built from is a result of
    [sanitize_folder]: the directory a file is put in is the bucket root
    joined with such a name for Movies and Other, and the season directory
    inside that folder for TV. *)
Lemma destinations_use_sanitized_names
    (ident filename item_title : string) (st : App) (w : World)
    (dir final_path : string) (st' : App) (w' : World) :
  place ident filename item_title st w = Ret (inl (dir, final_path)) st' w' →
  ∃ root x,
    In root bucket_roots
    ∧ ((root = BUCKET_TV
        ∧ ∃ season, dir = Path.join3 BUCKET_TV (sanitize_folder x)
                             ("Season " +:+ Num.fmt_02d season))
       ∨ (root ≠ BUCKET_TV ∧ dir = Path.join root (sanitize_folder x))).
Proof.
  intros H.
  unfold place in H. apply bind_ret_inv in H as (st0 & st1 & w1 & _ & H).
  destruct (String.eqb (choose_bucket st0 filename item_title) "TV").
  - apply place_tv_dir in H as (x & season & ->).
    exists BUCKET_TV, x. split; [by left|]. left. eauto.
  - destruct (String.eqb (choose_bucket st0 filename item_title) "Movies").
    + apply place_movies_dir in H as (x & ->).
      exists BUCKET_MOVIES, x. split; [right; by left|].
      right. split; [by vm_compute|reflexivity].
    + apply place_other_dir in H as (x & ->).
      exists BUCKET_OTHER, x. split; [right; right; by left|].
      right. split; [by vm_compute|reflexivity].
Qed.

(** C10, on the code.  [sanitize_folder] keeps the name [..] as it is.  A
    user who types it at the folder prompt of the Other bucket gets the
    destination directory [/mnt/ssd/media/Other/..], which names the media
    root itself: the file is saved as [/mnt/ssd/media/notes.txt], in a
    directory that is a direct child of no bucket root. *)
Theorem dot_dot_folder_leaves_the_bucket :
  sanitize_folder ".." = ".."
  ∧ returned (place "item1" "notes.txt" "Notes" (set_last_bucket "Other" fresh_app)
                dot_dot_world)
    = Some (inl ("/mnt/ssd/media/Other/..", "/mnt/ssd/media/Other/../notes.txt"))
  ∧ returned (choose_bucket_and_path "item1" "notes.txt" "Notes"
                (set_last_bucket "Other" fresh_app) dot_dot_world)
    = Some "Saved: /mnt/ssd/media/Other/../notes.txt"
  ∧ normpath "/mnt/ssd/media/Other/.." = MEDIA_ROOT
  ∧ normpath "/mnt/ssd/media/Other/../notes.txt" = "/mnt/ssd/media/notes.txt"
  ∧ forallb (λ root, negb (is_direct_child root "/mnt/ssd/media/Other/.."))
      bucket_roots = true.
Proof. vm_compute. repeat split; reflexivity. Qed.

(** The name [.] is kept too, and puts the file in the bucket root
    itself. *)
Example dot_folder_is_the_bucket_root :
  sanitize_folder "." = "."
  ∧ normpath (Path.join BUCKET_MOVIES (sanitize_folder ".")) = BUCKET_MOVIES
  ∧ is_direct_child BUCKET_MOVIES (Path.join BUCKET_MOVIES (sanitize_folder ".")) = false.
Proof. vm_compute. repeat split; reflexivity. Qed.

(** For the TV bucket the directory an episode is put in is, by design,
    the season directory inside the show folder, two levels below the
    bucket root; the show folder is the direct child. *)
Example season_directory_is_two_levels_down :
  returned (place "item1" "Show.Name.S02E05.mp4" "Show Name" fresh_app episode_world)
  = Some (inl ("/mnt/ssd/media/TV/Show Name/Season 02",
               "/mnt/ssd/media/TV/Show Name/Season 02/Show Name - S02E05.mp4"))
  ∧ is_direct_child BUCKET_TV "/mnt/ssd/media/TV/Show Name/Season 02" = false
  ∧ is_direct_child BUCKET_TV "/mnt/ssd/media/TV/Show Name" = true.
Proof. vm_compute. repeat split; reflexivity. Qed.

(** The fallback name. *)
Example sanitize_folder_unknown :
  sanitize_folder EmptyString = "Unknown" ∧ sanitize_folder " /:*? " = "Unknown".
Proof. vm_compute. split; reflexivity. Qed.

(** C9, end to end: with Enter at the folder prompt the staged release is
    saved under the cleaned folder of the Movies bucket. *)
Example scene_release_import :
  returned (choose_bucket_and_path "item1" scene_release EmptyString fresh_app release_world)
  = Some ("Saved: /mnt/ssd/media/Movies/Movie Title (2020)/" +:+ scene_release).
Proof. vm_compute. reflexivity. Qed.

End DirectChildren.

(** * Further properties of the code *)

(** ** Folder names, again *)

Section SanitizeTwice.

Lemma collapsed_no_leading_blank (s : string) :
  collapsed_go true s = true → Str.lstrip s = s.
Proof.
  destruct s as [|c s]; [done|]. simpl.
  destruct (Char.isspace c); [|done]. by rewrite andb_false_r.
Qed.

Lemma collapsed_no_trailing_blank (b : bool) (s : string) :
  collapsed_go b s = true → Str.rstrip s = s.
Proof.
  revert b. induction s as [|c s IH]; intros b; [done|]. simpl.
  destruct (Char.isspace c) eqn:E.
  - intros [[_ Hne]%andb_true_iff H]%andb_true_iff.
    rewrite (IH true H). destruct s; [done|reflexivity].
  - intros H. rewrite (IH false H). destruct s; reflexivity.
Qed.

Lemma collapsed_strip (s : string) : collapsed_go true s = true → Str.strip s = s.
Proof.
  intros H. unfold Str.strip. rewrite (collapsed_no_leading_blank s H).
  by apply (collapsed_no_trailing_blank true).
Qed.

Lemma collapsed_weaken (s : string) :
  collapsed_go true s = true → collapsed_go false s = true.
Proof.
  destruct s as [|c s]; [done|]. simpl.
  destruct (Char.isspace c); [|done]. by rewrite andb_false_r.
Qed.

Lemma sub_runs_collapsed (b : bool) (s : string) :
  collapsed_go b s = true → Re.sub_runs Char.isspace " " b s = s.
Proof.
  revert b. induction s as [|c s IH]; intros b; [done|]. simpl.
  destruct (Char.isspace c) eqn:E.
  - intros [[[Hc Hb]%andb_true_iff _]%andb_true_iff H]%andb_true_iff.
    apply negb_true_iff in Hb as ->. apply eqb_eq_char in Hc as ->.
    rewrite (IH true H). reflexivity.
  - intros H. by rewrite (IH false H).
Qed.

Lemma sub_runs_free (q : ascii → bool) (repl : string) (b : bool) (s : string) :
  free_of q s = true → Re.sub_runs q repl b s = s.
Proof.
  unfold free_of. revert b. induction s as [|c s IH]; intros b; [done|].
  rewrite all_cons. intros [Hc Hs]%andb_true_iff. simpl.
  apply negb_true_iff in Hc. rewrite Hc. by rewrite (IH false Hs).
Qed.

(** A name that has the shape of a sanitized name is left as it is. *)
Lemma sanitize_folder_fixed (n : string) :
  n ≠ EmptyString → free_of is_path_unsafe n = true → ws_collapsed n = true →
  sanitize_folder n = n.
Proof.
  intros Hne Hfree Hcol. unfold sanitize_folder. rewrite !sub_plus_runs.
  rewrite (collapsed_strip n Hcol), (sub_runs_free _ _ _ _ Hfree).
  rewrite (sub_runs_collapsed false n) by (by apply collapsed_weaken).
  rewrite (collapsed_strip n Hcol). by destruct n.
Qed.

(** Sanitizing a folder name twice gives what sanitizing it once gives. *)
Theorem sanitize_folder_idempotent (name : string) :
  sanitize_folder (sanitize_folder name) = sanitize_folder name.
Proof.
  destruct (sanitize_folder_shape name) as (Hne & Hfree & Hcol).
  by apply sanitize_folder_fixed.
Qed.

End SanitizeTwice.

(** ** The file catalog *)

Section Catalog.

Lemma insert_by_size_perm (f : IAFile) (l : list IAFile) :
  insert_by_size f l ≡ₚ f :: l.
Proof.
  induction l as [|g l IH]; simpl; [done|].
  destruct (size g <=? size f); [done|].
  rewrite IH. apply Permutation_swap.
Qed.

Lemma sort_by_size_perm (l : list IAFile) : sort_by_size l ≡ₚ l.
Proof.
  induction l as [|f l IH]; simpl; [done|].
  rewrite insert_by_size_perm. by rewrite IH.
Qed.

Lemma insert_by_size_sorted (f : IAFile) (l : list IAFile) :
  StronglySorted by_size_desc l → StronglySorted by_size_desc (insert_by_size f l).
Proof.
  induction 1 as [|g l Hl IH Hg]; simpl.
  - repeat constructor.
  - destruct (size g <=? size f) eqn:E.
    + constructor; [by constructor|].
      constructor; [unfold by_size_desc; lia|].
      eapply Forall_impl; [exact Hg|]. unfold by_size_desc. intros; lia.
    + constructor; [exact IH|].
      rewrite insert_by_size_perm. constructor; [unfold by_size_desc; lia|exact Hg].
Qed.

Lemma sort_by_size_sorted (l : list IAFile) :
  StronglySorted by_size_desc (sort_by_size l).
Proof.
  induction l as [|f l IH]; simpl; [constructor|]. by apply insert_by_size_sorted.
Qed.

Lemma parse_file_name (e : gmap string string) (f : IAFile) :
  parse_file e = Some f → name f ≠ EmptyString ∧ Str.strip (name f) = name f.
Proof.
  unfold parse_file.
  destruct (Str.strip (field e "name")) as [|c n] eqn:E; [done|].
  simpl. intros [= <-]. simpl. split; [done|]. rewrite <- E. apply strip_idem.
Qed.

(** The catalog of an item is a rearrangement of its entries that have a
    name, largest first; every name in it is non-empty and stripped. *)
Theorem catalog_is_sorted (entries : list (gmap string string)) :
  StronglySorted by_size_desc (catalog entries)
  ∧ catalog entries ≡ₚ omap parse_file entries
  ∧ (∀ f, In f (catalog entries) →
          name f ≠ EmptyString ∧ Str.strip (name f) = name f).
Proof.
  unfold catalog. split; [apply sort_by_size_sorted|].
  split; [apply sort_by_size_perm|].
  intros f Hf. apply list_elem_of_In in Hf.
  rewrite sort_by_size_perm in Hf.
  apply list_elem_of_omap in Hf as (e & _ & He).
  by apply (parse_file_name e).
Qed.

Lemma filter_insert_by_size (k : Z) (f : IAFile) (l : list IAFile) :
  List.filter (λ g, size g =? k) (insert_by_size f l)
  = if size f =? k then f :: List.filter (λ g, size g =? k) l
    else List.filter (λ g, size g =? k) l.
Proof.
  induction l as [|g l IH]; simpl; [reflexivity|].
  destruct (size g <=? size f) eqn:E; simpl; [reflexivity|].
  rewrite IH. destruct (size g =? k) eqn:Eg, (size f =? k) eqn:Ef; try reflexivity.
  lia.
Qed.

(** The sort is stable: the files of one size (all those of unknown size,
    say) come in the order the metadata lists them. *)
Theorem sort_by_size_is_stable (k : Z) (l : list IAFile) :
  List.filter (λ g, size g =? k) (sort_by_size l) = List.filter (λ g, size g =? k) l.
Proof.
  induction l as [|f l IH]; simpl; [reflexivity|].
  rewrite filter_insert_by_size, IH. reflexivity.
Qed.

End Catalog.

(** ** The keyword filter *)

Section Keyword.

(** A literal runs through exactly when the text starts with it, but for
    the case. *)
Lemma run_literal (kw : string) :
  ∀ (st : Re.mstate) (k : Re.mstate → option Re.mstate),
    (startswith_nocase kw (Re.rest st) = false → Re.run true (Re.Lit kw) st k = None)
    ∧ (startswith_nocase kw (Re.rest st) = true →
       ∃ st', Re.run true (Re.Lit kw) st k = k st').
Proof.
  induction kw as [|c kw IH]; intros st k.
  - split; [done|]. intros _. by exists st.
  - assert (Hchr : ∀ k',
        Re.run true (Re.Chr c) st k'
        = match Re.rest st with
          | String x s' =>
              if Char.eqb (Char.lower c) (Char.lower x)
              then k' (Re.advance x s' st) else None
          | EmptyString => None
          end) by reflexivity.
    destruct kw as [|d kw].
    + change (Re.Lit (String c EmptyString)) with (Re.Chr c). rewrite Hchr.
      simpl. destruct (Re.rest st) as [|x s']; [by split|].
      destruct (Char.eqb (Char.lower c) (Char.lower x)); simpl; split; try done.
      intros _. eauto.
    + change (Re.Lit (String c (String d kw)))
        with (Re.Seq (Re.Chr c) (Re.Lit (String d kw))).
      change (Re.run true (Re.Seq (Re.Chr c) (Re.Lit (String d kw))) st k)
        with (Re.run true (Re.Chr c) st
                (λ st', Re.run true (Re.Lit (String d kw)) st' k)).
      rewrite Hchr. cbn [startswith_nocase]. destruct (Re.rest st) as [|x s']; [by split|].
      destruct (Char.eqb (Char.lower c) (Char.lower x)); [|by split].
      rewrite andb_true_l.
      destruct (IH (Re.advance x s' st) k) as [Hno Hyes]. split.
      * intros H. by apply Hno.
      * intros H. by apply Hyes.
Qed.

Lemma search_literal (kw : string) (s : string) :
  ∀ (pv : option ascii) (pos : nat),
    found (Re.search_from true (Re.Lit kw) pv s pos) = contains_nocase kw s.
Proof.
  induction s as [|c s IH]; intros pv pos.
  - cbn [Re.search_from contains_nocase]. unfold Re.match_here.
    destruct (run_literal kw (Re.MState pv EmptyString []) Some) as [Hno Hyes].
    cbn [Re.rest] in *.
    destruct (startswith_nocase kw EmptyString).
    + destruct (Hyes eq_refl) as [st' ->]. reflexivity.
    + by rewrite (Hno eq_refl).
  - cbn [Re.search_from contains_nocase]. unfold Re.match_here.
    destruct (run_literal kw (Re.MState pv (String c s) []) Some) as [Hno Hyes].
    cbn [Re.rest] in *.
    destruct (startswith_nocase kw (String c s)).
    + destruct (Hyes eq_refl) as [st' ->]. reflexivity.
    + rewrite (Hno eq_refl). simpl. apply IH.
Qed.

Lemma startswith_nocase_lower (p s : string) :
  startswith_nocase p s = Str.startswith (Str.lower p) (Str.lower s).
Proof.
  revert s. induction p as [|a p IH]; intros [|b s]; try reflexivity.
  simpl. by rewrite IH.
Qed.

Lemma contains_nocase_lower (kw s : string) :
  contains_nocase kw s = Str.contains (Str.lower kw) (Str.lower s).
Proof.
  induction s as [|c s IH].
  - simpl. by rewrite startswith_nocase_lower.
  - cbn [contains_nocase]. rewrite startswith_nocase_lower, IH. reflexivity.
Qed.

(** For a keyword and a text within Latin-1 (what [string] holds here),
    the keyword filter is a substring test that ignores the case: escaped
    and compiled with [re.IGNORECASE], the keyword is found in the text
    exactly when its lower-case form occurs in the lower-case text. *)
Theorem keyword_matches_ignoring_case (kw text : string) :
  keyword_matches kw text = Str.contains (Str.lower kw) (Str.lower text).
Proof.
  unfold keyword_matches, Re.search.
  by rewrite search_literal, contains_nocase_lower.
Qed.

Lemma filter_sublist {A} (q : A → bool) (l : list A) : sublist (List.filter q l) l.
Proof.
  induction l as [|x l IH]; simpl; [constructor|].
  destruct (q x); by constructor.
Qed.

(** The visible files are the files themselves when the keyword is blank;
    otherwise they are some of the files, in the same order, and each of
    them has the keyword in its name or format. *)
Theorem visible_files_are_a_selection (fl : list IAFile) (file_kw : string) :
  (Str.strip file_kw = EmptyString → get_visible_files fl file_kw = fl)
  ∧ sublist (get_visible_files fl file_kw) fl
  ∧ (Str.strip file_kw ≠ EmptyString →
     ∀ f, In f (get_visible_files fl file_kw) →
          keyword_matches (Str.strip file_kw) (name f)
          || keyword_matches (Str.strip file_kw) (fmt f) = true).
Proof.
  unfold get_visible_files. split; [by intros ->|]. split.
  - destruct (Str.is_empty _); [reflexivity|apply filter_sublist].
  - intros Hne f Hf. destruct (Str.strip file_kw) eqn:E; [done|].
    simpl in Hf. by apply filter_In in Hf as [_ Hf].
Qed.

Lemma visible_files_are_a_selection_witness :
  get_visible_files [mkIAFile "a.MP4" 9 "h.264"; mkIAFile "b.txt" 1 "Text"] "  " =
  [mkIAFile "a.MP4" 9 "h.264"; mkIAFile "b.txt" 1 "Text"]
  ∧ (∀ f, In f (get_visible_files
                  [mkIAFile "a.MP4" 9 "h.264"; mkIAFile "b.txt" 1 "Text"] " mp4 ") →
          keyword_matches (Str.strip " mp4 ") (name f)
          || keyword_matches (Str.strip " mp4 ") (fmt f) = true).
Proof.
  split.
  - apply (proj1 (visible_files_are_a_selection
                    [mkIAFile "a.MP4" 9 "h.264"; mkIAFile "b.txt" 1 "Text"] "  ")).
    reflexivity.
  - apply (proj2 (proj2 (visible_files_are_a_selection
                    [mkIAFile "a.MP4" 9 "h.264"; mkIAFile "b.txt" 1 "Text"] " mp4 "))).
    vm_compute. discriminate.
Defined.

End Keyword.

(** ** Cycling the filter and the bucket *)

Section Cycles.

Lemma next_in_cycle_in (l : list string) (i : nat) :
  l ≠ [] → In (next_in_cycle l i) l.
Proof.
  intros Hl. unfold next_in_cycle.
  assert (Hlt : ((i + 1) mod length l < length l)%nat).
  { apply Nat.mod_upper_bound. by destruct l. }
  apply lookup_lt_is_Some_2 in Hlt as [x Hx]. rewrite Hx. simpl.
  apply list_elem_of_In. by eapply list_elem_of_lookup_2.
Qed.

Lemma cycle_filter_run (st : App) (w : World) :
  cycle_filter st w
  = Ret tt (set_status ("Filter set to: " +:+ next_filter (media_filter st))
              (set_media_filter (next_filter (media_filter st)) st)) w.
Proof. reflexivity. Qed.

Lemma cycle_bucket_run (st : App) (w : World) :
  cycle_bucket st w
  = Ret tt (set_status ("Save bucket: " +:+ next_bucket (last_bucket st))
              (set_last_bucket (next_bucket (last_bucket st)) st)) w.
Proof. reflexivity. Qed.

Lemma times_cycle_filter (n : nat) :
  ∀ (st : App) (w : World),
    ∃ st', times n cycle_filter st w = Ret tt st' w
           ∧ media_filter st' = Nat.iter n next_filter (media_filter st).
Proof.
  induction n as [|n IH]; intros st w; [by exists st|].
  cbn [times]. unfold bind. rewrite cycle_filter_run.
  destruct (IH (set_status ("Filter set to: " +:+ next_filter (media_filter st))
                  (set_media_filter (next_filter (media_filter st)) st)) w)
    as (st' & -> & E).
  exists st'. split; [reflexivity|]. rewrite E, Nat.iter_succ_r. reflexivity.
Qed.

Lemma times_cycle_bucket (n : nat) :
  ∀ (st : App) (w : World),
    ∃ st', times n cycle_bucket st w = Ret tt st' w
           ∧ last_bucket st' = Nat.iter n next_bucket (last_bucket st).
Proof.
  induction n as [|n IH]; intros st w; [by exists st|].
  cbn [times]. unfold bind. rewrite cycle_bucket_run.
  destruct (IH (set_status ("Save bucket: " +:+ next_bucket (last_bucket st))
                  (set_last_bucket (next_bucket (last_bucket st)) st)) w)
    as (st' & -> & E).
  exists st'. split; [reflexivity|]. rewrite E, Nat.iter_succ_r. reflexivity.
Qed.

(** Cycling the filter always lands on one of the five filters, whatever
    the filter was, and five steps from one of the five come back to it. *)
Theorem cycle_filter_stays_in_filters (st : App) (w : World) :
  (∃ st', cycle_filter st w = Ret tt st' w ∧ In (media_filter st') FILTERS)
  ∧ (In (media_filter st) FILTERS →
     ∃ st', times 5 cycle_filter st w = Ret tt st' w
            ∧ media_filter st' = media_filter st).
Proof.
  split.
  - rewrite cycle_filter_run. eexists. split; [reflexivity|].
    change (In (next_filter (media_filter st)) FILTERS).
    by apply next_in_cycle_in.
  - intros Hin. destruct (times_cycle_filter 5 st w) as (st' & Hrun & E).
    exists st'. split; [exact Hrun|]. rewrite E.
    destruct Hin as [<- | [<- | [<- | [<- | [<- | []]]]]]; reflexivity.
Qed.

Lemma cycle_filter_stays_in_filters_witness :
  ∃ st', times 5 cycle_filter fresh_app quiet_world = Ret tt st' quiet_world
         ∧ media_filter st' = media_filter fresh_app.
Proof.
  apply (proj2 (cycle_filter_stays_in_filters fresh_app quiet_world)).
  vm_compute. tauto.
Defined.

(** Cycling the bucket always lands on TV, Movies or Other, which the
    import takes as it is, and three steps from one of them come back to
    it. *)
Theorem cycle_bucket_stays_valid (st : App) (w : World) :
  (∃ st', cycle_bucket st w = Ret tt st' w
          ∧ In (last_bucket st') BUCKET_ORDER
          ∧ normalize_bucket (last_bucket st') = last_bucket st')
  ∧ (In (last_bucket st) BUCKET_ORDER →
     ∃ st', times 3 cycle_bucket st w = Ret tt st' w
            ∧ last_bucket st' = last_bucket st).
Proof.
  split.
  - rewrite cycle_bucket_run. eexists. split; [reflexivity|].
    change (In (next_bucket (last_bucket st)) BUCKET_ORDER
            ∧ normalize_bucket (next_bucket (last_bucket st))
              = next_bucket (last_bucket st)).
    assert (H : In (next_bucket (last_bucket st)) BUCKET_ORDER)
      by (by apply next_in_cycle_in).
    split; [exact H|].
    destruct H as [<- | [<- | [<- | []]]]; reflexivity.
  - intros Hin. destruct (times_cycle_bucket 3 st w) as (st' & Hrun & E).
    exists st'. split; [exact Hrun|]. rewrite E.
    destruct Hin as [<- | [<- | [<- | []]]]; reflexivity.
Qed.

Lemma cycle_bucket_stays_valid_witness :
  ∃ st', times 3 cycle_bucket fresh_app quiet_world = Ret tt st' quiet_world
         ∧ last_bucket st' = last_bucket fresh_app.
Proof.
  apply (proj2 (cycle_bucket_stays_valid fresh_app quiet_world)).
  vm_compute. tauto.
Defined.

End Cycles.

(** ** Search answers *)

Section SearchAnswer.

Lemma parse_doc_valid (d : gmap string string) (r : SearchResult) :
  parse_doc d = Some r →
  identifier r ≠ EmptyString ∧ Str.strip (identifier r) = identifier r
  ∧ title r ≠ EmptyString.
Proof.
  unfold parse_doc.
  destruct (Str.strip (field d "identifier")) as [|c i] eqn:E; [done|].
  simpl. intros [= <-]. simpl. split; [done|].
  split; [rewrite <- E; apply strip_idem|].
  by apply or_else_nonempty.
Qed.

(** The answer of a search carries an error text exactly when the command
    failed or its output was not JSON, and then it has no results; every
    result of a good answer has a non-empty, stripped identifier and a
    non-empty title, and there are at most as many results as records. *)
Theorem search_answer_is_well_formed
    (code : Z) (out err : string) (docs : option (list (gmap string string))) :
  (snd (search_answer code out err docs) ≠ EmptyString ↔ code ≠ 0 ∨ docs = None)
  ∧ (snd (search_answer code out err docs) ≠ EmptyString →
     fst (search_answer code out err docs) = [])
  ∧ (∀ r, In r (fst (search_answer code out err docs)) →
          identifier r ≠ EmptyString ∧ Str.strip (identifier r) = identifier r
          ∧ title r ≠ EmptyString)
  ∧ (length (fst (search_answer code out err docs))
     ≤ length (default [] docs))%nat.
Proof.
  unfold search_answer. destruct (code =? 0) eqn:Ec; simpl.
  - apply Z.eqb_eq in Ec. destruct docs as [ds|]; simpl.
    + split; [split; [done|intros [?|?]; done]|]. split; [done|]. split.
      * intros r Hr. apply list_elem_of_In, list_elem_of_omap in Hr as (d & _ & Hd).
        by apply (parse_doc_valid d).
      * clear. induction ds as [|d ds IH]; [simpl; lia|].
        change (omap parse_doc (d :: ds))
          with (match parse_doc d with
                | Some r => r :: omap parse_doc ds
                | None => omap parse_doc ds
                end).
        destruct (parse_doc d); simpl length; lia.
    + split; [split; [by right|done]|]. split; [done|]. split; [done|lia].
  - apply Z.eqb_neq in Ec.
    split; [split; [by left|intros _; by apply or_else_nonempty]|].
    split; [done|]. split; [done|lia].
Qed.

End SearchAnswer.

(** ** The verdict of the license gate *)

Section Verdict.

Lemma first_marker_none (markers : list string) (joined : string) :
  existsb (λ d, Str.contains d joined) markers = false →
  first_marker markers joined = None.
Proof.
  induction markers as [|m ms IH]; simpl; [done|].
  intros [-> H]%orb_false_iff. by apply IH.
Qed.

(** The verdict is "allowed" exactly when some allow marker and no deny
    marker occurs in the combined text; when neither list matches (empty or
    missing fields, say) it is "not allowed" with the generic reason. *)
Theorem license_verdict_characterized (m : gmap string string) :
  fst (is_openly_licensed m)
  = negb (existsb (λ d, Str.contains d (joined_rights m)) deny_markers)
    && existsb (λ a, Str.contains a (joined_rights m)) allow_markers
  ∧ (existsb (λ d, Str.contains d (joined_rights m)) deny_markers = false →
     existsb (λ a, Str.contains a (joined_rights m)) allow_markers = false →
     is_openly_licensed m
     = (false, "No clear open license in metadata (licenseurl/rights)."))
  ∧ (fst (is_openly_licensed m) = true →
     snd (is_openly_licensed m) = "Open license detected").
Proof.
  unfold is_openly_licensed.
  destruct (existsb (λ d, Str.contains d (joined_rights m)) deny_markers) eqn:Ed.
  - destruct (first_marker_found _ _ Ed) as (d & -> & _). simpl. by repeat split.
  - rewrite (first_marker_none _ _ Ed).
    destruct (existsb (λ a, Str.contains a (joined_rights m)) allow_markers) eqn:Ea.
    + destruct (first_marker_found _ _ Ea) as (a & -> & _). simpl. by repeat split.
    + rewrite (first_marker_none _ _ Ea). simpl. by repeat split.
Qed.

Lemma license_verdict_characterized_witness :
  is_openly_licensed ∅
  = (false, "No clear open license in metadata (licenseurl/rights).")
  ∧ snd (is_openly_licensed (<["licenseurl" := "http://creativecommons.org/licenses/by/3.0/"]> ∅))
    = "Open license detected".
Proof.
  split.
  - apply (proj1 (proj2 (license_verdict_characterized ∅))); reflexivity.
  - apply (proj2 (proj2 (license_verdict_characterized
             (<["licenseurl" := "http://creativecommons.org/licenses/by/3.0/"]> ∅)))).
    vm_compute. reflexivity.
Defined.

End Verdict.

(** ** One toggle *)

Section OneToggle.

Lemma existsb_filter_out {A} (q : A → bool) (l : list A) :
  existsb q (List.filter (λ x, negb (q x)) l) = false.
Proof.
  induction l as [|x l IH]; simpl; [done|].
  destruct (q x) eqn:E; simpl; [exact IH|]. by rewrite E, IH.
Qed.

Lemma existsb_filter_other {A} (q q' : A → bool) (l : list A) :
  (∀ x, q' x = true → q x = false) →
  existsb q' (List.filter (λ x, negb (q x)) l) = existsb q' l.
Proof.
  intros Hq. induction l as [|x l IH]; simpl; [done|].
  destruct (q x) eqn:E; simpl.
  - rewrite IH. destruct (q' x) eqn:E'; [|done]. by rewrite (Hq x E') in E.
  - by rewrite IH.
Qed.

Lemma string_eqb_neq (a b : string) : a ≠ b → String.eqb a b = false.
Proof. intros H. by apply String.eqb_neq. Qed.

(** A toggle of an item with a blank identifier does nothing.  Any other
    toggle returns with the item a favorite if and only if it was none
    before, and changes this for no other identifier. *)
Theorem toggle_item_flips (st : App) (w : World) (r : SearchResult) :
  (Str.strip (identifier r) = EmptyString → toggle_fav_item r st w = Ret tt st w)
  ∧ (Str.strip (identifier r) ≠ EmptyString →
     ∃ st' w',
       toggle_fav_item r st w = Ret tt st' w'
       ∧ is_fav_item st' (identifier r) = negb (is_fav_item st (identifier r))
       ∧ (∀ other, Str.strip other ≠ Str.strip (identifier r) →
                   is_fav_item st' other = is_fav_item st other)
       ∧ fav_files (favs st') = fav_files (favs st)
       ∧ fav_folders (favs st') = fav_folders (favs st)).
Proof.
  split.
  - intros E. unfold toggle_fav_item. by rewrite E.
  - intros Hne. destruct (is_fav_item st (identifier r)) eqn:Hfav.
    + rewrite (toggle_item_removes st w r Hne Hfav).
      do 2 eexists. split; [reflexivity|]. unfold is_fav_item. simpl.
      split; [apply (existsb_filter_out
                       (λ it, String.eqb (Str.strip (fi_identifier it))
                                (Str.strip (identifier r))))|].
      split; [|done].
      intros other Hother.
      apply (existsb_filter_other
               (λ it, String.eqb (Str.strip (fi_identifier it)) (Str.strip (identifier r)))
               (λ it, String.eqb (Str.strip (fi_identifier it)) (Str.strip other))).
      intros it E. apply String.eqb_eq in E. rewrite E. by apply string_eqb_neq.
    + rewrite (toggle_item_adds st w r Hne Hfav).
      do 2 eexists. split; [reflexivity|]. unfold is_fav_item. simpl.
      split; [by rewrite String.eqb_refl|]. split; [|done].
      intros other Hother. rewrite string_eqb_neq; [done|]. congruence.
Qed.

Lemma toggle_item_flips_witness :
  toggle_fav_item (mkSearchResult "  " "" "" "") cats_with_favs one_page_world
  = Ret tt cats_with_favs one_page_world
  ∧ ∃ st' w',
      toggle_fav_item cat_video cats_with_favs one_page_world = Ret tt st' w'
      ∧ is_fav_item st' (identifier cat_video)
        = negb (is_fav_item cats_with_favs (identifier cat_video))
      ∧ (∀ other, Str.strip other ≠ Str.strip (identifier cat_video) →
                  is_fav_item st' other = is_fav_item cats_with_favs other)
      ∧ fav_files (favs st') = fav_files (favs cats_with_favs)
      ∧ fav_folders (favs st') = fav_folders (favs cats_with_favs).
Proof.
  split.
  - apply (proj1 (toggle_item_flips cats_with_favs one_page_world
                    (mkSearchResult "  " "" "" ""))). reflexivity.
  - apply (proj2 (toggle_item_flips cats_with_favs one_page_world cat_video)).
    vm_compute. discriminate.
Defined.

(** The same for a file and its identifier+filename key. *)
Theorem toggle_file_flips (st : App) (w : World) (item : SearchResult) (f : IAFile) :
  (Str.strip (identifier item) = EmptyString ∨ Str.strip (name f) = EmptyString →
   toggle_fav_file item f st w = Ret tt st w)
  ∧ (Str.strip (identifier item) ≠ EmptyString → Str.strip (name f) ≠ EmptyString →
     ∃ st' w',
       toggle_fav_file item f st w = Ret tt st' w'
       ∧ is_fav_file st' (identifier item) (name f)
         = negb (is_fav_file st (identifier item) (name f))
       ∧ (∀ i n, file_fav_key i n ≠ file_fav_key (identifier item) (name f) →
                 is_fav_file st' i n = is_fav_file st i n)
       ∧ fav_items (favs st') = fav_items (favs st)
       ∧ fav_folders (favs st') = fav_folders (favs st)).
Proof.
  split.
  - intros E. unfold toggle_fav_file.
    destruct E as [-> | ->]; [reflexivity|]. by rewrite orb_true_r.
  - intros Hi Hf. destruct (is_fav_file st (identifier item) (name f)) eqn:Hfav.
    + rewrite (toggle_file_removes st w item f Hi Hf Hfav).
      do 2 eexists. split; [reflexivity|]. unfold is_fav_file. simpl.
      split; [apply (existsb_filter_out
                       (λ it, String.eqb (file_fav_key (ff_identifier it) (ff_filename it))
                                (file_fav_key (identifier item) (name f))))|].
      split; [|done].
      intros i n Hother.
      apply (existsb_filter_other
               (λ it, String.eqb (file_fav_key (ff_identifier it) (ff_filename it))
                        (file_fav_key (identifier item) (name f)))
               (λ it, String.eqb (file_fav_key (ff_identifier it) (ff_filename it))
                        (file_fav_key i n))).
      intros it E. apply String.eqb_eq in E. rewrite E. by apply string_eqb_neq.
    + rewrite (toggle_file_adds st w item f Hi Hf Hfav).
      do 2 eexists. split; [reflexivity|]. unfold is_fav_file. simpl.
      split; [by rewrite String.eqb_refl|]. split; [|done].
      intros i n Hother. rewrite string_eqb_neq; [done|]. congruence.
Qed.

Lemma toggle_file_flips_witness :
  toggle_fav_file cat_video (mkIAFile " " 0 "") cats_with_favs one_page_world
  = Ret tt cats_with_favs one_page_world
  ∧ ∃ st' w',
      toggle_fav_file cat_video cat_file cats_with_favs one_page_world = Ret tt st' w'
      ∧ is_fav_file st' (identifier cat_video) (name cat_file)
        = negb (is_fav_file cats_with_favs (identifier cat_video) (name cat_file))
      ∧ (∀ i n, file_fav_key i n ≠ file_fav_key (identifier cat_video) (name cat_file) →
                is_fav_file st' i n = is_fav_file cats_with_favs i n)
      ∧ fav_items (favs st') = fav_items (favs cats_with_favs)
      ∧ fav_folders (favs st') = fav_folders (favs cats_with_favs).
Proof.
  split.
  - apply (proj1 (toggle_file_flips cats_with_favs one_page_world cat_video
                    (mkIAFile " " 0 ""))). right. reflexivity.
  - apply (proj2 (toggle_file_flips cats_with_favs one_page_world cat_video cat_file));
      vm_compute; discriminate.
Defined.

End OneToggle.

(** ** Prompts *)

Section Prompts.

Lemma set_keys_same (w : World) : set_keys (keys w) w = w.
Proof. by destruct w. Qed.

Lemma prompt_loop_answer (ks : list Z) :
  ∀ (buf : string) (r : option string) (ks' : list Z),
    prompt_loop buf ks = Some (r, ks') →
    (∃ used, ks = used ++ ks')
    ∧ (∀ a, r = Some a → Str.strip a = a)
    ∧ (r = None → In 27 ks).
Proof.
  induction ks as [|ch ks IH]; intros buf r ks'; [done|]. cbn [prompt_loop].
  assert (Hrec : ∀ buf', prompt_loop buf' ks = Some (r, ks') →
            (∃ used, ch :: ks = used ++ ks')
            ∧ (∀ a, r = Some a → Str.strip a = a)
            ∧ (r = None → In 27 (ch :: ks))).
  { intros buf' H. destruct (IH buf' r ks' H) as ([used ->] & Hs & Hn).
    split; [by exists (ch :: used)|]. split; [exact Hs|].
    intros E. right. by apply Hn. }
  destruct ((ch =? 10) || (ch =? 13)) eqn:E1.
  { intros [= <- <-]. split; [by exists [ch]|]. split; [|done].
    intros a [= <-]. apply strip_idem. }
  destruct (ch =? 27) eqn:E2.
  { intros [= <- <-]. apply Z.eqb_eq in E2 as ->.
    split; [by exists [27]|]. split; [done|]. intros _. by left. }
  destruct ((ch =? KEY_BACKSPACE) || (ch =? 127) || (ch =? 8)); [apply Hrec|].
  destruct ((0 <=? ch) && (ch <=? 255) && Char.isprintable (chr ch)); apply Hrec.
Qed.

Lemma prompt_run_facts
    (label default_ : string) (st st' : App) (w w' : World) (r : option string) :
  prompt label default_ st w = Ret r st' w' →
  st' = st
  ∧ w' = set_keys (keys w') w
  ∧ (∃ used, keys w = used ++ keys w')
  ∧ (∀ a, r = Some a → Str.strip a = a)
  ∧ (r = None → In 27 (keys w) ∨ term_h w < 6 ∨ term_w w < 10).
Proof.
  unfold prompt.
  destruct ((term_h w <? 6) || (term_w w <? 10)) eqn:Esz.
  - intros [= <- <- <-]. split; [done|]. split; [by rewrite set_keys_same|].
    split; [by exists []|]. split; [done|].
    intros _. right. apply orb_true_iff in Esz as [H|H]; apply Z.ltb_lt in H; auto.
  - destruct (prompt_loop default_ (keys w)) as [[r0 ks]|] eqn:E; [|done].
    intros [= <- <- <-]. destruct (prompt_loop_answer _ _ _ _ E) as (Hu & Hs & Hn).
    split; [done|]. split; [by destruct w|]. split; [exact Hu|]. split; [exact Hs|].
    intros H. left. by apply Hn.
Qed.

(** Whatever is typed, [prompt] changes nothing but the queue of keys, of
    which it takes a front part; an answer has no blanks around it, and no
    answer means that Esc was pressed or that the terminal is too small to
    prompt. *)
Theorem prompt_answer_is_stripped
    (label default_ : string) (st st' : App) (w w' : World) (r : option string) :
  prompt label default_ st w = Ret r st' w' →
  st' = st
  ∧ w' = set_keys (keys w') w
  ∧ (∃ used, keys w = used ++ keys w')
  ∧ (∀ a, r = Some a → Str.strip a = a)
  ∧ (r = None → In 27 (keys w) ∨ term_h w < 6 ∨ term_w w < 10).
Proof. intros H. eapply prompt_run_facts. exact H. Qed.

Lemma prompt_answer_is_stripped_witness : Str.strip "My Show" = "My Show".
Proof.
  assert (H : prompt "Show name: " " My" fresh_app
                (set_keys [32; 83; 8; 83; 104; 111; 119; 32; 10; 99] quiet_world)
              = Ret (Some "My Show") fresh_app (set_keys [99] quiet_world))
    by (vm_compute; reflexivity).
  destruct (prompt_answer_is_stripped _ _ _ _ _ _ _ H) as (_ & _ & _ & Hs & _).
  exact (Hs "My Show" eq_refl).
Defined.

Lemma prompt_list_loop_answer (options : list string) (ks : list Z) :
  ∀ (idx : Z) (r : option string) (ks' : list Z),
    0 ≤ idx < Z.of_nat (length options) →
    prompt_list_loop options idx ks = Some (r, ks') →
    (∃ used, ks = used ++ ks')
    ∧ (∀ x, r = Some x → In x options)
    ∧ (r = None → In 27 ks).
Proof.
  induction ks as [|ch ks IH]; intros idx r ks' Hidx; [done|].
  cbn [prompt_list_loop].
  destruct (ch =? 27) eqn:E1.
  { intros [= <- <-]. apply Z.eqb_eq in E1 as ->.
    split; [by exists [27]|]. split; [done|]. intros _. by left. }
  destruct ((ch =? 10) || (ch =? 13) || (ch =? KEY_ENTER)) eqn:E2.
  { intros [= <- <-]. split; [by exists [ch]|].
    assert (Hlt : (Z.to_nat idx < length options)%nat) by lia.
    apply lookup_lt_is_Some_2 in Hlt as [x Hx]. rewrite Hx. split; [|done].
    intros y [= <-]. apply list_elem_of_In. by eapply list_elem_of_lookup_2. }
  intros H. apply IH in H as ([used ->] & Hin & Hn).
  - split; [by exists (ch :: used)|]. split; [exact Hin|].
    intros E. right. by apply Hn.
  - destruct (ch =? KEY_UP), (ch =? KEY_DOWN); lia.
Qed.

Lemma prompt_list_run_facts
    (title_ : string) (options : list string) (st st' : App) (w w' : World)
    (r : option string) :
  prompt_list title_ options st w = Ret r st' w' →
  st' = st
  ∧ w' = set_keys (keys w') w
  ∧ (∀ x, r = Some x → In x options)
  ∧ (r = None → options = [] ∨ In 27 (keys w)).
Proof.
  unfold prompt_list. destruct options as [|o options].
  - intros [= <- <- <-]. split; [done|]. split; [by rewrite set_keys_same|].
    split; [done|]. by left.
  - destruct (prompt_list_loop (o :: options) 0 (keys w)) as [[r0 ks]|] eqn:E; [|done].
    intros [= <- <- <-].
    apply prompt_list_loop_answer in E as (_ & Hin & Hn); [|simpl; lia].
    split; [done|]. split; [by destruct w|]. split; [exact Hin|].
    intros H. right. by apply Hn.
Qed.

(** The list prompt returns one of the options it was given: the selection
    never leaves the list, so that Enter always has an option to return,
    and only Esc (or an empty list) gives no answer. *)
Theorem prompt_list_answer_is_an_option
    (title_ : string) (options : list string) (st st' : App) (w w' : World)
    (r : option string) :
  prompt_list title_ options st w = Ret r st' w' →
  st' = st
  ∧ w' = set_keys (keys w') w
  ∧ (∀ x, r = Some x → In x options)
  ∧ (r = None → options = [] ∨ In 27 (keys w)).
Proof. intros H. eapply prompt_list_run_facts. exact H. Qed.

Lemma prompt_list_answer_is_an_option_witness : In "B" ["A"; "B"; "C"].
Proof.
  assert (H : prompt_list "Movies favorites" ["A"; "B"; "C"] fresh_app
                (set_keys [259; 258; 258; 258; 258; 259; 10] quiet_world)
              = Ret (Some "B") fresh_app (set_keys [] quiet_world))
    by (vm_compute; reflexivity).
  destruct (prompt_list_answer_is_an_option _ _ _ _ _ _ _ H) as (_ & _ & Hin & _).
  exact (Hin "B" eq_refl).
Defined.

(** The favorites picker returns only a name that is remembered for that
    bucket and is not blank. *)
Theorem picked_folder_is_a_favorite
    (bucket x : string) (st st' : App) (w w' : World) :
  pick_folder_fav_if_requested bucket st w = Ret (Some x) st' w' →
  In x (folders_of st bucket) ∧ Str.strip x ≠ EmptyString ∧ st' = st.
Proof.
  unfold pick_folder_fav_if_requested, folders_of. method_steps.
  destruct (is_nil _); [done|]. intros H.
  apply prompt_list_run_facts in H as (-> & _ & Hin & _).
  specialize (Hin x eq_refl). unfold folder_options in Hin.
  apply filter_In in Hin as [Hin Hne]. split; [exact Hin|]. split; [|done].
  intros E. by rewrite E in Hne.
Qed.

Lemma picked_folder_is_a_favorite_witness :
  In "Old (1950)" (folders_of cats_with_favs "Movies")
  ∧ Str.strip "Old (1950)" ≠ EmptyString ∧ cats_with_favs = cats_with_favs.
Proof.
  apply (picked_folder_is_a_favorite "Movies" "Old (1950)" cats_with_favs cats_with_favs
           (set_keys [10] quiet_world) (set_keys [] quiet_world)).
  vm_compute. reflexivity.
Defined.

End Prompts.

(** ** Remembered folder names *)

Section FolderFavorites.

Lemma add_folder_fav_run (bucket folder : string) (st : App) (w : World) :
  let b := normalize_bucket bucket in
  let n := sanitize_folder folder in
  add_folder_fav bucket folder st w
  = if bool_decide (folder_key n ∈ List.map folder_key (folders_of st b))
    then Ret tt st w
    else
      let st' := set_favs (set_fav_folders
                             (<[b := take 30 (n :: folders_of st b)]> (fav_folders (favs st)))
                             (favs st)) st in
      Ret tt st' (saved st' w).
Proof.
  intros b n. unfold add_folder_fav. fold b n. method_steps.
  unfold folder_key, folders_of.
  destruct (bool_decide _); simpl; [reflexivity|]. apply save_favs_run.
Qed.

Lemma add_folder_fav_facts
    (bucket folder : string) (st : App) (w : World) :
  ∃ st' w',
    add_folder_fav bucket folder st w = Ret tt st' w'
    ∧ In (folder_key (sanitize_folder folder))
         (List.map folder_key (folders_of st' (normalize_bucket bucket)))
    ∧ ((length (folders_of st (normalize_bucket bucket)) ≤ 30)%nat →
       (length (folders_of st' (normalize_bucket bucket)) ≤ 30)%nat)
    ∧ (NoDup (List.map folder_key (folders_of st (normalize_bucket bucket))) →
       NoDup (List.map folder_key (folders_of st' (normalize_bucket bucket))))
    ∧ (∀ b, b ≠ normalize_bucket bucket → folders_of st' b = folders_of st b)
    ∧ fav_items (favs st') = fav_items (favs st)
    ∧ fav_files (favs st') = fav_files (favs st)
    ∧ fs w' = fs w.
Proof.
  rewrite add_folder_fav_run.
  set (b := normalize_bucket bucket). set (n := sanitize_folder folder).
  case_bool_decide as Hin.
  - exists st, w. split; [reflexivity|].
    split; [by apply list_elem_of_In|]. by repeat split.
  - do 2 eexists. split; [reflexivity|].
    assert (Hnew : folders_of
              (set_favs (set_fav_folders
                           (<[b := take 30 (n :: folders_of st b)]> (fav_folders (favs st)))
                           (favs st)) st) b
            = take 30 (n :: folders_of st b)).
    { unfold folders_of at 1. simpl. by rewrite lookup_insert_eq. }
    rewrite Hnew. split; [simpl; by left|].
    split; [intros _; rewrite length_take; lia|].
    split.
    + intros Hnd. change (List.map folder_key) with (fmap (M:=list) folder_key).
      rewrite fmap_take. eapply sublist_NoDup; [|apply sublist_take].
      simpl. apply NoDup_cons. split; [exact Hin|exact Hnd].
    + split; [|split; [done|split; [done|]]].
      * intros b' Hb'. unfold folders_of. simpl. by rewrite lookup_insert_ne.
      * unfold saved. by destruct (disk_ok w).
Qed.

(** Remembering a folder name keeps the list of its bucket tidy: the name
    is in the list afterwards (up to case and blanks around it), a list of
    at most 30 names stays so, a list without two names of one key stays
    so, and the other buckets, the items and the files are not touched. *)
Theorem add_folder_fav_keeps_lists_tidy
    (bucket folder : string) (st : App) (w : World) :
  ∃ st' w',
    add_folder_fav bucket folder st w = Ret tt st' w'
    ∧ In (folder_key (sanitize_folder folder))
         (List.map folder_key (folders_of st' (normalize_bucket bucket)))
    ∧ ((length (folders_of st (normalize_bucket bucket)) ≤ 30)%nat →
       (length (folders_of st' (normalize_bucket bucket)) ≤ 30)%nat)
    ∧ (NoDup (List.map folder_key (folders_of st (normalize_bucket bucket))) →
       NoDup (List.map folder_key (folders_of st' (normalize_bucket bucket))))
    ∧ (∀ b, b ≠ normalize_bucket bucket → folders_of st' b = folders_of st b)
    ∧ fav_items (favs st') = fav_items (favs st)
    ∧ fav_files (favs st') = fav_files (favs st)
    ∧ fs w' = fs w.
Proof. apply add_folder_fav_facts. Qed.

(** Remembering the same name a second time changes nothing. *)
Theorem add_folder_fav_twice_is_once
    (bucket folder : string) (st st1 : App) (w w1 : World) :
  add_folder_fav bucket folder st w = Ret tt st1 w1 →
  add_folder_fav bucket folder st1 w1 = Ret tt st1 w1.
Proof.
  intros H.
  destruct (add_folder_fav_facts bucket folder st w)
    as (st' & w' & Hrun & Hin & _).
  rewrite Hrun in H. injection H as -> ->.
  rewrite add_folder_fav_run. cbv zeta.
  rewrite bool_decide_eq_true_2; [reflexivity|]. by apply list_elem_of_In.
Qed.

Lemma add_folder_fav_twice_is_once_witness :
  folders_of
    (default fresh_app
       (final_app (add_folder_fav "Movies" " New:  Folder " fresh_app quiet_world)))
    "Movies" = ["New Folder"]
  ∧ add_folder_fav "Movies" " New:  Folder "
      (default fresh_app
         (final_app (add_folder_fav "Movies" " New:  Folder " fresh_app quiet_world)))
      (default quiet_world
         (final_world (add_folder_fav "Movies" " New:  Folder " fresh_app quiet_world)))
    = Ret tt
        (default fresh_app
           (final_app (add_folder_fav "Movies" " New:  Folder " fresh_app quiet_world)))
        (default quiet_world
           (final_world (add_folder_fav "Movies" " New:  Folder " fresh_app quiet_world))).
Proof.
  split; [vm_compute; reflexivity|].
  apply (add_folder_fav_twice_is_once "Movies" " New:  Folder " fresh_app _ quiet_world _).
  vm_compute. reflexivity.
Defined.

End FolderFavorites.

(** ** Imports that save and imports that do not *)

Section ImportOutcomes.

(** An import moves the staged file: when the name it settles on (the
    destination, or the stamped name if the destination exists) is free and
    its directory is there, the file is at that name afterwards, the staging
    path is gone and every other path of the disk is as before. *)
Theorem import_moves_the_staged_file (st : App) (w : World)
    (staging_path final_path data : string) :
  fs w !! staging_path = Some (File data) →
  FS.exists_ (fs w) (import_target w final_path) = false →
  FS.parent_ok (fs w) (import_target w final_path) = true →
  ∃ w', finish_import staging_path final_path st w
        = Ret ("Saved: " +:+ import_target w final_path) st w'
        ∧ fs w' !! import_target w final_path = Some (File data)
        ∧ fs w' !! staging_path = None
        ∧ (∀ p, p ≠ staging_path → p ≠ import_target w final_path →
                fs w' !! p = fs w !! p).
Proof.
  intros Hsrc Hfree Hparent.
  set (target := import_target w final_path) in *.
  assert (Hne : target ≠ staging_path).
  { intros E. unfold FS.exists_ in Hfree. by rewrite E, Hsrc in Hfree. }
  unfold finish_import. unfold bind at 1. rewrite avoid_collision_run.
  fold (import_target w final_path). fold target.
  unfold move. method_steps. unfold FS.move. rewrite Hsrc.
  assert (Hnd : FS.isdir (fs w) target = false).
  { unfold FS.isdir, FS.exists_ in *. by destruct (fs w !! target). }
  rewrite Hnd. simpl. rewrite Hparent. simpl.
  eexists. split; [reflexivity|]. simpl.
  split; [apply lookup_insert_eq|].
  split.
  - rewrite lookup_insert_ne by done. apply lookup_delete_eq.
  - intros p Hp1 Hp2. rewrite lookup_insert_ne by done. by apply lookup_delete_ne.
Qed.

Lemma import_moves_the_staged_file_witness :
  ∃ w', finish_import "/mnt/ssd/media/.ia_staging/item1/notes.txt"
          "/mnt/ssd/media/Other/Misc/notes.txt" fresh_app collision_world
        = Ret ("Saved: " +:+ import_target collision_world
                               "/mnt/ssd/media/Other/Misc/notes.txt")
            fresh_app w'
        ∧ fs w' !! import_target collision_world "/mnt/ssd/media/Other/Misc/notes.txt"
          = Some (File "new")
        ∧ fs w' !! "/mnt/ssd/media/.ia_staging/item1/notes.txt" = None
        ∧ (∀ p, p ≠ "/mnt/ssd/media/.ia_staging/item1/notes.txt" →
                p ≠ import_target collision_world "/mnt/ssd/media/Other/Misc/notes.txt" →
                fs w' !! p = fs collision_world !! p).
Proof.
  apply (import_moves_the_staged_file fresh_app collision_world
           "/mnt/ssd/media/.ia_staging/item1/notes.txt"
           "/mnt/ssd/media/Other/Misc/notes.txt" "new");
    vm_compute; reflexivity.
Defined.

Example collision_goes_beside :
  import_target collision_world "/mnt/ssd/media/Other/Misc/notes.txt"
  = "/mnt/ssd/media/Other/Misc/notes_20261103_120000.txt".
Proof. vm_compute. reflexivity. Qed.

Lemma prompt_keeps_disk (label d : string) (st st' : App) (w w' : World)
    (r : option string) :
  prompt label d st w = Ret r st' w' → fs w' = fs w.
Proof.
  intros H. apply prompt_run_facts in H as (_ & -> & _). reflexivity.
Qed.





End ImportOutcomes.

(** ** Transfers that are not canceled *)

Section Verdicts.

Variables (ident fname glob_pat : string) (expected : Z).

Lemma child_texts_after_round (t : tick) (ts : list tick) (w : World) :
  child_err (after_getch (after_poll t ts w)) = child_err w
  ∧ child_out (after_getch (after_poll t ts w)) = child_out w.
Proof.
  unfold after_getch, after_poll. simpl. destruct (keys w); split; reflexivity.
Qed.

Lemma child_failure_text_ext (w w' : World) (rc : Z) :
  child_err w' = child_err w → child_out w' = child_out w →
  child_failure_text w' rc = child_failure_text w rc.
Proof. unfold child_failure_text. by intros -> ->. Qed.

Lemma child_exit_failed (st : App) (w : World) (rc : Z) :
  dl_cancel_requested st = false → rc ≠ 0 →
  child_exit_result st w rc = Some (false, child_failure_text w rc).
Proof.
  intros H Hnz. unfold child_exit_result, child_failure_text. rewrite H.
  destruct (rc =? 0) eqn:E; [lia|]. reflexivity.
Qed.

(** Without a cancel key, a child that exits with another code than 0 makes
    the loop fail with the error text of the child. *)
Lemma one_loop_failed_exit (pre : list tick) :
  ∀ (st : App) (w : World) (ex : tick) (rest : list tick) (rc : Z) (n : nat),
    child_ticks w = pre ++ ex :: rest →
    Forall running pre →
    tk_rc ex = Some rc → rc ≠ 0 →
    dl_cancel_requested st = false →
    cancel_pressed (S (length pre)) (keys w) = false →
    (length pre < n)%nat →
    returned (one_loop n ident fname expected st w)
    = Some (false, child_failure_text w rc).
Proof.
  induction pre as [|t pre IH]; intros st w ex rest rc n Hticks Hrun Hrc Hnz Hflag Hc Hn;
    (destruct n as [|n]; [simpl in Hn; lia|]); cbn [one_loop]; unfold bind.
  - rewrite (one_round_run ident fname expected st w ex rest Hticks). rewrite Hrc.
    cbn [ret returned]. f_equal.
    destruct (world_after_round ex rest w) as (_ & _ & _ & Hnext).
    apply not_pressed_cases in Hc as [Hk _].
    rewrite child_exit_failed; [|by rewrite cancel_flag_after_round, Hnext, Hk, Hflag|done].
    f_equal. apply child_failure_text_ext; apply child_texts_after_round.
  - rewrite (one_round_run ident fname expected st w t (pre ++ ex :: rest) Hticks).
    apply Forall_cons in Hrun as [Ht Hrun]. rewrite Ht.
    destruct (world_after_round t (pre ++ ex :: rest) w) as (Hticks' & _ & Hkeys & Hnext).
    apply not_pressed_cases in Hc as [Hk Hc]. cbn beta iota.
    lazymatch goal with
    | |- context [one_loop n _ _ _ ?s ?w1] =>
        rewrite (IH s w1 ex rest rc n Hticks' Hrun Hrc Hnz)
    end.
    + do 2 f_equal. apply child_failure_text_ext; apply child_texts_after_round.
    + by rewrite cancel_flag_after_round, Hnext, Hk, Hflag.
    + by rewrite Hkeys.
    + simpl in Hn. lia.
Qed.

(** As long as the child is only seen running, the loop gives no verdict. *)
Lemma one_loop_waits (ticks : list tick) :
  ∀ (st : App) (w : World) (n : nat),
    child_ticks w = ticks → Forall running ticks →
    one_loop n ident fname expected st w = Pending.
Proof.
  induction ticks as [|t ticks IH]; intros st w n Hticks Hrun.
  - destruct n; [reflexivity|]. cbn [one_loop]. unfold bind, one_round, bind, poll.
    by rewrite Hticks.
  - destruct n; [reflexivity|]. cbn [one_loop]. unfold bind.
    rewrite (one_round_run ident fname expected st w t ticks Hticks).
    apply Forall_cons in Hrun as [Ht Hrun]. rewrite Ht. cbn beta iota.
    apply IH; [|exact Hrun]. by destruct (world_after_round t ticks w) as (-> & _).
Qed.

(** The verdict of a transfer of one file whose child was started, was
    seen running for some polls and then exited, with no cancel key read:
    it is a success exactly when the exit code is 0 and the expected size is
    unknown (not positive) or is the size of the staged file; after another
    exit code it carries the error text of the child, which is never
    empty. *)
Theorem transfer_verdict
    (st : App) (w : World) (fs0 : gmap string node)
    (pre : list tick) (ex : tick) (rest : list tick) (rc : Z) :
  FS.makedirs (fs w) STAGING_ROOT = Some fs0 →
  spawn_error w = None →
  child_ticks w = pre ++ ex :: rest →
  Forall running pre →
  tk_rc ex = Some rc →
  cancel_pressed (S (length pre)) (keys w) = false →
  let actual := FS.getsize (disk_after (pre ++ [ex]) fs0) (staging_file_path ident fname) in
  ∃ ok msg,
    returned (_download_one_with_progress ident fname expected st w) = Some (ok, msg)
    ∧ (ok = true ↔ rc = 0 ∧ (expected ≤ 0 ∨ actual = expected))
    ∧ (ok = true → msg = EmptyString)
    ∧ (rc ≠ 0 → msg = child_failure_text w rc ∧ msg ≠ EmptyString).
Proof.
  intros Hmk Hsp Hticks Hrun Hrc Hc actual.
  assert (Hn : (length pre < length (child_ticks w))%nat).
  { rewrite Hticks, length_app. simpl. lia. }
  rewrite (download_one_starts ident fname expected st w fs0 Hmk Hsp).
  destruct (decide (rc = 0)) as [-> | Hnz].
  - edestruct (one_loop_clean_exit ident fname expected pre) as (st' & w' & -> & Hfs);
      [exact Hticks|exact Hrun|exact Hrc|reflexivity|exact Hc|exact Hn|].
    simpl in Hfs. cbn [returned].
    unfold _verify_expected_size, safe_getsize. rewrite Hfs. fold actual.
    destruct (expected <=? 0) eqn:E.
    + exists true, EmptyString. split; [done|]. split; [|done].
      split; [intros _; split; [done|lia]|done].
    + destruct (actual =? expected) eqn:E'; simpl.
      * exists true, EmptyString. split; [done|]. split; [|done].
        split; [intros _; split; [done|lia]|done].
      * eexists false, _. split; [reflexivity|]. split; [|done].
        split; [done|]. intros [_ [H|H]]; lia.
  - exists false, (child_failure_text w rc). split.
    + erewrite one_loop_failed_exit;
        [|exact Hticks|exact Hrun|exact Hrc|exact Hnz|reflexivity|exact Hc|exact Hn].
      do 2 f_equal.
    + split; [split; [done|intros [? _]; done]|]. split; [done|].
      intros _. split; [reflexivity|].
      unfold child_failure_text. by apply or_else_nonempty.
Qed.

(** No verdict comes before the child has exited: while every poll sees it
    running, a started transfer of one file is still waiting. *)
Theorem transfer_waits_for_the_child (st : App) (w : World) (fs0 : gmap string node) :
  FS.makedirs (fs w) STAGING_ROOT = Some fs0 →
  spawn_error w = None →
  Forall running (child_ticks w) →
  _download_one_with_progress ident fname expected st w = Pending.
Proof.
  intros Hmk Hsp Hrun.
  rewrite (download_one_starts ident fname expected st w fs0 Hmk Hsp).
  by apply (one_loop_waits (child_ticks w)).
Qed.

(** When the child cannot be started, the transfer fails with the text of
    the exception, before any poll or key is read. *)
Theorem transfer_fails_without_child
    (st : App) (w : World) (fs0 : gmap string node) (e : string) :
  FS.makedirs (fs w) STAGING_ROOT = Some fs0 →
  spawn_error w = Some e →
  _download_one_with_progress ident fname expected st w
  = Ret (false, "download failed: " +:+ e) st (set_fs fs0 w)
  ∧ _download_glob_with_progress ident glob_pat expected st w
    = match FS.makedirs fs0 (staging_identifier_dir ident) with
      | Some fs1 => Ret (false, "download failed: " +:+ e) st (set_fs fs1 (set_fs fs0 w))
      | None => Raise ("OSError: " +:+ staging_identifier_dir ident)
      end.
Proof.
  intros Hmk Hsp. split.
  - unfold _download_one_with_progress, makedirs. method_steps.
    rewrite Hmk. method_steps. simpl. by rewrite Hsp.
  - unfold _download_glob_with_progress, makedirs. method_steps.
    rewrite Hmk. method_steps. simpl.
    destruct (FS.makedirs fs0 (staging_identifier_dir ident)); [|reflexivity].
    method_steps. simpl. by rewrite Hsp.
Qed.

(** A cancellation requested in an earlier transfer does not reach the
    next one: the verdict is the same whatever the flag was at the start. *)
Theorem cancel_flag_is_reset (st : App) (w : World) (b : bool) :
  returned (_download_one_with_progress ident fname expected
              (set_dl_cancel_requested b st) w)
  = returned (_download_one_with_progress ident fname expected st w)
  ∧ returned (_download_glob_with_progress ident glob_pat expected
                (set_dl_cancel_requested b st) w)
    = returned (_download_glob_with_progress ident glob_pat expected st w).
Proof.
  split.
  - unfold _download_one_with_progress, makedirs. method_steps.
    destruct (FS.makedirs (fs w) STAGING_ROOT); [|reflexivity].
    method_steps. simpl. destruct (spawn_error w); reflexivity.
  - unfold _download_glob_with_progress, makedirs. method_steps.
    destruct (FS.makedirs (fs w) STAGING_ROOT); [|reflexivity].
    method_steps. simpl.
    destruct (FS.makedirs _ (staging_identifier_dir ident)); [|reflexivity].
    method_steps. simpl. destruct (spawn_error w); reflexivity.
Qed.

End Verdicts.

Lemma transfer_verdict_witness :
  ∃ ok msg,
    returned (_download_one_with_progress "item1" "a.bin" 6 fresh_app short_download)
    = Some (ok, msg)
    ∧ (ok = true ↔ 0 = 0 ∧ (6 ≤ 0 ∨ 6 = 6))
    ∧ (ok = true → msg = EmptyString)
    ∧ (0 ≠ 0 → msg = child_failure_text short_download 0 ∧ msg ≠ EmptyString).
Proof.
  assert (H1 : FS.makedirs (fs short_download) STAGING_ROOT
               = Some (default ∅ (FS.makedirs ∅ STAGING_ROOT)))
    by (vm_compute; reflexivity).
  assert (H3 : child_ticks short_download
               = [mkTick [("/mnt/ssd/media/.ia_staging/item1/a.bin", "abc")] None]
                 ++ mkTick [("/mnt/ssd/media/.ia_staging/item1/a.bin", "abcdef")] (Some 0)
                    :: []) by reflexivity.
  assert (H4 : Forall running
                 [mkTick [("/mnt/ssd/media/.ia_staging/item1/a.bin", "abc")] None])
    by (repeat constructor).
  pose proof (transfer_verdict "item1" "a.bin" 6 fresh_app short_download
                _ _ _ _ 0 H1 eq_refl H3 H4 eq_refl eq_refl) as H.
  assert (Hsize : FS.getsize
            (disk_after
               ([mkTick [("/mnt/ssd/media/.ia_staging/item1/a.bin", "abc")] None]
                ++ [mkTick [("/mnt/ssd/media/.ia_staging/item1/a.bin", "abcdef")]
                      (Some 0)])
               (default ∅ (FS.makedirs ∅ STAGING_ROOT)))
            (staging_file_path "item1" "a.bin") = 6) by (vm_compute; reflexivity).
  cbv zeta in H. rewrite Hsize in H. exact H.
Defined.

Lemma transfer_waits_for_the_child_witness :
  _download_one_with_progress "item1" "a.bin" 7 fresh_app stalled_download = Pending.
Proof.
  assert (H1 : FS.makedirs (fs stalled_download) STAGING_ROOT
               = Some (default ∅ (FS.makedirs ∅ STAGING_ROOT)))
    by (vm_compute; reflexivity).
  apply (transfer_waits_for_the_child "item1" "a.bin" 7 fresh_app stalled_download _ H1).
  - reflexivity.
  - repeat constructor.
Defined.

Lemma transfer_fails_without_child_witness :
  returned (_download_one_with_progress "item1" "a.bin" 7 fresh_app no_client)
  = Some (false, "download failed: [Errno 2] No such file or directory: 'ia'").
Proof.
  assert (H1 : FS.makedirs (fs no_client) STAGING_ROOT
               = Some (default ∅ (FS.makedirs ∅ STAGING_ROOT)))
    by (vm_compute; reflexivity).
  rewrite (proj1 (transfer_fails_without_child "item1" "a.bin" "a*" 7 fresh_app
                    no_client _ _ H1 eq_refl)).
  reflexivity.
Defined.

(** ** Paging in general *)

Section Paging.

Lemma do_search_keeps_page (st : App) (w : World) :
  ∃ st', do_search false st w = Ret tt st' w
         ∧ page st' = page st ∧ menu_idx st' = menu_idx st.
Proof.
  unfold do_search. method_steps. simpl.
  destruct (build_query (query_text st) (media_filter st) (title_only st)) as [|c q];
    simpl; [eexists; split; [reflexivity|]; by split|].
  unfold render. method_steps.
  destruct (term_too_small w); method_steps; simpl;
    destruct (archive w _ _ _) as [found err];
    destruct err; simpl; eexists; (split; [reflexivity|]); by split.
Qed.

Lemma next_page_run (st : App) (w : World) :
  ∃ st', next_page st w = Ret tt st' w
         ∧ focus st' = focus st ∧ menu_idx st' = menu_idx st
         ∧ (page st' = page st ∨ page st' = page st + 1 ∧ results st' ≠ []).
Proof.
  unfold next_page. unfold bind at 1. unfold self at 1.
  destruct (query_text st) as [|c0 q0] eqn:Eqt; cbn [Str.is_empty].
  { eexists. split; [reflexivity|]. simpl. split; [done|]. split; [done|]. by left. }
  unfold bind at 1. unfold update at 1. unfold bind at 1.
  destruct (do_search_keeps_page (set_page (page st + 1) st) w) as (st1 & -> & Hp & Hm).
  simpl in Hp, Hm. unfold bind, self, update, ret.
  destruct (results st1) as [|r rs] eqn:E; simpl; eexists; (split; [reflexivity|]); simpl.
  - split; [done|]. split; [done|]. by left.
  - split; [done|]. split; [done|]. right. by rewrite E.
Qed.

Lemma prev_page_run (st : App) (w : World) :
  ∃ st', prev_page st w = Ret tt st' w
         ∧ focus st' = focus st ∧ menu_idx st' = menu_idx st
         ∧ (page st' = page st
            ∨ page st' = page st - 1 ∧ 1 ≤ page st' ∧ results st' ≠ []).
Proof.
  unfold prev_page. unfold bind at 1. unfold self at 1.
  destruct (query_text st) as [|c0 q0] eqn:Eqt; cbn [Str.is_empty].
  { eexists. split; [reflexivity|]. simpl. split; [done|]. split; [done|]. by left. }
  destruct (page st <=? 1) eqn:Ep.
  { eexists. split; [reflexivity|]. simpl. split; [done|]. split; [done|]. by left. }
  unfold bind at 1. unfold update at 1. unfold bind at 1.
  destruct (do_search_keeps_page (set_page (page st - 1) st) w) as (st1 & -> & Hp & Hm).
  simpl in Hp, Hm. unfold bind, self, update, ret.
  destruct (results st1) as [|r rs] eqn:E; simpl; eexists; (split; [reflexivity|]); simpl.
  - split; [done|]. split; [done|]. by left.
  - split; [done|]. split; [done|]. right. rewrite E. split; [done|]. split; [lia|done].
Qed.

(** Paging forward or back always returns, leaves the focus and the menu
    index where they were, and moves the page number by one only onto a
    page whose result list is not empty; going back never takes the number
    below 1.  In every other case the page number is the one before. *)
Theorem paging_keeps_menu_and_page (st : App) (w : World) :
  ∃ st1 st2,
    next_page st w = Ret tt st1 w ∧ prev_page st w = Ret tt st2 w
    ∧ focus st1 = focus st ∧ menu_idx st1 = menu_idx st
    ∧ focus st2 = focus st ∧ menu_idx st2 = menu_idx st
    ∧ (page st1 = page st ∨ page st1 = page st + 1 ∧ results st1 ≠ [])
    ∧ (page st2 = page st
       ∨ page st2 = page st - 1 ∧ 1 ≤ page st2 ∧ results st2 ≠ []).
Proof.
  destruct (next_page_run st w) as (st1 & H1 & Hf1 & Hm1 & Hp1).
  destruct (prev_page_run st w) as (st2 & H2 & Hf2 & Hm2 & Hp2).
  exists st1, st2. repeat split; assumption.
Qed.

End Paging.

(** ** Queries *)

Section Queries.

Lemma build_query_unfold (text f : string) (b : bool) :
  build_query text f b
  = let s := Str.strip text in
    if Str.is_empty s then EmptyString
    else if looks_advanced s then s
    else
      let base :=
        if b then "title:(" +:+ String dquote s +:+ String dquote ")" else s in
      if negb (Str.is_empty f) && negb (String.eqb f "any")
      then base +:+ " AND mediatype:" +:+ f
      else base.
Proof. reflexivity. Qed.

(** A stripped text in the syntax of the archive is sent as it is. *)
Lemma build_query_advanced (s f : string) (b : bool) :
  Str.strip s = s → Str.is_empty s = false → looks_advanced s = true →
  build_query s f b = s.
Proof.
  intros H1 H2 H3. rewrite build_query_unfold. cbv zeta. by rewrite H1, H2, H3.
Qed.

Lemma rstrip_app (s t : string) :
  t ≠ EmptyString → Str.rstrip t = t → Str.rstrip (s +:+ t) = s +:+ t.
Proof.
  intros Hne Ht. induction s as [|c s IH]; [exact Ht|].
  change (String c s +:+ t) with (String c (s +:+ t)).
  destruct (s +:+ t) as [|a r] eqn:E.
  - destruct s; [by subst|discriminate].
  - by apply rstrip_cons.
Qed.

Lemma strip_of_app (c : ascii) (x t : string) :
  Char.isspace c = false → t ≠ EmptyString → Str.rstrip t = t →
  Str.strip (String c x +:+ t) = String c x +:+ t.
Proof.
  intros Hc Hne Ht. unfold Str.strip.
  change (String c x +:+ t) with (String c (x +:+ t)).
  rewrite (lstrip_fixed c (x +:+ t) Hc).
  by apply (rstrip_app (String c x) t).
Qed.

Lemma strip_head (s : string) :
  Str.strip s = EmptyString
  ∨ ∃ c x, Str.strip s = String c x ∧ Char.isspace c = false.
Proof.
  unfold Str.strip.
  destruct (lstrip_head s) as [-> | (c & s' & -> & Hc)]; [by left|].
  destruct (rstrip_head c s' Hc) as [r ->]. right. by exists c, r.
Qed.

Lemma contains_app_r (sub s t : string) :
  Str.contains sub t = true → Str.contains sub (s +:+ t) = true.
Proof.
  intros H. induction s as [|c s IH]; [exact H|].
  change (String c s +:+ t) with (String c (s +:+ t)).
  cbn [Str.contains]. rewrite IH. apply orb_true_r.
Qed.

Lemma advanced_title (x : string) : looks_advanced ("title:(" +:+ x) = true.
Proof.
  unfold looks_advanced.
  assert (H : Str.contains "title:" ("title:(" +:+ x) = true) by reflexivity.
  rewrite H. by rewrite orb_true_r.
Qed.

Lemma advanced_mediatype (s f : string) :
  looks_advanced (s +:+ " AND mediatype:" +:+ f) = true.
Proof.
  unfold looks_advanced.
  rewrite (contains_app_r "mediatype:" s (" AND mediatype:" +:+ f)); reflexivity.
Qed.

Lemma title_part_stripped (s : string) :
  Str.rstrip (String dquote s +:+ String dquote ")") = String dquote s +:+ String dquote ")".
Proof. by apply rstrip_app. Qed.

(** What [build_query] returns is a fixed point of it: with a media filter
    of the list other than "any", or with the title-only switch, the query
    built is in the syntax of the archive, and building a query from it
    again, with any filter and switch, returns it as it is. *)
Theorem build_query_is_stable (text f f' : string) (b b' : bool) :
  In f FILTERS → b = true ∨ f ≠ "any" →
  build_query (build_query text f b) f' b' = build_query text f b.
Proof.
  intros Hf Hb. rewrite (build_query_unfold text). cbv zeta.
  destruct (Str.is_empty (Str.strip text)) eqn:Es; [reflexivity|].
  destruct (looks_advanced (Str.strip text)) eqn:Ea.
  { apply build_query_advanced; [apply strip_idem|exact Es|exact Ea]. }
  destruct (strip_head text) as [E | (c & x & E & Hc)]; [by rewrite E in Es|].
  rewrite E. clear Es Ea E.
  assert (Hfilter : ∀ g, In g FILTERS → g ≠ "any" →
            negb (Str.is_empty g) && negb (String.eqb g "any") = true
            ∧ Str.rstrip (" AND mediatype:" +:+ g) = " AND mediatype:" +:+ g).
  { intros g Hg Hne. simpl in Hg.
    destruct Hg as [<- | [<- | [<- | [<- | [<- | []]]]]]; try done; by split. }
  destruct (decide (f = "any")) as [-> | Eany].
  - destruct Hb as [-> | Hb]; [|done].
    change (negb (Str.is_empty "any") && negb (String.eqb "any" "any")) with false.
    cbv iota. apply build_query_advanced; [|reflexivity|apply advanced_title].
    apply (strip_of_app "t" "itle:(" _ eq_refl); [done|apply title_part_stripped].
  - destruct (Hfilter f Hf Eany) as [-> Hr]. cbv iota.
    destruct b.
    + apply build_query_advanced.
      * apply (strip_of_app "t"
                 ("itle:(" +:+ String dquote (String c x) +:+ String dquote ")") _ eq_refl);
          [done|exact Hr].
      * reflexivity.
      * apply (advanced_title ((String dquote (String c x) +:+ String dquote ")")
                               +:+ " AND mediatype:" +:+ f)).
    + apply build_query_advanced.
      * apply (strip_of_app c x _ Hc); [done|exact Hr].
      * reflexivity.
      * apply advanced_mediatype.
Qed.

End Queries.

Lemma build_query_is_stable_witness :
  build_query (build_query "  cats " "movies" false) "audio" true
  = build_query "  cats " "movies" false.
Proof.
  apply build_query_is_stable.
  - simpl. by left.
  - right. discriminate.
Defined.

(** ** Glob transfers that are not canceled *)

Section GlobVerdicts.

Variables (ident glob_pat : string) (expected : Z).

Lemma glob_loop_exit (pre : list tick) :
  ∀ (st : App) (w : World) (ex : tick) (rest : list tick) (rc : Z) (n : nat),
    child_ticks w = pre ++ ex :: rest →
    Forall running pre →
    tk_rc ex = Some rc →
    dl_cancel_requested st = false →
    cancel_pressed (S (length pre)) (keys w) = false →
    (length pre < n)%nat →
    returned (glob_loop n ident st w)
    = Some (if rc =? 0 then (true, EmptyString) else (false, child_failure_text w rc)).
Proof.
  induction pre as [|t pre IH]; intros st w ex rest rc n Hticks Hrun Hrc Hflag Hc Hn;
    (destruct n as [|n]; [simpl in Hn; lia|]); cbn [glob_loop]; unfold bind.
  - rewrite (glob_round_run ident st w ex rest Hticks). rewrite Hrc.
    cbn [ret returned]. f_equal.
    destruct (world_after_round ex rest w) as (_ & _ & _ & Hnext).
    apply not_pressed_cases in Hc as [Hk _].
    destruct (rc =? 0) eqn:E.
    + unfold child_exit_result. rewrite cancel_flag_after_round, Hnext, Hk, Hflag, E.
      reflexivity.
    + rewrite child_exit_failed;
        [|by rewrite cancel_flag_after_round, Hnext, Hk, Hflag|lia].
      f_equal. apply child_failure_text_ext; apply child_texts_after_round.
  - rewrite (glob_round_run ident st w t (pre ++ ex :: rest) Hticks).
    apply Forall_cons in Hrun as [Ht Hrun]. rewrite Ht.
    destruct (world_after_round t (pre ++ ex :: rest) w) as (Hticks' & _ & Hkeys & Hnext).
    apply not_pressed_cases in Hc as [Hk Hc]. cbn beta iota.
    lazymatch goal with
    | |- context [glob_loop n _ ?s ?w1] =>
        rewrite (IH s w1 ex rest rc n Hticks' Hrun Hrc)
    end.
    + destruct (rc =? 0); [reflexivity|].
      do 2 f_equal. apply child_failure_text_ext; apply child_texts_after_round.
    + by rewrite cancel_flag_after_round, Hnext, Hk, Hflag.
    + by rewrite Hkeys.
    + simpl in Hn. lia.
Qed.

(** A glob transfer whose child was started, is seen running for some polls
    and then exits, with no cancel key read, succeeds exactly when the exit
    code is 0: the expected total is shown, never checked.  After another
    exit code the result carries the error text of the child. *)
Theorem glob_transfer_verdict
    (st : App) (w : World) (fs0 fs1 : gmap string node)
    (pre : list tick) (ex : tick) (rest : list tick) (rc : Z) :
  FS.makedirs (fs w) STAGING_ROOT = Some fs0 →
  FS.makedirs fs0 (staging_identifier_dir ident) = Some fs1 →
  spawn_error w = None →
  child_ticks w = pre ++ ex :: rest →
  Forall running pre →
  tk_rc ex = Some rc →
  cancel_pressed (S (length pre)) (keys w) = false →
  returned (_download_glob_with_progress ident glob_pat expected st w)
  = Some (if rc =? 0 then (true, EmptyString) else (false, child_failure_text w rc)).
Proof.
  intros Hmk0 Hmk1 Hsp Hticks Hrun Hrc Hc.
  assert (Hn : (length pre < length (child_ticks w))%nat).
  { rewrite Hticks, length_app. simpl. lia. }
  rewrite (download_glob_starts ident glob_pat expected st w fs0 fs1 Hmk0 Hmk1 Hsp).
  erewrite glob_loop_exit;
    [|exact Hticks|exact Hrun|exact Hrc|reflexivity|exact Hc|exact Hn].
  destruct (rc =? 0); [reflexivity|]. do 2 f_equal.
Qed.

End GlobVerdicts.

Lemma glob_transfer_verdict_witness :
  returned (_download_glob_with_progress "item1" "a*" 7 fresh_app short_download)
  = Some (true, EmptyString).
Proof.
  assert (H0 : FS.makedirs (fs short_download) STAGING_ROOT
               = Some (default ∅ (FS.makedirs ∅ STAGING_ROOT)))
    by (vm_compute; reflexivity).
  assert (H1 : FS.makedirs (default ∅ (FS.makedirs ∅ STAGING_ROOT))
                 (staging_identifier_dir "item1")
               = Some (default ∅ (FS.makedirs (default ∅ (FS.makedirs ∅ STAGING_ROOT))
                                    (staging_identifier_dir "item1"))))
    by (vm_compute; reflexivity).
  assert (H3 : child_ticks short_download
               = [mkTick [("/mnt/ssd/media/.ia_staging/item1/a.bin", "abc")] None]
                 ++ mkTick [("/mnt/ssd/media/.ia_staging/item1/a.bin", "abcdef")] (Some 0)
                    :: []) by reflexivity.
  assert (H4 : Forall running
                 [mkTick [("/mnt/ssd/media/.ia_staging/item1/a.bin", "abc")] None])
    by (repeat constructor).
  exact (glob_transfer_verdict "item1" "a*" 7 fresh_app short_download
           _ _ _ _ _ 0 H0 H1 eq_refl H3 H4 eq_refl eq_refl).
Defined.

(** ** Runs of the download plan *)

Section PlanRuns.

Lemma evolves_refl (pl : Plan) : evolves pl pl.
Proof. split; [done|]. split; [done|]. by right. Qed.

Lemma evolves_trans (a b c : Plan) : evolves a b → evolves b c → evolves a c.
Proof.
  intros (Hg1 & Hm1 & Hl1) (Hg2 & Hm2 & Hl2).
  split; [congruence|]. split; [congruence|].
  destruct Hl2 as [H|H]; [by left|]. rewrite H. exact Hl1.
Qed.

Lemma evolves_push_log (msg : string) (pl : Plan) : evolves pl (push_log msg pl).
Proof.
  split; [done|]. split; [done|]. left.
  unfold push_log, set_download_log. cbn [download_log]. rewrite length_take. lia.
Qed.

Lemma evolves_drop_preview (pl : Plan) : evolves pl (drop_preview pl).
Proof. split; [done|]. split; [done|]. by right. Qed.

Lemma abort_plan_run (err : string) (pl : Plan) (st : App) (w : World) :
  abort_plan err pl st w
  = Ret (push_log ("Error: " +:+ err) (drop_preview pl))
      (set_status err (set_focus "LIST" (set_mode "FILES" st))) w.
Proof. reflexivity. Qed.

Lemma finish_plan_run (text : string) (pl : Plan) (st : App) (w : World) :
  finish_plan text pl st w
  = Ret (drop_preview pl) (set_status text (set_focus "LIST" (set_mode "FILES" st))) w.
Proof. reflexivity. Qed.

Lemma evolves_abort (err : string) (pl0 pl : Plan) :
  evolves pl0 pl → evolves pl0 (push_log ("Error: " +:+ err) (drop_preview pl)).
Proof.
  intros H. eapply evolves_trans; [exact H|].
  eapply evolves_trans; [apply evolves_drop_preview|apply evolves_push_log].
Qed.

Lemma import_and_log_inv (item : SearchResult) (f : IAFile) (pl pl' : Plan)
    (st st' : App) (w w' : World) :
  import_and_log item f pl st w = Ret pl' st' w' → ∃ msg, pl' = push_log msg pl.
Proof.
  unfold import_and_log. intros H.
  apply bind_ret_inv in H as (msg & st1 & w1 & _ & H). exists msg.
  cbv zeta in H. unfold render in H.
  cbv beta iota delta [bind ret world update] in H.
  destruct (term_too_small w1); by inversion H.
Qed.

(** What the two loops leave when they return. *)
Lemma import_staged_inv (item : SearchResult) (queue : list IAFile) :
  ∀ (pl : Plan) (st : App) (w : World) (through : bool) (pl' : Plan) (st' : App)
    (w' : World),
    import_staged item queue pl st w = Ret (through, pl') st' w' →
    evolves pl pl'
    ∧ (through = false → plan_dropped pl' ∧ mode st' = "FILES" ∧ focus st' = "LIST").
Proof.
  induction queue as [|f rest IH]; intros pl st w through pl' st' w' H.
  - inversion H; subst. split; [apply evolves_refl|done].
  - cbn [import_staged] in H.
    apply bind_ret_inv in H as (w0 & st0 & w1 & Hw & H). inversion Hw; subst; clear Hw.
    destruct (_verify_expected_size w1 (identifier item) (name f) (size f))
      as [ok_sz msg_sz].
    destruct ok_sz; cbn [negb] in H.
    + apply bind_ret_inv in H as (pl1 & st1 & w2 & Himp & H).
      apply import_and_log_inv in Himp as [msg ->].
      apply IH in H as [He Hd]. split; [|exact Hd].
      eapply evolves_trans; [apply evolves_push_log|exact He].
    + apply bind_ret_inv in H as (pl1 & st1 & w2 & Hab & H).
      rewrite abort_plan_run in Hab. inversion Hab; subst. inversion H; subst.
      split; [apply evolves_abort, evolves_refl|]. intros _. by repeat split.
Qed.

Lemma download_each_inv (item : SearchResult) (total : nat) (queue : list IAFile) :
  ∀ (idx : nat) (pl : Plan) (st : App) (w : World) (through : bool) (pl' : Plan)
    (st' : App) (w' : World),
    download_each item idx total queue pl st w = Ret (through, pl') st' w' →
    evolves pl pl'
    ∧ (through = false → plan_dropped pl' ∧ mode st' = "FILES" ∧ focus st' = "LIST").
Proof.
  induction queue as [|f rest IH]; intros idx pl st w through pl' st' w' H.
  - inversion H; subst. split; [apply evolves_refl|done].
  - cbn [download_each] in H.
    do 5 (apply bind_ret_inv in H as ([] & ? & ? & _ & H)).
    apply bind_ret_inv in H as ([ok2 err] & st1 & w1 & _ & H).
    destruct ok2; cbn [negb] in H.
    + apply bind_ret_inv in H as (pl1 & st2 & w2 & Himp & H).
      apply import_and_log_inv in Himp as [msg ->].
      apply IH in H as [He Hd]. split; [|exact Hd].
      eapply evolves_trans; [apply evolves_push_log|exact He].
    + apply bind_ret_inv in H as (pl1 & st2 & w2 & Hab & H).
      rewrite abort_plan_run in Hab. inversion Hab; subst. inversion H; subst.
      split; [apply evolves_abort, evolves_refl|]. intros _. by repeat split.
Qed.

(** Every run of the download plan that returns ends in the file list with
    the focus on the list, whatever happened in between; it leaves the
    license gate and the metadata as they were, a log it wrote to has at most
    8 lines, and the plan is either untouched (nothing was started) or
    forgotten. *)
Theorem plan_run_ends_in_the_file_list
    (pl pl' : Plan) (st st' : App) (w w' : World) :
  perform_download_plan pl st w = Ret pl' st' w' →
  mode st' = "FILES" ∧ focus st' = "LIST"
  ∧ evolves pl pl'
  ∧ (pl' = pl ∨ plan_dropped pl').
Proof.
  unfold perform_download_plan. intros H.
  destruct (preview_item pl) as [item|].
  2: { inversion H; subst. repeat split; [apply evolves_refl|by left]. }
  destruct (rights_verdict pl) as [ok why].
  destruct (negb ok && enforce_license_gate pl).
  { inversion H; subst. repeat split; [apply evolves_refl|by left]. }
  apply bind_ret_inv in H as (go & st1 & w1 & _ & H).
  destruct go; cbn [negb] in H.
  2: { inversion H; subst. repeat split; [apply evolves_refl|by left]. }
  destruct (preview_file pl) as [f|].
  - cbv zeta in H.
    do 4 (apply bind_ret_inv in H as ([] & ? & ? & _ & H)).
    apply bind_ret_inv in H as ([ok2 err] & st2 & w2 & _ & H).
    assert (He : evolves pl
                   (set_dl_overall_written 0 (set_dl_overall_total (total_size [f]) pl))).
    { split; [done|]. split; [done|]. by right. }
    destruct ok2; cbn [negb] in H.
    + apply bind_ret_inv in H as (pl1 & st3 & w3 & Himp & H).
      apply import_and_log_inv in Himp as [msg ->].
      rewrite finish_plan_run in H. inversion H; subst.
      split; [done|]. split; [done|]. split; [|by right].
      eapply evolves_trans; [exact He|].
      eapply evolves_trans; [apply evolves_push_log|apply evolves_drop_preview].
    + rewrite abort_plan_run in H. inversion H; subst.
      split; [done|]. split; [done|]. split; [by apply evolves_abort|by right].
  - destruct (preview_files pl) as [|f0 rest] eqn:Eq.
    { inversion H; subst. repeat split; [apply evolves_refl|by left]. }
    cbv zeta in H.
    do 2 (apply bind_ret_inv in H as ([] & ? & ? & _ & H)).
    destruct (negb (Str.is_empty (preview_prefix pl))
              && negb (String.eqb (preview_prefix pl) "__FULL_ITEM__")).
    + do 2 (apply bind_ret_inv in H as ([] & ? & ? & _ & H)).
      apply bind_ret_inv in H as ([ok2 err] & st2 & w2 & _ & H).
      destruct ok2; cbn [negb] in H.
      * apply bind_ret_inv in H as ([through pl1] & st3 & w3 & Hloop & H).
        apply import_staged_inv in Hloop as [He Hd].
        destruct through.
        -- rewrite finish_plan_run in H. inversion H; subst.
           split; [done|]. split; [done|]. split; [|by right].
           eapply evolves_trans; [exact He|apply evolves_drop_preview].
        -- inversion H; subst. destruct (Hd eq_refl) as (Hp & Hm & Hf).
           split; [done|]. split; [done|]. split; [done|by right].
      * rewrite abort_plan_run in H. inversion H; subst.
        split; [done|]. split; [done|].
        split; [apply evolves_abort, evolves_refl|by right].
    + apply bind_ret_inv in H as ([through pl1] & st3 & w3 & Hloop & H).
      apply download_each_inv in Hloop as [He Hd].
      destruct through.
      * rewrite finish_plan_run in H. inversion H; subst.
        split; [done|]. split; [done|]. split; [|by right].
        eapply evolves_trans; [exact He|apply evolves_drop_preview].
      * inversion H; subst. destruct (Hd eq_refl) as (Hp & Hm & Hf).
        split; [done|]. split; [done|]. split; [done|by right].
Qed.

End PlanRuns.

Section Consent.

Lemma prompt_keeps_child (label d : string) (st st' : App) (w w' : World)
    (r : option string) :
  prompt label d st w = Ret r st' w' → child_ticks w' = child_ticks w.
Proof.
  intros H. apply prompt_run_facts in H as (_ & -> & _). reflexivity.
Qed.

(** The download plan touches the disk or the child process only if the
    metadata shows an open license, or if the license gate is off and the
    answer to the consent prompt is the word DOWNLOAD (in any case, blanks
    around it aside). *)
Theorem download_needs_rights_or_consent
    (pl pl' : Plan) (st st' : App) (w w' : World) :
  perform_download_plan pl st w = Ret pl' st' w' →
  fs w' ≠ fs w ∨ child_ticks w' ≠ child_ticks w →
  fst (rights_verdict pl) = true
  ∨ (enforce_license_gate pl = false
     ∧ ∃ s st1 w1,
         prompt consent_label EmptyString st w = Ret (Some s) st1 w1
         ∧ Str.upper (Str.strip s) = "DOWNLOAD").
Proof.
  unfold perform_download_plan. intros H Hchg.
  assert (Hsame : ∀ w0, fs w0 = fs w → child_ticks w0 = child_ticks w → w' = w0 → False).
  { intros w0 Hfs Hct ->. destruct Hchg as [Hc|Hc]; by apply Hc. }
  destruct (preview_item pl) as [item|].
  2: { inversion H; subst. by destruct (Hsame w'). }
  destruct (rights_verdict pl) as [ok why]. cbn [fst].
  destruct ok; [by left|]. right. cbn [negb andb] in H.
  destruct (enforce_license_gate pl).
  { inversion H; subst. by destruct (Hsame w'). }
  split; [done|]. cbn [negb] in H.
  apply bind_ret_inv in H as (go & st1 & w1 & Hp & H).
  apply bind_ret_inv in Hp as (s & st2 & w2 & Hprompt & Hr).
  inversion Hr; subst. clear Hr.
  assert (Hno : negb (is_consent s) = true → False).
  { intros E. rewrite E in H. inversion H; subst.
    apply (Hsame w'); [by eapply prompt_keeps_disk|by eapply prompt_keeps_child|done]. }
  destruct s as [s|]; [|by destruct Hno].
  exists s, st1, w1. split; [exact Hprompt|].
  cbn [is_consent] in Hno.
  destruct (String.eqb (Str.upper (Str.strip s)) "DOWNLOAD") eqn:E;
    [by apply String.eqb_eq|by destruct Hno].
Qed.

End Consent.

Lemma plan_run_ends_in_the_file_list_witness :
  mode (default fresh_app (final_app consent_run)) = "FILES"
  ∧ focus (default fresh_app (final_app consent_run)) = "LIST"
  ∧ evolves unclear_plan (default unclear_plan (returned consent_run))
  ∧ (default unclear_plan (returned consent_run) = unclear_plan
     ∨ plan_dropped (default unclear_plan (returned consent_run))).
Proof.
  apply (plan_run_ends_in_the_file_list unclear_plan _ fresh_app _ consent_world
           (default consent_world (final_world consent_run))).
  vm_compute. reflexivity.
Defined.

Lemma download_needs_rights_or_consent_witness :
  fst (rights_verdict unclear_plan) = true
  ∨ (enforce_license_gate unclear_plan = false
     ∧ ∃ s st1 w1,
         prompt consent_label EmptyString fresh_app consent_world = Ret (Some s) st1 w1
         ∧ Str.upper (Str.strip s) = "DOWNLOAD").
Proof.
  apply (download_needs_rights_or_consent unclear_plan
           (default unclear_plan (returned consent_run)) fresh_app
           (default fresh_app (final_app consent_run)) consent_world
           (default consent_world (final_world consent_run))).
  - vm_compute. reflexivity.
  - right. vm_compute. discriminate.
Defined.
